(** * Menu recommendation core of the recipe worker (推荐算法.js)

    A shallow embedding of [RecommendationEngine], [NutritionCalculator] and
    [ShoppingListGenerator], and the properties of the menu composition and
    aggregation engine stated over it.

    Conventions of the embedding.
    - A JavaScript number is a value of [number]: a finite double, given by
      its exact rational value, one of the two infinities, or NaN.  Every
      arithmetic operation gives the double nearest to the exact result, a
      tie going to the even significand ([Number_value]); the two zeros are
      one value.  The numbers a recipe or a request holds are given by their
      exact values.
    - A property that a JSON object may lack is an [option]; truthiness
      ([x && ...], [x || d], [!x]) is written out at each use.
    - A plain object used as a dictionary is a [gmap] of its own properties;
      where the code reads through the prototype chain ([items[key]]) the
      inherited names are consulted as well.  [Object.prototype] is shared
      by all objects and outlives a request: what the code can do to it is
      the state [Realm], passed from one call to the next.
    - [Math.random] and the clock are ambient in the code; here they are
      explicit arguments. *)

From Stdlib Require Import Ascii QArith Qround Qabs Qpower ZArith Lia Lqa.
From Stdlib Require PrimFloat SpecFloat FloatOps.
From stdpp Require Import gmap strings list fin_maps.

Local Open Scope string_scope.

(** ** Numbers *)

Inductive number : Type :=
  | Fin (q : Q)
  | PosInf
  | NegInf
  | NaN.

(** [floor (log2 |x|)], for [x] not 0. *)
Definition binade (x : Q) : Z :=
  let l := (Z.log2 (Z.abs (Qnum x)) - Z.log2 (Zpos (Qden x)))%Z in
  if Qle_bool (2 ^ l)%Q (Qabs x) then l else (l - 1)%Z.

(** The nearest integer, a tie going to the even one. *)
Definition rne (x : Q) : Z :=
  let f := Qfloor x in
  match (x - inject_Z f ?= 1 # 2)%Q with
  | Lt => f
  | Gt => (f + 1)%Z
  | Eq => if Z.even f then f else (f + 1)%Z
  end.

(** The exponent of the unit in the last place of the doubles around [x]:
    53 bits of precision, and no exponent below that of the subnormals. *)
Definition quantum (x : Q) : Z := Z.max (binade x - 52) (-1074).

(** The Number value for [x]: the double nearest to [x], a tie going to the
    even significand, and an infinity from [2 ^ 1024] on. *)
Definition Number_value (x : Q) : number :=
  let x := Qred x in
  if Qeq_bool x 0 then Fin 0
  else
    let e := quantum x in
    let y := Qred (inject_Z (rne (x / 2 ^ e)) * 2 ^ e)%Q in
    if Qle_bool (2 ^ 1024)%Q (Qabs y)
    then (if Qle_bool 0 x then PosInf else NegInf)
    else Fin y.

(** The number a binary64 value of the kernel denotes. *)
Definition of_float (f : PrimFloat.float) : number :=
  match FloatOps.Prim2SF f with
  | SpecFloat.S754_zero _ => Fin 0
  | SpecFloat.S754_infinity false => PosInf
  | SpecFloat.S754_infinity true => NegInf
  | SpecFloat.S754_nan => NaN
  | SpecFloat.S754_finite s m e =>
      Fin (Qred ((if s then -1 else 1) * inject_Z (Zpos m) * 2 ^ e)%Q)
  end.

(** Sign of a rational, as an integer in {-1, 0, 1}. *)
Definition Qsgn (q : Q) : Z := Z.sgn (Qnum q).

Definition inf_of_sign (s : Z) : number :=
  if (s =? 0)%Z then NaN else if (0 <? s)%Z then PosInf else NegInf.

(** [a * b] *)
Definition num_mul (a b : number) : number :=
  match a, b with
  | Fin x, Fin y => Number_value (x * y)
  | NaN, _ | _, NaN => NaN
  | Fin x, PosInf | PosInf, Fin x => inf_of_sign (Qsgn x)
  | Fin x, NegInf | NegInf, Fin x => inf_of_sign (- Qsgn x)
  | PosInf, PosInf | NegInf, NegInf => PosInf
  | PosInf, NegInf | NegInf, PosInf => NegInf
  end.

(** [a / b]; a zero divisor is taken as +0. *)
Definition num_div (a b : number) : number :=
  match a, b with
  | Fin x, Fin y =>
      if (Qsgn y =? 0)%Z then inf_of_sign (Qsgn x) else Number_value (x / y)
  | NaN, _ | _, NaN => NaN
  | Fin _, PosInf | Fin _, NegInf => Fin 0
  | PosInf, Fin y => if (Qsgn y <? 0)%Z then NegInf else PosInf
  | NegInf, Fin y => if (Qsgn y <? 0)%Z then PosInf else NegInf
  | PosInf, PosInf | PosInf, NegInf | NegInf, PosInf | NegInf, NegInf => NaN
  end.

(** [a + b] *)
Definition num_add (a b : number) : number :=
  match a, b with
  | Fin x, Fin y => Number_value (x + y)
  | NaN, _ | _, NaN => NaN
  | PosInf, NegInf | NegInf, PosInf => NaN
  | PosInf, _ | _, PosInf => PosInf
  | NegInf, _ | _, NegInf => NegInf
  end.

(** [a < b]; every comparison with NaN is false. *)
Definition num_lt (a b : number) : bool :=
  match a, b with
  | NaN, _ | _, NaN => false
  | Fin x, Fin y => negb (Qle_bool y x)
  | _, NegInf => false
  | NegInf, _ => true
  | PosInf, _ => false
  | _, PosInf => true
  end.

(** [a > b] *)
Definition num_gt (a b : number) : bool := num_lt b a.

(** [Math.round]: the nearest integer, a tie going towards +Infinity. *)
Definition Math_round (a : number) : number :=
  match a with
  | Fin x => Fin (inject_Z (Qfloor (x + (1 # 2))))
  | other => other
  end.

(** A number read from a property that may be missing: [undefined] in
    arithmetic is NaN. *)
Definition to_number (o : option Q) : number :=
  match o with
  | Some q => Fin q
  | None => NaN
  end.

(** [x || 0] on a number property: missing and 0 both give 0. *)
Definition or_zero (o : option Q) : number :=
  match o with
  | Some q => Fin q
  | None => Fin 0
  end.

(** [Array.prototype.includes] on an array of strings. *)
Definition includes (l : list string) (s : string) : bool :=
  existsb (String.eqb s) l.

(** Half a unit in the last place of 1, and half the least subnormal: the
    relative and the absolute bound of the error of one rounding. *)
Definition roundoff : Q := 1 # 9007199254740992.
Definition tiny : Q := (2 ^ (-1075))%Q.

(** A double: a significand below [2 ^ 53] at an exponent from -1074 to
    971. *)
Definition is_double (d : Q) : Prop :=
  exists m e : Z,
    (d == inject_Z m * 2 ^ e)%Q
    /\ (Z.abs m < 2 ^ 53)%Z /\ (-1074 <= e <= 971)%Z.

(** ** Data model *)

(** An entry of 食材列表. *)
Module Ingredient.
Record t : Type := mk {
  食材名称 : string;
  用量 : Q;
  单位 : option string
}.
End Ingredient.

(** An entry of 调味料. *)
Module Seasoning.
Record t : Type := mk {
  名称 : string;
  用量 : Q;
  单位 : option string
}.
End Seasoning.

(** A property that holds a number or, after a round trip through JSON of
    a number that is not finite, [null]. *)
Inductive nullable : Type :=
  | Num (n : number)
  | Null.

(** ToNumber on such a property: [null] counts as 0. *)
Definition ToNumber (v : nullable) : number :=
  match v with
  | Num n => n
  | Null => Fin 0
  end.

(** An entry of 调整后食材: [{...ingredient, 调整用量}]. *)
Module Adjusted.
Record t : Type := mk {
  ingredient : Ingredient.t;
  调整用量 : nullable
}.
End Adjusted.

(** The five nutrient fields, shared by 营养成分, the totals, the
    percentages and the daily recommendation. *)
Record Nutrients (A : Type) : Type := mkNutrients {
  热量 : A;
  蛋白质 : A;
  碳水化合物 : A;
  脂肪 : A;
  纤维素 : A
}.
Arguments mkNutrients {A}.
Arguments 热量 {A}.
Arguments 蛋白质 {A}.
Arguments 碳水化合物 {A}.
Arguments 脂肪 {A}.
Arguments 纤维素 {A}.

Record Portion : Type := mkPortion {
  基准人数 : option Q;
  食材列表 : option (list Ingredient.t);
  调味料 : option (list Seasoning.t)
}.

Module Recipe.
Record t : Type := mk {
  菜品标识 : string;
  菜品名称 : string;
  菜品分类 : option (list string);
  适用季节 : option (list string);
  难度等级 : option string;
  准备时间 : option Z;
  烹饪时间 : option Z;
  菜品标签 : option (list string);
  标准份量 : option Portion;
  营养成分 : option (Nutrients (option Q));
  调整后食材 : option (list Adjusted.t)
}.
End Recipe.

Module Params.
Record t : Type := mk {
  用餐人数 : Z;
  季节 : string;
  口味偏好 : list string;
  特殊需求 : list string;
  烹饪时间 : option Z;
  难度等级 : string
}.

(** [{ ...params, 难度等级: d }] *)
Definition with_难度等级 (p : t) (d : string) : t :=
  mk (用餐人数 p) (季节 p) (口味偏好 p) (特殊需求 p) (烹饪时间 p) d.
End Params.

(** The menu object: category name to recipes, in insertion order. *)
Definition Menu : Type := list (string * list Recipe.t).

(** ** RecommendationEngine.filterRecipes *)

(** A string property is truthy when present and not empty. *)
Definition truthy_string (o : option string) : bool :=
  match o with
  | Some s => negb (String.eqb s "")
  | None => false
  end.

(** A number property is truthy when present and not 0. *)
Definition truthy_Z (o : option Z) : bool :=
  match o with
  | Some z => negb (z =? 0)%Z
  | None => false
  end.

(** 季节过滤: the condition of the first [return false]. An array, even an
    empty one, is truthy. *)
Definition season_rejects (params : Params.t) (recipe : Recipe.t) : bool :=
  negb (String.eqb (Params.季节 params) "不限")
  && match Recipe.适用季节 recipe with
     | Some seasons => negb (includes seasons (Params.季节 params))
     | None => false
     end.

(** 难度过滤: the condition of the second [return false]. *)
Definition difficulty_rejects (params : Params.t) (recipe : Recipe.t) : bool :=
  negb (String.eqb (Params.难度等级 params) "不限")
  && truthy_string (Recipe.难度等级 recipe)
  && match Recipe.难度等级 recipe with
     | Some d => negb (String.eqb d (Params.难度等级 params))
     | None => false
     end.

(** 时间过滤: the condition of the third [return false]. *)
Definition time_rejects (params : Params.t) (recipe : Recipe.t) : bool :=
  truthy_Z (Params.烹饪时间 params)
  && truthy_Z (Recipe.烹饪时间 recipe)
  && match Recipe.烹饪时间 recipe, Params.烹饪时间 params with
     | Some c, Some m => (m <? c)%Z
     | _, _ => false
     end.

(** The callback of [recipes.filter]. The 特殊需求 block has an empty body
    and falls through. *)
Definition keeps (params : Params.t) (recipe : Recipe.t) : bool :=
  if season_rejects params recipe then false
  else if difficulty_rejects params recipe then false
  else if time_rejects params recipe then false
  else true.

Definition filterRecipes (recipes : list Recipe.t) (params : Params.t)
  : list Recipe.t :=
  List.filter (keeps params) recipes.

(** ** The random source *)

(** [[...recipes].sort(() => 0.5 - Math.random())] reorders a copy of the
    array according to the draws of the ambient generator.  Which order comes
    out is left open; what is kept is that the copy is reordered in place by
    the sort, so the outcome holds the same recipes, and that the generator
    has moved on afterwards. *)
Record RandomSource : Type := mkRandomSource {
  rng : Type;
  sort_random : rng -> list Recipe.t -> list Recipe.t * rng;
  sort_random_perm : forall g l, (sort_random g l).1 ≡ₚ l
}.

(** A source with two states: one reverses the array, the other leaves it
    as it is, and each draw flips the state. *)
Definition flip_source : RandomSource :=
  {| rng := bool;
     sort_random := fun g l => (if g then rev l else l, negb g);
     sort_random_perm := fun g l =>
       match g return (if g then rev l else l) ≡ₚ l with
       | true => Permutation_sym (Permutation_rev l)
       | false => Permutation_refl l
       end |}.

(** ** RecommendationEngine: selection *)

Section Selection.
Context (R : RandomSource).

(** [randomSelect(recipes, count)] *)
Definition randomSelect (g : rng R) (recipes : list Recipe.t) (count : nat)
  : list Recipe.t * rng R :=
  let '(shuffled, g') := sort_random R g recipes in
  (take (Nat.min count (length shuffled)) shuffled, g').

(** 主菜: 2 when 用餐人数 >= 8, else 1. *)
Definition main_count (params : Params.t) : nat :=
  if (8 <=? Params.用餐人数 params)%Z then 2 else 1.

(** 配菜: 1 up to 4 people, 2 up to 8, else 3. *)
Definition side_count (params : Params.t) : nat :=
  if (Params.用餐人数 params <=? 4)%Z then 1
  else if (Params.用餐人数 params <=? 8)%Z then 2
  else 3.

Definition selectMainDishes (g : rng R) (recipes : list Recipe.t)
    (params : Params.t) : list Recipe.t * rng R :=
  if (length recipes =? 0)%nat then ([], g)
  else randomSelect g recipes (main_count params).

Definition selectSideDishes (g : rng R) (recipes : list Recipe.t)
    (params : Params.t) : list Recipe.t * rng R :=
  if (length recipes =? 0)%nat then ([], g)
  else randomSelect g recipes (side_count params).

Definition selectSoups (g : rng R) (recipes : list Recipe.t)
    (params : Params.t) : list Recipe.t * rng R :=
  if (length recipes =? 0)%nat then ([], g)
  else randomSelect g recipes 1.

Definition selectStaples (g : rng R) (recipes : list Recipe.t)
    (params : Params.t) : list Recipe.t * rng R :=
  if (length recipes =? 0)%nat then ([], g)
  else randomSelect g recipes 1.
End Selection.

(** ** RecommendationEngine.adjustServings *)

(** [JSON.stringify] writes a number that is not finite as [null]. *)
Definition JSON_number (v : nullable) : nullable :=
  match v with
  | Num (Fin q) => Num (Fin q)
  | _ => Null
  end.

(** [JSON.parse(JSON.stringify(recipe))]: the round trip gives the recipe
    back field by field in a fresh object.  The catalog's own fields are
    JSON data and come back as they are; a scaled quantity that an earlier
    [adjustServings] left on the recipe comes back as [null] when it is not
    finite. *)
Definition JSON_clone (recipe : Recipe.t) : Recipe.t :=
  Recipe.mk (Recipe.菜品标识 recipe) (Recipe.菜品名称 recipe)
    (Recipe.菜品分类 recipe) (Recipe.适用季节 recipe) (Recipe.难度等级 recipe)
    (Recipe.准备时间 recipe) (Recipe.烹饪时间 recipe) (Recipe.菜品标签 recipe)
    (Recipe.标准份量 recipe) (Recipe.营养成分 recipe)
    (map (fun a => Adjusted.mk (Adjusted.ingredient a)
                     (JSON_number (Adjusted.调整用量 a)))
       <$> Recipe.调整后食材 recipe).

(** [Math.round(ingredient.用量 * ratio * 10) / 10] *)
Definition adjust_quantity (q : Q) (ratio : number) : number :=
  num_div (Math_round (num_mul (num_mul (Fin q) ratio) (Fin 10))) (Fin 10).

(** [adjusted.调整后食材 = ...] on the clone. *)
Definition set_调整后食材 (r : Recipe.t) (l : list Adjusted.t) : Recipe.t :=
  Recipe.mk (Recipe.菜品标识 r) (Recipe.菜品名称 r) (Recipe.菜品分类 r)
    (Recipe.适用季节 r) (Recipe.难度等级 r) (Recipe.准备时间 r)
    (Recipe.烹饪时间 r) (Recipe.菜品标签 r) (Recipe.标准份量 r)
    (Recipe.营养成分 r) (Some l).

(** The callback of [recipes.map] in [adjustServings]. *)
Definition adjust_recipe (people : Z) (recipe : Recipe.t) : Recipe.t :=
  match Recipe.标准份量 recipe with
  | None => recipe
  | Some portion =>
      let ratio := num_div (Fin (inject_Z people)) (to_number (基准人数 portion)) in
      let adjusted := JSON_clone recipe in
      match Recipe.标准份量 adjusted with
      | Some {| 食材列表 := Some ingredients |} =>
          set_调整后食材 adjusted
            (map (fun ingredient =>
                    Adjusted.mk ingredient
                      (Num (adjust_quantity (Ingredient.用量 ingredient)
                              ratio)))
                 ingredients)
      | _ => adjusted
      end
  end.

Definition adjustServings (menu : Menu) (people : Z) : Menu :=
  map (fun '(category, recipes) => (category, map (adjust_recipe people) recipes))
      menu.

(** ** RecommendationEngine.recommend *)

(** [r.菜品分类 && r.菜品分类.includes(c)] *)
Definition in_category (c : string) (r : Recipe.t) : bool :=
  match Recipe.菜品分类 r with
  | Some cs => includes cs c
  | None => false
  end.

(** The first two statements of [recommend]: the value [filteredRecipes]
    ends with, and next to it the requests [filterRecipes] was run with, in
    order. *)
Definition filter_stage (recipes : list Recipe.t) (params : Params.t)
  : list Recipe.t * list Params.t :=
  let filteredRecipes := filterRecipes recipes params in
  if (length filteredRecipes <? 10)%nat
  then
    let relaxed := Params.with_难度等级 params "不限" in
    (filterRecipes recipes relaxed, [params; relaxed])
  else (filteredRecipes, [params]).

Definition filtered_for (recipes : list Recipe.t) (params : Params.t)
  : list Recipe.t :=
  (filter_stage recipes params).1.

(** The [categories] object of [recommend]. *)
Definition bucket (c : string) (filteredRecipes : list Recipe.t)
  : list Recipe.t :=
  List.filter (in_category c) filteredRecipes.

Section Recommend.
Context (R : RandomSource).

(** The [selected] object; its properties are evaluated top to bottom, the
    generator passing from one to the next. *)
Definition select_menu (g : rng R) (filteredRecipes : list Recipe.t)
    (params : Params.t) : Menu * rng R :=
  let '(mains, g1) := selectMainDishes R g (bucket "主菜" filteredRecipes) params in
  let '(sides, g2) := selectSideDishes R g1 (bucket "配菜" filteredRecipes) params in
  let '(soups, g3) := selectSoups R g2 (bucket "汤品" filteredRecipes) params in
  let '(staples, g4) := selectStaples R g3 (bucket "主食" filteredRecipes) params in
  ([("主菜", mains); ("配菜", sides); ("汤品", soups); ("主食", staples)], g4).

(** [recommend] from the grouping by category on. *)
Definition compose_menu (g : rng R) (filteredRecipes : list Recipe.t)
    (params : Params.t) : Menu * rng R :=
  let '(selected, g') := select_menu g filteredRecipes params in
  (adjustServings selected (Params.用餐人数 params), g').

Definition recommend (g : rng R) (recipes : list Recipe.t)
    (params : Params.t) : Menu * rng R :=
  compose_menu g (filtered_for recipes params) params.
End Recommend.


(** ** NutritionCalculator *)

(** [Object.values(menu).flat()] *)
Definition all_recipes (menu : Menu) : list Recipe.t := concat (map snd menu).

(** [recipe.标准份量 ? people / recipe.标准份量.基准人数 : 1] *)
Definition nutrition_ratio (people : Z) (recipe : Recipe.t) : number :=
  match Recipe.标准份量 recipe with
  | Some portion => num_div (Fin (inject_Z people)) (to_number (基准人数 portion))
  | None => Fin 1
  end.

(** The callback of [forEach] in [calculate], as a step on [total]. *)
Definition add_nutrition (people : Z) (total : Nutrients number)
    (recipe : Recipe.t) : Nutrients number :=
  match Recipe.营养成分 recipe with
  | None => total
  | Some n =>
      let ratio := nutrition_ratio people recipe in
      {| 热量 := num_add (热量 total) (num_mul (or_zero (热量 n)) ratio);
         蛋白质 := num_add (蛋白质 total) (num_mul (or_zero (蛋白质 n)) ratio);
         碳水化合物 :=
           num_add (碳水化合物 total) (num_mul (or_zero (碳水化合物 n)) ratio);
         脂肪 := num_add (脂肪 total) (num_mul (or_zero (脂肪 n)) ratio);
         纤维素 := num_add (纤维素 total) (num_mul (or_zero (纤维素 n)) ratio) |}
  end.

Definition zero_total : Nutrients number :=
  {| 热量 := Fin 0; 蛋白质 := Fin 0; 碳水化合物 := Fin 0; 脂肪 := Fin 0;
     纤维素 := Fin 0 |}.

Definition sum_nutrition (menu : Menu) (people : Z) : Nutrients number :=
  fold_left (add_nutrition people) (all_recipes menu) zero_total.

Definition dailyRecommendation : Nutrients number :=
  {| 热量 := Fin 2000; 蛋白质 := Fin 60; 碳水化合物 := Fin 300; 脂肪 := Fin 67;
     纤维素 := Fin 25 |}.

(** [Math.round((value / dailyRecommendation[key]) * 100)] *)
Definition percentage (value reference : number) : number :=
  Math_round (num_mul (num_div value reference) (Fin 100)).

(** The loop over [Object.entries(total)]. *)
Definition percentages_of (total : Nutrients number) : Nutrients number :=
  {| 热量 := percentage (热量 total) (热量 dailyRecommendation);
     蛋白质 := percentage (蛋白质 total) (蛋白质 dailyRecommendation);
     碳水化合物 := percentage (碳水化合物 total) (碳水化合物 dailyRecommendation);
     脂肪 := percentage (脂肪 total) (脂肪 dailyRecommendation);
     纤维素 := percentage (纤维素 total) (纤维素 dailyRecommendation) |}.

Module Scores.
Record t : Type := mk {
  热量 : string;
  蛋白质 : string;
  脂肪 : string;
  总体 : string
}.
End Scores.

(** The three-way test shared by the per-nutrient blocks. *)
Definition band (ratio low high : number) (mid : string) : string :=
  if num_lt ratio low then "偏低"
  else if num_gt ratio high then "偏高"
  else mid.

(** [Object.values(scores).filter(s => s === label).length] *)
Definition count_label (label : string) (values : list string) : nat :=
  length (List.filter (String.eqb label) values).

Definition evaluateNutrition (total recommendation : Nutrients number)
  : Scores.t :=
  let calorieRatio := num_div (热量 total) (热量 recommendation) in
  let s热量 :=
    band calorieRatio (Number_value (7 # 10)) (Number_value (13 # 10)) "适中" in
  let proteinRatio := num_div (蛋白质 total) (蛋白质 recommendation) in
  let s蛋白质 :=
    band proteinRatio (Number_value (8 # 10)) (Number_value (12 # 10)) "充足" in
  let fatRatio := num_div (脂肪 total) (脂肪 recommendation) in
  let s脂肪 :=
    band fatRatio (Number_value (7 # 10)) (Number_value (13 # 10)) "适中" in
  let lowCount := count_label "偏低" [s热量; s蛋白质; s脂肪] in
  let highCount := count_label "偏高" [s热量; s蛋白质; s脂肪] in
  let s总体 :=
    if (2 <? lowCount)%nat then "营养不足"
    else if (2 <? highCount)%nat then "营养过剩"
    else if String.eqb s蛋白质 "充足" && String.eqb s脂肪 "适中" then "营养均衡"
    else "基本均衡" in
  Scores.mk s热量 s蛋白质 s脂肪 s总体.

Definition getNutritionSuggestions (evaluation : Scores.t) : list string :=
  let s1 :=
    if String.eqb (Scores.热量 evaluation) "偏低" then ["建议增加主食或蛋白质摄入"]
    else if String.eqb (Scores.热量 evaluation) "偏高" then ["建议减少油脂或主食摄入"]
    else [] in
  let s2 :=
    if String.eqb (Scores.蛋白质 evaluation) "偏低"
    then ["建议增加肉类、豆制品或蛋奶摄入"] else [] in
  let s3 :=
    if String.eqb (Scores.脂肪 evaluation) "偏高"
    then ["建议减少油炸或高脂肪食材"] else [] in
  let suggestions := (s1 ++ s2 ++ s3)%list in
  if (length suggestions =? 0)%nat then ["当前菜单营养均衡，继续保持"]
  else suggestions.

Module Nutrition.
Record t : Type := mk {
  总量 : Nutrients number;
  百分比 : Nutrients number;
  评价 : Scores.t;
  建议 : list string
}.
End Nutrition.

Definition calculate (menu : Menu) (people : Z) : Nutrition.t :=
  let total := sum_nutrition menu people in
  let percentages := percentages_of total in
  let evaluation := evaluateNutrition total dailyRecommendation in
  Nutrition.mk total percentages evaluation (getNutritionSuggestions evaluation).

(** ** ShoppingListGenerator *)

(** [name.includes(keyword)]: [keyword] occurs in [name]. *)
Fixpoint str_includes (name keyword : string) : bool :=
  String.prefix keyword name
  || match name with
     | EmptyString => false
     | String _ rest => str_includes rest keyword
     end.

(** The keyword tables of [categorizeIngredient], in the order of the
    object literal. *)
Definition category_keywords : list (string * list string) :=
  [ ("蔬菜类", ["菜"; "笋"; "菇"; "菌"; "椒"; "瓜"; "茄"; "豆"; "萝卜"; "胡萝卜";
               "土豆"; "红薯"]);
    ("肉类", ["肉"; "排"; "腿"; "蹄"; "肝"; "肚"; "肠"]);
    ("水产类", ["鱼"; "虾"; "蟹"; "贝"; "蛤"; "蛏"; "蚝"; "参"]);
    ("调味品", ["油"; "盐"; "酱"; "醋"; "糖"; "料酒"; "生抽"; "老抽"; "蚝油";
               "香油"]);
    ("主食类", ["米"; "面"; "粉"; "饭"; "粥"; "馒头"; "包子"; "饺子"]) ].

(** The nested loops of [categorizeIngredient] over the remaining tables. *)
Fixpoint categorize_in (tables : list (string * list string)) (name : string)
  : string :=
  match tables with
  | [] => "其他"
  | (category, keywords) :: rest =>
      if existsb (str_includes name) keywords then category
      else categorize_in rest name
  end.

Definition categorizeIngredient (name : string) : string :=
  categorize_in category_keywords name.

(** The value of an entry of [items]. *)
Module Item.
Record t : Type := mk {
  用量 : number;
  单位 : string;
  分类 : string
}.
End Item.

(** An entry of a category list of the result. *)
Module Entry.
Record t : Type := mk {
  名称 : string;
  用量 : number;
  单位 : string;
  已购买 : bool
}.
End Entry.

(** The property names every plain object inherits from [Object.prototype].
    [items] is created as [{}], so [items[key]] finds these although [items]
    has no property of its own under them. *)
Definition Object_prototype_names : list string :=
  [ "constructor"; "__defineGetter__"; "__defineSetter__"; "hasOwnProperty";
    "__lookupGetter__"; "__lookupSetter__"; "isPrototypeOf";
    "propertyIsEnumerable"; "toString"; "valueOf"; "__proto__";
    "toLocaleString" ].

Definition inherited (key : string) : bool :=
  includes Object_prototype_names key.

(** [ingredient.单位 || '适量'] *)
Definition unit_of (ingredient : Ingredient.t) : string :=
  match Ingredient.单位 ingredient with
  | Some u => if String.eqb u "" then "适量" else u
  | None => "适量"
  end.

(** The callback of the inner [forEach] of [generate], as a step on the own
    properties of [items].  When [items[key]] is an inherited value it is
    truthy, no entry is created, and [+=] writes to that inherited object:
    [items] itself stays as it is. *)
Definition add_ingredient (items : gmap string Item.t) (a : Adjusted.t)
  : gmap string Item.t :=
  let key := Ingredient.食材名称 (Adjusted.ingredient a) in
  let unit := unit_of (Adjusted.ingredient a) in
  match items !! key with
  | Some item =>
      <[key := Item.mk (num_add (Item.用量 item)
                                (ToNumber (Adjusted.调整用量 a)))
                 (Item.单位 item) (Item.分类 item)]> items
  | None =>
      if inherited key then items
      else <[key := Item.mk (num_add (Fin 0) (ToNumber (Adjusted.调整用量 a)))
                      unit (categorizeIngredient key)]> items
  end.

(** The ingredients visited by the two nested [forEach], in order. *)
Definition scaled_ingredients (menu : Menu) : list Adjusted.t :=
  concat (map (fun recipe => default [] (Recipe.调整后食材 recipe))
              (all_recipes menu)).

Definition collect_items (menu : Menu) : gmap string Item.t :=
  fold_left add_ingredient (scaled_ingredients menu) ∅.

(** [Math.round(item.用量 * 100) / 100] *)
Definition round2 (a : number) : number :=
  num_div (Math_round (num_mul a (Fin 100))) (Fin 100).

Definition to_entry (p : string * Item.t) : Entry.t :=
  Entry.mk p.1 (round2 (Item.用量 p.2)) (Item.单位 p.2) false.

Definition category_names : list string :=
  ["蔬菜类"; "肉类"; "水产类"; "调味品"; "主食类"; "其他"].

(** What the loop over [Object.entries(items)] pushes to
    [categories[category]]. *)
Definition pushed_to (category : string) (items : gmap string Item.t)
  : list Entry.t :=
  map to_entry
      (List.filter (fun p => String.eqb (Item.分类 p.2) category)
                   (map_to_list items)).

(** [list.sort((a, b) => a.名称.localeCompare(b.名称, 'zh-CN'))]: the order is
    that of the engine's collation data; what is kept is that sorting
    reorders the list. *)
Record Collator : Type := mkCollator {
  sort_zh : list Entry.t -> list Entry.t;
  sort_zh_perm : forall l, sort_zh l ≡ₚ l
}.

(** The collator under which every two names compare equal: the sort, being
    stable, leaves the list as it is. *)
Definition flat_collator : Collator :=
  {| sort_zh := fun l => l; sort_zh_perm := fun l => Permutation_refl l |}.

(** [categories[c]] *)
Definition property {A : Type} (c : string) (l : list (string * A)) : option A :=
  snd <$> List.find (fun p => String.eqb p.1 c) l.

Definition nonempty_at (c : string) (categories : list (string * list Entry.t))
  : bool :=
  match property c categories with
  | Some l => (0 <? length l)%nat
  | None => false
  end.

Definition getShoppingTips (categories : list (string * list Entry.t))
  : list string :=
  let t1 :=
    match property "蔬菜类" categories with
    | Some l => if (5 <? length l)%nat then ["蔬菜建议新鲜购买，当天使用"] else []
    | None => []
    end in
  let t2 :=
    if nonempty_at "肉类" categories then ["肉类建议冷冻保存，使用前解冻"] else [] in
  let t3 :=
    if nonempty_at "水产类" categories then ["水产建议当天购买，保持新鲜"] else [] in
  let t4 :=
    if existsb (fun p => (0 <? length p.2)%nat) categories
    then ["建议按照清单分类购买，提高效率"] else [] in
  let tips := (t1 ++ t2 ++ t3 ++ t4)%list in
  if (0 <? length tips)%nat then tips else ["根据清单购买即可"].

Module Stats.
Record t : Type := mk {
  总项数 : nat;
  分类统计 : list (string * nat)
}.
End Stats.

Module ShoppingList.
Record t : Type := mk {
  清单 : list (string * list Entry.t);
  统计 : Stats.t;
  生成时间 : string;
  用餐人数 : Z;
  提示 : list string
}.
End ShoppingList.

(** What the code can have done to [Object.prototype], which every plain
    object of the isolate inherits from and which outlives a request: left
    it as the engine made it, or given it an enumerable property 用量. *)
Inductive Realm : Type :=
  | Pristine
  | Polluted.

(** An ingredient named [__proto__] makes [items[key]] the prototype object
    itself, and [+=] gives it, and so every object, an enumerable 用量. *)
Definition pollutes (menu : Menu) : bool :=
  existsb (fun a => String.eqb (Ingredient.食材名称 (Adjusted.ingredient a))
                               "__proto__")
          (scaled_ingredients menu).

(** The realm after the two nested [forEach] of [generate]. *)
Definition merged_in (realm : Realm) (menu : Menu) : Realm :=
  if pollutes menu then Polluted else realm.

Section Generate.
Context (C : Collator).

(** [generate(menu, people)] in a realm, with the clock reading [now] of
    [new Date().toISOString()]: the value returned, [None] for the
    TypeError, and the realm left behind.  With an enumerable 用量 on
    [Object.prototype], [for (const category in categories)] visits 用量
    after the six own properties, where [categories[category]] is a number
    and has no [sort]. *)
Definition generate (realm : Realm) (menu : Menu) (people : Z) (now : string)
  : option ShoppingList.t * Realm :=
  let items := collect_items menu in
  match merged_in realm menu with
  | Polluted => (None, Polluted)
  | Pristine =>
      let categories :=
        map (fun c => (c, sort_zh C (pushed_to c items))) category_names in
      let stats :=
        Stats.mk (size items)
          (omap (fun p => if (0 <? length p.2)%nat
                          then Some (p.1, length p.2) else None)
                categories) in
      (Some (ShoppingList.mk categories stats now people
               (getShoppingTips categories)),
       Pristine)
  end.
End Generate.

(** ** handleRecommend: the bundle *)

Module Bundle.
Record t : Type := mk {
  菜单 : Menu;
  营养信息 : Nutrition.t;
  购物清单 : ShoppingList.t
}.
End Bundle.

Section Bundle.
Context (R : RandomSource) (C : Collator).

(** The three calls of [handleRecommend] between the catalog fetch and the
    response: [recommend], [calculate], [generate].  The generator state,
    the realm and the clock reading are what the run finds in its
    environment; an exception of [generate] leaves the handler.  Next to
    the bundle stands the realm the run leaves behind. *)
Definition menu_bundle (g : rng R) (realm : Realm) (now : string)
    (recipes : list Recipe.t) (params : Params.t) : option Bundle.t * Realm :=
  let menu := (recommend R g recipes params).1 in
  let 营养信息 := calculate menu (Params.用餐人数 params) in
  match generate C realm menu (Params.用餐人数 params) now with
  | (Some 购物清单, realm') => (Some (Bundle.mk menu 营养信息 购物清单), realm')
  | (None, realm') => (None, realm')
  end.
End Bundle.

(** ** handleRecommend: the request *)

(** [getCurrentSeason], from the month number [new Date().getMonth() + 1]. *)
Definition getCurrentSeason (month : Z) : string :=
  if (3 <=? month)%Z && (month <=? 5)%Z then "春季"
  else if (6 <=? month)%Z && (month <=? 8)%Z then "夏季"
  else if (9 <=? month)%Z && (month <=? 11)%Z then "秋季"
  else "冬季".

(** [s.split(',')] for a separator of one character. *)
Fixpoint split_on (sep : Ascii.ascii) (s : string) : list string :=
  match s with
  | EmptyString => [""]
  | String c rest =>
      if Ascii.eqb c sep then "" :: split_on sep rest
      else match split_on sep rest with
           | piece :: pieces => String c piece :: pieces
           | [] => [String c ""]
           end
  end.

(** What [handleRecommend] reads from the query: the strings
    [searchParams.get] returns, absent when it returns null, and for 人数
    and 时间 what [parseInt] makes of them, absent when that is NaN. *)
Module Query.
Record t : Type := mk {
  人数 : option Z;
  季节 : option string;
  口味 : option string;
  需求 : option string;
  时间 : option Z;
  难度 : option string
}.
End Query.

(** [x || d] on a number that may be NaN. *)
Definition Z_or (x : option Z) (d : Z) : Z :=
  match x with
  | Some z => if (z =? 0)%Z then d else z
  | None => d
  end.

(** [x || d] on a string that may be null. *)
Definition string_or (x : option string) (d : string) : string :=
  match x with
  | Some s => if String.eqb s "" then d else s
  | None => d
  end.

(** [x ? x.split(',') : []] *)
Definition split_or_empty (x : option string) : list string :=
  match x with
  | Some s => if String.eqb s "" then [] else split_on ","%char s
  | None => []
  end.

(** The [params] object of [handleRecommend]. *)
Definition build_params (query : Query.t) (month : Z) : Params.t :=
  Params.mk
    (Z_or (Query.人数 query) 6)
    (string_or (Query.季节 query) (getCurrentSeason month))
    (split_or_empty (Query.口味 query))
    (split_or_empty (Query.需求 query))
    (Some (Z_or (Query.时间 query) 120))
    (string_or (Query.难度 query) "不限").

(** The guard 验证参数 of [handleRecommend]: the condition under which the
    handler answers 400. *)
Definition people_rejected (params : Params.t) : bool :=
  (Params.用餐人数 params <? 1)%Z || (20 <? Params.用餐人数 params)%Z.

(** ** getCookingTips *)

(** [(recipe.准备时间 || 0) + (recipe.烹饪时间 || 0)] *)
Definition recipe_minutes (recipe : Recipe.t) : Z :=
  (default 0 (Recipe.准备时间 recipe) + default 0 (Recipe.烹饪时间 recipe))%Z.

(** The [reduce] over [Object.values(menu).flat()]. *)
Definition total_minutes (menu : Menu) : Z :=
  fold_left (fun total recipe => (total + recipe_minutes recipe)%Z)
            (all_recipes menu) 0%Z.

Definition getCookingTips (menu : Menu) (params : Params.t) : list string :=
  let season_tip :=
    if String.eqb (Params.季节 params) "春季"
    then ["春季食材鲜嫩，建议减少烹饪时间以保留原味"]
    else if String.eqb (Params.季节 params) "夏季"
    then ["夏季炎热，建议多采用凉拌、清蒸等清爽做法"]
    else if String.eqb (Params.季节 params) "秋季"
    then ["秋季干燥，建议多补充水分，适当增加汤品"]
    else if String.eqb (Params.季节 params) "冬季"
    then ["冬季寒冷，建议增加温热滋补的菜品"]
    else [] in
  let people_tip :=
    if (8 <=? Params.用餐人数 params)%Z
    then ["用餐人数较多，建议提前准备，合理安排烹饪顺序"] else [] in
  let time_tip :=
    if (120 <? total_minutes menu)%Z
    then ["总烹饪时间较长，建议提前规划，可分阶段准备"] else [] in
  (season_tip ++ people_tip ++ time_tip)%list.

(** ** validateRecipe *)

(** The remainder of [s] after the white space and line terminators at its
    start, as [trim] removes them; [s] is UTF-8. *)
Fixpoint skip_space (s : string) : string :=
  match s with
  | String "009" r | String "010" r | String "011" r | String "012" r
  | String "013" r | String " " r => skip_space r
  | String "194" (String "160" r) => skip_space r
  | String "225" (String "154" (String "128" r)) => skip_space r
  | String "226" (String "128" (String c r)) =>
      let n := nat_of_ascii c in
      if (128 <=? n)%nat && (n <=? 138)%nat
         || (n =? 168)%nat || (n =? 169)%nat || (n =? 175)%nat
      then skip_space r else s
  | String "226" (String "129" (String "159" r)) => skip_space r
  | String "227" (String "128" (String "128" r)) => skip_space r
  | String "239" (String "187" (String "191" r)) => skip_space r
  | _ => s
  end.

(** [s.trim() === ''] *)
Definition trims_to_empty (s : string) : bool :=
  String.eqb (skip_space s) "".

Module Validation.
Record t : Type := mk {
  有效 : bool;
  错误信息 : list string
}.
End Validation.

(** What [request.json()] hands to [validateRecipe]: any JSON value.  A
    number is a finite double, given by its exact value. *)
#[warnings="-register-all"]
Inductive json : Type :=
  | JNull
  | JBool (b : bool)
  | JNumber (q : Q)
  | JString (s : string)
  | JArray (elements : list json)
  | JObject (members : list (string * json)).

(** The member of an object under a name, the last one when the text gives
    the name more than once. *)
Fixpoint lookup_member (name : string) (members : list (string * json))
  : option json :=
  match members with
  | [] => None
  | (key, value) :: rest =>
      match lookup_member name rest with
      | Some later => Some later
      | None => if String.eqb key name then Some value else None
      end
  end.

(** [v.name] for a value [v] that is not [null] and a name that no
    prototype defines: [undefined], here [None], unless [v] is an object
    with such a member. *)
Definition member (name : string) (v : json) : option json :=
  match v with
  | JObject members => lookup_member name members
  | _ => None
  end.

Definition is_null (v : json) : bool :=
  match v with
  | JNull => true
  | _ => false
  end.

(** ToBoolean of a value that may be [undefined]. *)
Definition truthy (x : option json) : bool :=
  match x with
  | None | Some JNull => false
  | Some (JBool b) => b
  | Some (JNumber q) => negb (Qeq_bool q 0)
  | Some (JString s) => negb (String.eqb s "")
  | Some (JArray _) | Some (JObject _) => true
  end.

Section ValidateRecipe.
(** ToNumber of a string, an array or an object is the engine's: its
    grammar of numeric literals, applied to the string or to what
    [toString] makes of the array or object. *)
Context (coerce : json -> number).

Definition ToNumber_json (v : json) : number :=
  match v with
  | JNull => Fin 0
  | JBool b => if b then Fin 1 else Fin 0
  | JNumber q => Fin q
  | JString _ | JArray _ | JObject _ => coerce v
  end.

(** [!name || name.trim() === ''].  A truthy value that is no string has no
    [trim], and the call throws: [None]. *)
Definition name_blank (x : option json) : option bool :=
  if truthy x
  then match x with
       | Some (JString s) => Some (trims_to_empty s)
       | _ => None
       end
  else Some true.

(** [!x || !Array.isArray(x) || x.length === 0] *)
Definition missing_or_empty (x : option json) : bool :=
  match x with
  | Some (JArray (_ :: _)) => false
  | _ => true
  end.

(** [x && (x < 0 || x > high)] *)
Definition out_of_range (x : option json) (high : Q) : bool :=
  match x with
  | Some v =>
      truthy x
      && (num_lt (ToNumber_json v) (Fin 0)
          || num_gt (ToNumber_json v) (Fin high))
  | None => false
  end.

(** [!x || x < 1] on 基准人数. *)
Definition base_invalid (x : option json) : bool :=
  match x with
  | Some v => negb (truthy x) || num_lt (ToNumber_json v) (Fin 1)
  | None => true
  end.

(** [x && !Array.isArray(x)] on 食材列表. *)
Definition not_a_list (x : option json) : bool :=
  match x with
  | Some (JArray _) => false
  | _ => truthy x
  end.

(** The block 检查份量信息: what [if (recipe.标准份量) { ... }] pushes. *)
Definition portion_errors (x : option json) : list string :=
  match x with
  | Some portion =>
      if truthy x
      then
        ((if base_invalid (member "基准人数" portion)
          then ["基准人数应大于0"] else [])
         ++ (if not_a_list (member "食材列表" portion)
             then ["食材列表格式错误"] else []))%list
      else []
  | None => []
  end.

(** [validateRecipe(recipe)]; [None] is a TypeError: reading a property of
    [null], or calling [trim] on a name that has none. *)
Definition validateRecipe (recipe : json) : option Validation.t :=
  if is_null recipe then None
  else
    match name_blank (member "菜品名称" recipe) with
    | None => None
    | Some blank =>
        let e1 := if blank then ["菜品名称不能为空"] else [] in
        let e2 :=
          if missing_or_empty (member "菜品分类" recipe)
          then ["菜品分类不能为空"] else [] in
        let e3 :=
          if missing_or_empty (member "适用季节" recipe)
          then ["适用季节不能为空"] else [] in
        let e4 :=
          if out_of_range (member "准备时间" recipe) 300
          then ["准备时间应在0-300分钟之间"] else [] in
        let e5 :=
          if out_of_range (member "烹饪时间" recipe) 480
          then ["烹饪时间应在0-480分钟之间"] else [] in
        let e6 := portion_errors (member "标准份量" recipe) in
        let errors := (e1 ++ e2 ++ e3 ++ e4 ++ e5 ++ e6)%list in
        Some (Validation.mk (length errors =? 0)%nat errors)
    end.
End ValidateRecipe.

(** *** The recipes of the catalog as JSON *)

(** A member that is present or not. *)
Definition optional (name : string) (value : option json)
  : list (string * json) :=
  match value with
  | Some v => [(name, v)]
  | None => []
  end.

Definition strings_json (l : list string) : json := JArray (map JString l).

Definition ingredient_members (i : Ingredient.t) : list (string * json) :=
  ([("食材名称", JString (Ingredient.食材名称 i));
    ("用量", JNumber (Ingredient.用量 i))]
   ++ optional "单位" (JString <$> Ingredient.单位 i))%list.

Definition seasoning_json (s : Seasoning.t) : json :=
  JObject ([("名称", JString (Seasoning.名称 s));
            ("用量", JNumber (Seasoning.用量 s))]
           ++ optional "单位" (JString <$> Seasoning.单位 s))%list.

(** A scaled quantity as [JSON.stringify] writes it. *)
Definition nullable_json (v : nullable) : json :=
  match v with
  | Num (Fin q) => JNumber q
  | _ => JNull
  end.

Definition adjusted_json (a : Adjusted.t) : json :=
  JObject (ingredient_members (Adjusted.ingredient a)
           ++ [("调整用量", nullable_json (Adjusted.调整用量 a))])%list.

Definition portion_json (p : Portion) : json :=
  JObject (optional "基准人数" (JNumber <$> 基准人数 p)
           ++ optional "食材列表"
                ((fun l => JArray (map (fun i => JObject (ingredient_members i)) l))
                   <$> 食材列表 p)
           ++ optional "调味料"
                ((fun l => JArray (map seasoning_json l)) <$> 调味料 p))%list.

Definition nutrients_json (n : Nutrients (option Q)) : json :=
  JObject (optional "热量" (JNumber <$> 热量 n)
           ++ optional "蛋白质" (JNumber <$> 蛋白质 n)
           ++ optional "碳水化合物" (JNumber <$> 碳水化合物 n)
           ++ optional "脂肪" (JNumber <$> 脂肪 n)
           ++ optional "纤维素" (JNumber <$> 纤维素 n))%list.

Definition to_json (r : Recipe.t) : json :=
  JObject ([("菜品标识", JString (Recipe.菜品标识 r));
            ("菜品名称", JString (Recipe.菜品名称 r))]
           ++ optional "菜品分类" (strings_json <$> Recipe.菜品分类 r)
           ++ optional "适用季节" (strings_json <$> Recipe.适用季节 r)
           ++ optional "难度等级" (JString <$> Recipe.难度等级 r)
           ++ optional "准备时间"
                ((fun z => JNumber (inject_Z z)) <$> Recipe.准备时间 r)
           ++ optional "烹饪时间"
                ((fun z => JNumber (inject_Z z)) <$> Recipe.烹饪时间 r)
           ++ optional "菜品标签" (strings_json <$> Recipe.菜品标签 r)
           ++ optional "标准份量" (portion_json <$> Recipe.标准份量 r)
           ++ optional "营养成分" (nutrients_json <$> Recipe.营养成分 r)
           ++ optional "调整后食材"
                ((fun l => JArray (map adjusted_json l))
                   <$> Recipe.调整后食材 r))%list.

(** ** handleRecipes *)

(** A catalog recipe with the further property [handleRecipes] reads. *)
Module Described.
Record t : Type := mk {
  recipe : Recipe.t;
  菜品描述 : option string
}.
End Described.

(** What [handleRecipes] reads from the query, as for [handleRecommend]. *)
Module RecipesQuery.
Record t : Type := mk {
  分类 : option string;
  季节 : option string;
  关键词 : option string;
  页码 : option Z;
  每页数量 : option Z
}.

(** The same query for another page. *)
Definition with_页码 (q : t) (page : Z) : t :=
  mk (分类 q) (季节 q) (关键词 q) (Some page) (每页数量 q).
End RecipesQuery.

(** [if (x) { list = list.filter(keep x) }] on a string that may be null. *)
Definition filter_if {A : Type} (x : option string)
    (keep : string -> A -> bool) (l : list A) : list A :=
  match x with
  | Some s => if String.eqb s "" then l else List.filter (keep s) l
  | None => l
  end.

(** [recipe.适用季节 && recipe.适用季节.includes(s)] *)
Definition in_season (s : string) (r : Recipe.t) : bool :=
  match Recipe.适用季节 r with
  | Some seasons => includes seasons s
  | None => false
  end.

(** [recipe.菜品名称 && recipe.菜品名称.includes(k) ||
     recipe.菜品描述 && recipe.菜品描述.includes(k)] *)
Definition mentions (k : string) (d : Described.t) : bool :=
  negb (String.eqb (Recipe.菜品名称 (Described.recipe d)) "")
  && str_includes (Recipe.菜品名称 (Described.recipe d)) k
  || match Described.菜品描述 d with
     | Some text => negb (String.eqb text "") && str_includes text k
     | None => false
     end.

(** The three optional filters of [handleRecipes]. *)
Definition query_matches (recipes : list Described.t) (q : RecipesQuery.t)
  : list Described.t :=
  let by_category :=
    filter_if (RecipesQuery.分类 q)
      (fun c d => in_category c (Described.recipe d)) recipes in
  let by_season :=
    filter_if (RecipesQuery.季节 q)
      (fun s d => in_season s (Described.recipe d)) by_category in
  filter_if (RecipesQuery.关键词 q) mentions by_season.

(** [Array.prototype.slice(start, end)] with integer arguments: a negative
    index counts from the end, and both are clamped to the array. *)
Definition slice_index (len i : Z) : Z :=
  if (i <? 0)%Z then Z.max (len + i) 0 else Z.min i len.

Definition JS_slice {A : Type} (l : list A) (start finish : Z) : list A :=
  let len := Z.of_nat (length l) in
  let k := slice_index len start in
  let final := slice_index len finish in
  take (Z.to_nat (final - k)) (drop (Z.to_nat k) l).

(** [Math.ceil(a / b)] for integers [a] and [b], [b] not 0. *)
Definition ceil_div (a b : Z) : Z := Qceiling (inject_Z a / inject_Z b).

Module Page.
Record t : Type := mk {
  数据 : list Described.t;
  页码 : Z;
  每页数量 : Z;
  总数量 : Z;
  总页数 : Z
}.
End Page.

(** The body of the response of [handleRecipes]. *)
Definition handleRecipes (recipes : list Described.t) (q : RecipesQuery.t)
  : Page.t :=
  let 页码 := Z_or (RecipesQuery.页码 q) 1 in
  let 每页数量 := Z_or (RecipesQuery.每页数量 q) 20 in
  let filteredRecipes := query_matches recipes q in
  let 总数量 := Z.of_nat (length filteredRecipes) in
  let 总页数 := ceil_div 总数量 每页数量 in
  let 开始索引 := ((页码 - 1) * 每页数量)%Z in
  let 结束索引 := (开始索引 + 每页数量)%Z in
  Page.mk (JS_slice filteredRecipes 开始索引 结束索引) 页码 每页数量 总数量 总页数.

(** ** Vocabulary of the statements *)

(** [s] is [x] rounded to a multiple of [1 / scale], a tie going up. *)
Definition rounds_half_up (scale : Z) (x s : Q) : Prop :=
  exists k : Z,
    (s == inject_Z k / inject_Z scale
     /\ inject_Z k - (1 # 2) <= x * inject_Z scale
     /\ x * inject_Z scale < inject_Z k + (1 # 2))%Q.

(** [d] is a double, and no double is nearer to [x]. *)
Definition nearest_double (x d : Q) : Prop :=
  is_double d
  /\ forall d', is_double d' -> (Qabs (d - x) <= Qabs (d' - x))%Q.

(** [k] is the integer nearest to [y], a tie going up. *)
Definition nearest_integer (y : Q) (k : Z) : Prop :=
  (inject_Z k - (1 # 2) <= y /\ y < inject_Z k + (1 # 2))%Q.

(** [s] is within [tolerance] of [exact], up to a relative error of
    [2 ^ -50]. *)
Definition close_to (tolerance exact s : Q) : Prop :=
  (Qabs (s - exact)
   <= tolerance + (1 + Qabs exact) * (1 # 1125899906842624))%Q.

(** [s] is what [Math.round(q * (p / b) * 10) / 10] comes to, operation by
    operation: the quotient, the two products and the last quotient each
    give a double nearest to the exact result, and [Math.round] the nearest
    integer. *)
Definition scaled_in_doubles (q p b s : Q) : Prop :=
  exists (ratio z y : Q) (k : Z),
    nearest_double (p / b) ratio
    /\ nearest_double (q * ratio) z
    /\ nearest_double (z * 10) y
    /\ nearest_integer y k
    /\ nearest_double (inject_Z k / 10) s.

(** [k] is what [Math.round((t / ref) * 100)] comes to, operation by
    operation. *)
Definition percent_in_doubles (t ref : Q) (k : Z) : Prop :=
  exists ratio y : Q,
    nearest_double (t / ref) ratio
    /\ nearest_double (ratio * 100) y
    /\ nearest_integer y k.

(** [pct] is the percentage of [total] against [ref]: for a total of at
    most [2 ^ 1000] in magnitude the integer computed in doubles, which is
    within a half of the exact percentage up to the relative error; a total
    that is not finite stays as it is. *)
Definition percent_of (total : number) (ref : Q) (pct : number) : Prop :=
  match total with
  | Fin t =>
      (2 ^ 1000 < Qabs t)%Q
      \/ exists k : Z,
           pct = Fin (inject_Z k)
           /\ percent_in_doubles t ref k
           /\ close_to (1 # 2) (t / ref * 100) (inject_Z k)
  | other => pct = other
  end.

(** [s] is what [Math.round(x * 100) / 100] comes to, operation by
    operation, for [x] of at most [2 ^ 1000] in magnitude; a value that is
    not finite stays as it is. *)
Definition in_two_decimals (x s : number) : Prop :=
  match x with
  | Fin v =>
      (2 ^ 1000 < Qabs v)%Q
      \/ exists (y d : Q) (k : Z),
           nearest_double (v * 100) y
           /\ nearest_integer y k
           /\ nearest_double (inject_Z k / 100) d
           /\ s = Fin d
  | other => s = other
  end.

(** The same as a function: [x] times 100 in doubles, to the nearest
    integer, over 100 in doubles. *)
Definition two_decimals (x : number) : number :=
  match x with
  | Fin v =>
      match Number_value (v * 100) with
      | Fin y => Number_value (inject_Z (Qfloor (y + (1 # 2))) / 100)
      | other => other
      end
  | other => other
  end.

(** The name of a scaled ingredient. *)
Definition name_of (a : Adjusted.t) : string :=
  Ingredient.食材名称 (Adjusted.ingredient a).

(** The distinct ingredient names of a menu's scaled ingredients. *)
Definition distinct_names (menu : Menu) : list string :=
  remove_dups (map name_of (scaled_ingredients menu)).

(** The scaled quantities recorded under [name], added up in the order of
    the menu. *)
Definition quantity_sum (name : string) (ingredients : list Adjusted.t)
  : number :=
  fold_left num_add
    (map (fun a => ToNumber (Adjusted.调整用量 a))
         (List.filter (fun a => String.eqb (name_of a) name) ingredients))
    (Fin 0).

(** The ingredient in which [name] occurs first. *)
Definition first_occurrence (name : string) (ingredients : list Adjusted.t)
  : option Ingredient.t :=
  Adjusted.ingredient
    <$> List.find (fun a => String.eqb (name_of a) name) ingredients.

(** All entries of a shopping list, over its categories. *)
Definition listed (sl : ShoppingList.t) : list Entry.t :=
  concat (map snd (ShoppingList.清单 sl)).

(** The unit listed for [name]: that of its first occurrence, 适量 standing
    in for a unit that is missing or empty. *)
Definition listed_unit (name : string) (ingredients : list Adjusted.t)
  : string :=
  match first_occurrence name ingredients with
  | Some i =>
      match Ingredient.单位 i with
      | Some EmptyString | None => "适量"
      | Some unit => unit
      end
  | None => "适量"
  end.

(** What [items] holds under [name] once every ingredient is merged. *)
Definition item_for (ingredients : list Adjusted.t) (name : string) : Item.t :=
  Item.mk (quantity_sum name ingredients) (listed_unit name ingredients)
    (categorizeIngredient name).

(** The entry listed for [name]. *)
Definition expected_entry (ingredients : list Adjusted.t) (name : string)
  : Entry.t :=
  Entry.mk name (two_decimals (quantity_sum name ingredients))
    (listed_unit name ingredients) false.

(** No ingredient is named like a property inherited from
    [Object.prototype]. *)
Definition own_names (ingredients : list Adjusted.t) : Prop :=
  Forall (fun a => inherited (name_of a) = false) ingredients.

Definition matches (k : string) (a : Adjusted.t) : bool :=
  String.eqb (name_of a) k.

Definition in_group {A : Type} (key : A -> string) (c : string) (x : A)
  : bool :=
  String.eqb (key x) c.

(** [sel] is drawn from [l] without replacement, up to [n] of them: it has
    [min (length l) n] elements, standing at pairwise distinct positions of
    [l]. *)
Definition drawn (l : list Recipe.t) (n : nat) (sel : list Recipe.t) : Prop :=
  length sel = Nat.min (length l) n
  /\ exists positions : list nat,
       NoDup positions /\ Forall2 (fun i r => l !! i = Some r) positions sel.

(** The recipe carries the category tag in its 菜品分类. *)
Definition carries (category : string) (recipe : Recipe.t) : Prop :=
  exists tags, Recipe.菜品分类 recipe = Some tags /\ In category tags.

(** No recipe of the list carries the category tag. *)
Definition has_none (category : string) (recipes : list Recipe.t) : Prop :=
  forall recipe, In recipe recipes -> ~ carries category recipe.

(** The three tests [filterRecipes] makes, as conditions on a recipe. *)
Definition season_passes (params : Params.t) (recipe : Recipe.t) : Prop :=
  Params.季节 params = "不限"
  \/ Recipe.适用季节 recipe = None
  \/ exists seasons, Recipe.适用季节 recipe = Some seasons
                     /\ In (Params.季节 params) seasons.

Definition difficulty_ok (params : Params.t) (recipe : Recipe.t) : Prop :=
  Params.难度等级 params = "不限"
  \/ Recipe.难度等级 recipe = None
  \/ Recipe.难度等级 recipe = Some ""
  \/ Recipe.难度等级 recipe = Some (Params.难度等级 params).

Definition time_ok (params : Params.t) (recipe : Recipe.t) : Prop :=
  Params.烹饪时间 params = None \/ Params.烹饪时间 params = Some 0%Z
  \/ Recipe.烹饪时间 recipe = None \/ Recipe.烹饪时间 recipe = Some 0%Z
  \/ exists c m, Recipe.烹饪时间 recipe = Some c
                 /\ Params.烹饪时间 params = Some m /\ (c <= m)%Z.

(** Season match in the words of the contract: the request asks for no
    season, or the recipe's season list is absent or empty, or it contains
    the requested season. *)
Definition season_ok (params : Params.t) (recipe : Recipe.t) : Prop :=
  Params.季节 params = "不限"
  \/ Recipe.适用季节 recipe = None
  \/ Recipe.适用季节 recipe = Some []
  \/ exists seasons, Recipe.适用季节 recipe = Some seasons
                     /\ In (Params.季节 params) seasons.

(** No tag of the recipe is among the request's exclusions. *)
Definition exclusions_ok (params : Params.t) (recipe : Recipe.t) : Prop :=
  forall tag,
    In tag (default [] (Recipe.菜品标签 recipe)) ->
    ~ In tag (Params.特殊需求 params).

(** The entries of a portion the scaling law speaks of: ingredients, then
    seasonings, each with its name and authored quantity. *)
Definition portion_entries (portion : Portion) : list (string * Q) :=
  (map (fun i => (Ingredient.食材名称 i, Ingredient.用量 i))
       (default [] (食材列表 portion))
   ++ map (fun s => (Seasoning.名称 s, Seasoning.用量 s))
          (default [] (调味料 portion)))%list.

(** The scaling law as the specification words it, for one recipe: every
    ingredient and seasoning entry has a scaled quantity attached to the
    derived recipe, the double of the authored one times people over base
    rounded half up to one decimal. *)
Definition scaling_law_as_specified (people : Z) (recipe : Recipe.t) : Prop :=
  forall portion b,
    Recipe.标准份量 recipe = Some portion ->
    基准人数 portion = Some b ->
    (1 <= b)%Q ->
    forall name q,
      In (name, q) (portion_entries portion) ->
      (0 <= q)%Q ->
      exists a s r,
        In a (default [] (Recipe.调整后食材 (adjust_recipe people recipe)))
        /\ name_of a = name
        /\ Adjusted.调整用量 a = Num (Fin s)
        /\ rounds_half_up 10 (q * inject_Z people / b) r
        /\ nearest_double r s.

(** The percentage law as the specification words it, for one nutrient:
    the integer nearest to the total over the reference times 100, a tie
    going up. *)
Definition percentage_as_specified (total : number) (ref : Q) (pct : number)
  : Prop :=
  forall t,
    total = Fin t ->
    exists p, pct = Fin p /\ rounds_half_up 1 (t / ref * 100) p.

(** The band of one nutrient as the specification words it: the total over
    the reference against the two bounds. *)
Definition band_as_specified (total : number) (ref low high : Q)
    (mid label : string) : Prop :=
  forall t,
    total = Fin t ->
    ((t / ref < low)%Q /\ label = "偏低")
    \/ ((high < t / ref)%Q /\ label = "偏高")
    \/ ((low <= t / ref)%Q /\ (t / ref <= high)%Q /\ label = mid).

(** [sl] with another generation time. *)
Definition with_生成时间 (sl : ShoppingList.t) (now : string) : ShoppingList.t :=
  ShoppingList.mk (ShoppingList.清单 sl) (ShoppingList.统计 sl) now
    (ShoppingList.用餐人数 sl) (ShoppingList.提示 sl).

(** [{ ...recipe, 标准份量: p }] *)
Definition with_标准份量 (r : Recipe.t) (p : option Portion) : Recipe.t :=
  Recipe.mk (Recipe.菜品标识 r) (Recipe.菜品名称 r) (Recipe.菜品分类 r)
    (Recipe.适用季节 r) (Recipe.难度等级 r) (Recipe.准备时间 r)
    (Recipe.烹饪时间 r) (Recipe.菜品标签 r) p
    (Recipe.营养成分 r) (Recipe.调整后食材 r).

(** The ordinal of a difficulty level: 初级 < 中级 < 高级. *)
Definition difficulty_rank (d : string) : option nat :=
  if String.eqb d "初级" then Some 0%nat
  else if String.eqb d "中级" then Some 1%nat
  else if String.eqb d "高级" then Some 2%nat
  else None.

(** The four predicates of the filter contract as the specification words
    them: season match, difficulty at most the ceiling, preparation plus
    cooking time within the budget, no excluded tag. *)
Definition spec_eligible (params : Params.t) (recipe : Recipe.t) : bool :=
  let season_ok :=
    String.eqb (Params.季节 params) "不限"
    || match Recipe.适用季节 recipe with
       | None | Some [] => true
       | Some seasons => includes seasons (Params.季节 params)
       end in
  let difficulty_ok :=
    match difficulty_rank (Params.难度等级 params),
          Recipe.难度等级 recipe ≫= difficulty_rank with
    | Some ceiling, Some d => (d <=? ceiling)%nat
    | _, _ => true
    end in
  let time_ok :=
    match Params.烹饪时间 params with
    | Some budget =>
        (default 0 (Recipe.准备时间 recipe) + default 0 (Recipe.烹饪时间 recipe)
         <=? budget)%Z
    | None => true
    end in
  let tags_ok :=
    negb (existsb (includes (Params.特殊需求 params))
                  (default [] (Recipe.菜品标签 recipe))) in
  season_ok && difficulty_ok && time_ok && tags_ok.

Definition spec_filter (recipes : list Recipe.t) (params : Params.t)
  : list Recipe.t :=
  List.filter (spec_eligible params) recipes.

(** The selection targets as the specification tabulates them. *)
Definition spec_target (category : string) (partySize : Z) : nat :=
  if String.eqb category "主菜" then
    if (8 <=? partySize)%Z then 2 else 1
  else if String.eqb category "配菜" then
    if (partySize <=? 4)%Z then 1
    else if (5 <=? partySize)%Z && (partySize <=? 8)%Z then 2
    else 3
  else 1.

(** A number written with at most one decimal, of at most [2 ^ 50]
    tenths: the double of [k / 10]. *)
Definition one_decimal (q : Q) : Prop :=
  exists k : Z,
    (Z.abs k <= 2 ^ 50)%Z
    /\ exists d, Number_value (inject_Z k / 10) = Fin d /\ (q == d)%Q.

(** A recipe has no usable base serving count: its 标准份量 lacks 基准人数 or
    gives 0. *)
Definition base_missing_or_zero (recipe : Recipe.t) : bool :=
  match Recipe.标准份量 recipe with
  | Some portion =>
      match 基准人数 portion with
      | Some b => (Qsgn b =? 0)%Z
      | None => true
      end
  | None => true
  end.

(** How [adjustServings] hands a selected recipe on: as it is when it has no
    标准份量, otherwise as it is or with a list 调整后食材 set on it. *)
Definition kept_as (recipe result : Recipe.t) : Prop :=
  match Recipe.标准份量 recipe with
  | None => result = recipe
  | Some _ =>
      result = recipe \/ exists scaled, result = set_调整后食材 recipe scaled
  end.

(** [ratio] is [total] over [ref] in doubles: a double nearest to the exact
    quotient; a total that is not finite stays as it is. *)
Definition ratio_in_doubles (total : number) (ref : Q) (ratio : number)
  : Prop :=
  match total with
  | Fin t => exists d, ratio = Fin d /\ nearest_double (t / ref) d
  | other => ratio = other
  end.

(** A number is within the range of the doubles, or not finite. *)
Definition in_range (n : number) : Prop :=
  match n with
  | Fin d => (Qabs d <= 2 ^ 1024)%Q
  | _ => True
  end.

Definition totals_in_range (total : Nutrients number) : Prop :=
  in_range (热量 total) /\ in_range (蛋白质 total)
  /\ in_range (碳水化合物 total) /\ in_range (脂肪 total)
  /\ in_range (纤维素 total).

(** The doubles written 0.7, 0.8, 1.2 and 1.3. *)
Definition double_0_7 : Q := 3152519739159347 # 4503599627370496.
Definition double_0_8 : Q := 3602879701896397 # 4503599627370496.
Definition double_1_2 : Q := 5404319552844595 # 4503599627370496.
Definition double_1_3 : Q := 5854679515581645 # 4503599627370496.

(** A ratio is below, or above, a bound; neither holds of NaN. *)
Definition below (ratio : number) (bound : Q) : Prop :=
  match ratio with
  | Fin r => (r < bound)%Q
  | NegInf => True
  | PosInf | NaN => False
  end.

Definition above (ratio : number) (bound : Q) : Prop :=
  match ratio with
  | Fin r => (bound < r)%Q
  | PosInf => True
  | NegInf | NaN => False
  end.

(** [label] is the band of [ratio]: 偏低 below [low], 偏高 above [high],
    [mid] otherwise. *)
Definition classified (ratio : number) (low high : Q) (mid label : string)
  : Prop :=
  (below ratio low /\ label = "偏低")
  \/ (~ below ratio low /\ above ratio high /\ label = "偏高")
  \/ (~ below ratio low /\ ~ above ratio high /\ label = mid).

(** How many of [values] are [label]. *)
Definition how_many (label : string) (values : list string) : nat :=
  length (filter (fun value => value = label) values).

(** [overall] is the verdict for the three band labels. *)
Definition verdict (calories protein fat overall : string) : Prop :=
  let L := how_many "偏低" [calories; protein; fat] in
  let H := how_many "偏高" [calories; protein; fat] in
  (2 < L /\ overall = "营养不足")
  \/ (L <= 2 /\ 2 < H /\ overall = "营养过剩")
  \/ (L <= 2 /\ H <= 2 /\ protein = "充足" /\ fat = "适中"
      /\ overall = "营养均衡")
  \/ (L <= 2 /\ H <= 2 /\ ~ (protein = "充足" /\ fat = "适中")
      /\ overall = "基本均衡").

(** Two requests agree on what [filterRecipes] and the selectors read. *)
Definition same_constraints (p p' : Params.t) : Prop :=
  Params.用餐人数 p = Params.用餐人数 p'
  /\ Params.季节 p = Params.季节 p'
  /\ Params.烹饪时间 p = Params.烹饪时间 p'
  /\ Params.难度等级 p = Params.难度等级 p'.

(** The season tips by month: spring from March to May, summer from June
    to August, autumn from September to November, winter otherwise. *)
Definition tip_of_month (month : Z) : string :=
  if decide (3 <= month <= 5)%Z
  then "春季食材鲜嫩，建议减少烹饪时间以保留原味"
  else if decide (6 <= month <= 8)%Z
  then "夏季炎热，建议多采用凉拌、清蒸等清爽做法"
  else if decide (9 <= month <= 11)%Z
  then "秋季干燥，建议多补充水分，适当增加汤品"
  else "冬季寒冷，建议增加温热滋补的菜品".

(** [keyword] is a substring of [name]. *)
Definition occurs (keyword name : string) : Prop :=
  exists before after, name = before ++ keyword ++ after.

(** One of the keywords of a category's table is a substring of [name]. *)
Definition table_hits (keywords : list string) (name : string) : Prop :=
  exists keyword, In keyword keywords /\ occurs keyword name.

(** What holds of every own property [k] of the [items] object: it is not
    an inherited name, it carries the category of its name, and it is one
    of [names]. *)
Definition stored_under (names : list string) (k : string) (v : Item.t)
  : Prop :=
  inherited k = false /\ Item.分类 v = categorizeIngredient k /\ In k names.

(** The sum of the counts of 分类统计. *)
Definition sum_counts (stats : list (string * nat)) : nat :=
  foldr (fun p acc => p.2 + acc) 0 stats.

(** A value is falsy: [undefined], [null], [false], 0 or the empty
    string. *)
Definition falsy (x : option json) : Prop :=
  x = None \/ x = Some JNull \/ x = Some (JBool false)
  \/ (exists q, x = Some (JNumber q) /\ (q == 0)%Q)
  \/ x = Some (JString "").

(** A value is an array with at least one element. *)
Definition nonempty_array (x : option json) : Prop :=
  exists first rest, x = Some (JArray (first :: rest)).

(** A name is a string that is not blank. *)
Definition name_ok (x : option json) : Prop :=
  exists s, x = Some (JString s) /\ skip_space s <> "".

Section Accepted.
Context (coerce : json -> number).

(** A time is falsy or, as a number, neither below 0 nor above [high]. *)
Definition minutes_ok (x : option json) (high : Q) : Prop :=
  falsy x
  \/ exists v, x = Some v
               /\ ~ below (ToNumber_json coerce v) 0
               /\ ~ above (ToNumber_json coerce v) high.

(** A portion is falsy, or its 基准人数 is truthy and, as a number, not below
    1, and its 食材列表 is falsy or an array. *)
Definition portion_ok (x : option json) : Prop :=
  falsy x
  \/ exists portion,
       x = Some portion
       /\ (exists b, member "基准人数" portion = Some b
                     /\ ~ falsy (Some b)
                     /\ ~ below (ToNumber_json coerce b) 1)
       /\ (falsy (member "食材列表" portion)
           \/ exists l, member "食材列表" portion = Some (JArray l)).
End Accepted.

(** [validateRecipe] throws: the recipe is [null], or its 菜品名称 is truthy
    and no string. *)
Definition throws (recipe : json) : Prop :=
  recipe = JNull
  \/ (~ falsy (member "菜品名称" recipe)
      /\ forall s, member "菜品名称" recipe <> Some (JString s)).

(** A query parameter is absent or empty, or [test] holds of it. *)
Definition wanted (x : option string) (test : string -> Prop) : Prop :=
  match x with
  | Some s => s = "" \/ test s
  | None => True
  end.

(** ** Sample data *)

(** The two recipes of [sampleRecipes] in [fetchRecipesFromGitHub]. *)
Definition SPRING001 : Recipe.t :=
  Recipe.mk "SPRING001" "春笋炒肉片" (Some ["主菜"; "时令菜"]) (Some ["春季"])
    (Some "初级") (Some 15%Z) (Some 10%Z) None
    (Some (mkPortion (Some 6%Q)
             (Some [Ingredient.mk "春笋" 500 (Some "克");
                    Ingredient.mk "猪里脊肉" 300 (Some "克")])
             None))
    None None.

Definition SUMMER001 : Recipe.t :=
  Recipe.mk "SUMMER001" "凉拌黄瓜" (Some ["配菜"; "凉菜"]) (Some ["夏季"])
    (Some "初级") (Some 10%Z) (Some 0%Z) None None None None.

(** The request [handleRecommend] builds from a query without parameters,
    in spring. *)
Definition spring_request : Params.t :=
  Params.mk 6 "春季" [] [] (Some 120%Z) "不限".

(** SPRING001 with a seasoning list. *)
Definition SPRING001_seasoned : Recipe.t :=
  with_标准份量 SPRING001
    (Some (mkPortion (Some 6%Q)
             (Some [Ingredient.mk "春笋" 500 (Some "克");
                    Ingredient.mk "猪里脊肉" 300 (Some "克")])
             (Some [Seasoning.mk "盐" 5 (Some "克")]))).

(** A request with a ceiling, a time budget and an exclusion, and four
    recipes, one for each test of the contract. *)
Definition capped_request : Params.t :=
  Params.mk 6 "春季" [] ["辣"] (Some 120%Z) "中级".

Definition spicy_dish : Recipe.t :=
  Recipe.mk "T001" "麻辣豆腐" (Some ["主菜"]) (Some ["春季"]) (Some "中级")
    (Some 10%Z) (Some 10%Z) (Some ["辣"]) None None None.

Definition slow_dish : Recipe.t :=
  Recipe.mk "T002" "红烧肉" (Some ["主菜"]) (Some ["春季"]) (Some "中级")
    (Some 100%Z) (Some 30%Z) None None None None.

Definition seasonless_dish : Recipe.t :=
  Recipe.mk "T003" "白米饭" (Some ["主食"]) (Some []) (Some "中级")
    (Some 5%Z) (Some 20%Z) None None None None.

(** A recipe of the highest level and a request for the lowest. *)
Definition advanced_dish : Recipe.t :=
  Recipe.mk "T004" "佛跳墙" (Some ["汤品"]) (Some ["春季"]) (Some "高级")
    (Some 60%Z) (Some 90%Z) None None None None.

Definition beginner_request : Params.t :=
  Params.mk 6 "春季" [] [] (Some 120%Z) "初级".

(** SPRING001 authored for zero people, and with no 基准人数 at all. *)
Definition zero_base_dish : Recipe.t :=
  with_标准份量 SPRING001
    (Some (mkPortion (Some 0%Q)
             (Some [Ingredient.mk "春笋" 500 (Some "克");
                    Ingredient.mk "猪里脊肉" 300 (Some "克")])
             None)).

Definition no_base_dish : Recipe.t :=
  with_标准份量 SPRING001
    (Some (mkPortion None
             (Some [Ingredient.mk "春笋" 500 (Some "克");
                    Ingredient.mk "猪里脊肉" 300 (Some "克")])
             None)).

(** A side dish for twelve with 27 g of ginger. *)
Definition ginger_dish : Recipe.t :=
  Recipe.mk "SPRING003" "姜汁菠菜" (Some ["配菜"]) (Some ["春季"]) (Some "初级")
    (Some 5%Z) (Some 5%Z) None
    (Some (mkPortion (Some 12%Q) (Some [Ingredient.mk "姜" 27 (Some "克")])
             None))
    None None.

(** SPRING001 with one ingredient named like an inherited property and one
    whose unit is the empty string. *)
Definition odd_names_dish : Recipe.t :=
  with_标准份量 SPRING001
    (Some (mkPortion (Some 6%Q)
             (Some [Ingredient.mk "constructor" 1 (Some "个");
                    Ingredient.mk "盐" 5 (Some "")])
             None)).

(** A soup that shares 春笋 with SPRING001 and gives no unit for its salt. *)
Definition bamboo_soup : Recipe.t :=
  Recipe.mk "SPRING002" "春笋汤" (Some ["汤品"]) (Some ["春季"]) (Some "初级")
    (Some 10%Z) (Some 30%Z) None
    (Some (mkPortion (Some 4%Q)
             (Some [Ingredient.mk "春笋" 200 (Some "克");
                    Ingredient.mk "盐" 3 None])
             None))
    None None.

(** The menu [recommend] composes from SPRING001 and the soup for six. *)
Definition spring_menu : Menu :=
  (recommend flip_source false [SPRING001; bamboo_soup] spring_request).1.

(** The scenario of the specification: a main dish for six with 300 g of
    pork and 800 kcal, a soup for four with 200 g of tofu and 150 kcal, and
    a request for six in any season. *)
Definition scenario_main : Recipe.t :=
  Recipe.mk "R1" "R1" (Some ["主菜"]) None None None None None
    (Some (mkPortion (Some 6%Q) (Some [Ingredient.mk "pork" 300 (Some "g")])
             None))
    (Some (mkNutrients (Some 800%Q) None None None None))
    None.

Definition scenario_soup : Recipe.t :=
  Recipe.mk "R2" "R2" (Some ["汤品"]) None None None None None
    (Some (mkPortion (Some 4%Q) (Some [Ingredient.mk "tofu" 200 (Some "g")])
             None))
    (Some (mkNutrients (Some 150%Q) None None None None))
    None.

Definition scenario_request : Params.t :=
  Params.mk 6 "不限" [] [] (Some 120%Z) "不限".

(** SPRING001 with its nutrition filled in. *)
Definition SPRING001_nutrition : Recipe.t :=
  Recipe.mk "SPRING001" "春笋炒肉片" (Some ["主菜"; "时令菜"]) (Some ["春季"])
    (Some "初级") (Some 15%Z) (Some 10%Z) None
    (Recipe.标准份量 SPRING001)
    (Some (mkNutrients (Some 800%Q) (Some 45%Q) (Some 30%Q) (Some 40%Q)
             (Some 8%Q)))
    None.

(** Dishes that give nutrition data and no 标准份量, so that the totals of a
    menu of one are the dish's own numbers: 290 kcal; 49.99999999999999
    kcal; 87.10000000000001 g of fat. *)
Definition dish_of (id : string) (nutrients : Nutrients (option Q))
  : Recipe.t :=
  Recipe.mk id id (Some ["主菜"]) None None None None None None
    (Some nutrients) None.

Definition snack_290 : Recipe.t :=
  dish_of "N001" (mkNutrients (Some 290%Q) None None None None).

Definition snack_50 : Recipe.t :=
  dish_of "N002"
    (mkNutrients (Some (7036874417766399 # 140737488355328)) None None None
       None).

Definition fat_dish : Recipe.t :=
  dish_of "N003"
    (mkNutrients None None None (Some (6129117617874535 # 70368744177664))
       None).

(** A dish for three with 43.2 g of protein. *)
Definition protein_dish : Recipe.t :=
  Recipe.mk "N004" "N004" (Some ["主菜"]) None None None None None
    (Some (mkPortion (Some 3%Q) None None))
    (Some (mkNutrients None (Some (3039929748475085 # 70368744177664)) None
             None None))
    None.

(** [sampleRecipes] as [handleRecipes] reads it; neither recipe has a
    菜品描述. *)
Definition sample_catalog : list Described.t :=
  [Described.mk SPRING001 None; Described.mk SUMMER001 None].

(** The query 页码=2&每页数量=1, and the query 口味=辣,甜 in April. *)
Definition second_page : RecipesQuery.t :=
  RecipesQuery.mk None None None (Some 2%Z) (Some 1%Z).

Definition sweet_and_hot : Query.t :=
  Query.mk None None (Some "辣,甜") None None None.

(** * Properties *)

(** ** Numbers and rounding *)

Lemma Qsgn_zero_iff (q : Q) : (Qsgn q =? 0)%Z = true <-> (q == 0)%Q.
Proof.
  unfold Qsgn, Qeq. destruct q as [n d]; simpl.
  rewrite Z.eqb_eq, Z.sgn_null_iff. lia.
Qed.

Lemma Qsgn_nonzero (q : Q) : ~ (q == 0)%Q -> (Qsgn q =? 0)%Z = false.
Proof.
  intros H. destruct (Qsgn q =? 0)%Z eqn:E; [|done].
  apply Qsgn_zero_iff in E. contradiction.
Qed.

(** *** Rounding to a double *)

Lemma two_pow_pos (e : Z) : (0 < 2 ^ e)%Q.
Proof. apply Qpower_0_lt. reflexivity. Qed.

Lemma two_pow_nonzero (e : Z) : ~ (2 ^ e == 0)%Q.
Proof. pose proof (two_pow_pos e). lra. Qed.

Lemma two_pow_Z (n : Z) : (0 <= n)%Z -> (2 ^ n == inject_Z (2 ^ n))%Q.
Proof. intros H. rewrite Zpower_Qpower by done. reflexivity. Qed.

Lemma two_pow_succ (e : Z) : (2 ^ (e + 1) == 2 * 2 ^ e)%Q.
Proof. rewrite Qpower_plus by (intros H; discriminate H). simpl. ring. Qed.

Lemma two_pow_le (n m : Z) : (n <= m)%Z -> (2 ^ n <= 2 ^ m)%Q.
Proof. intros H. apply Qpower_le_compat_l; [done|]. unfold Qle. simpl. lia. Qed.

Lemma two_pow_lt (n m : Z) : (n < m)%Z -> (2 ^ n < 2 ^ m)%Q.
Proof. intros H. apply Qpower_lt_compat_l; [done|]. reflexivity. Qed.

Lemma Qabs_frac (x : Q) :
  (Qabs x == inject_Z (Z.abs (Qnum x)) / inject_Z (Zpos (Qden x)))%Q.
Proof.
  destruct x as [n d]. unfold Qabs, Qeq, Qdiv, Qmult, Qinv, inject_Z. simpl.
  lia.
Qed.

Lemma binade_spec (x : Q) :
  ~ (x == 0)%Q -> (2 ^ binade x <= Qabs x /\ Qabs x < 2 ^ (binade x + 1))%Q.
Proof.
  intros Hx. unfold binade.
  set (n := Z.abs (Qnum x)). set (d := Zpos (Qden x)).
  assert (Hn : (0 < n)%Z).
  { unfold n. destruct x as [[|p|p] q]; simpl; try lia.
    exfalso. apply Hx. reflexivity. }
  assert (Hd : (0 < d)%Z) by (unfold d; lia).
  destruct (Z.log2_spec n Hn) as [Hn1 Hn2].
  destruct (Z.log2_spec d Hd) as [Hd1 Hd2].
  pose proof (Z.log2_nonneg n) as Hln. pose proof (Z.log2_nonneg d) as Hld.
  set (ln := Z.log2 n) in *. set (ld := Z.log2 d) in *.
  assert (Habs : (Qabs x == inject_Z n / inject_Z d)%Q) by apply Qabs_frac.
  assert (Hdq : (0 < inject_Z d)%Q).
  { change 0%Q with (inject_Z 0). by rewrite <- Zlt_Qlt. }
  assert (Hlow : (2 ^ (ln - ld - 1) < Qabs x)%Q).
  { rewrite Habs.
    replace (ln - ld - 1)%Z with (ln - (ld + 1))%Z by lia.
    rewrite Qpower_minus by (intros H; discriminate H).
    rewrite (two_pow_Z ln), (two_pow_Z (ld + 1)) by lia.
    apply Qlt_shift_div_l; [done|].
    unfold Qdiv. rewrite <- Qmult_assoc, (Qmult_comm (/ _)).
    rewrite Qmult_assoc. apply Qlt_shift_div_r.
    - change 0%Q with (inject_Z 0). rewrite <- Zlt_Qlt. lia.
    - rewrite <- !inject_Z_mult, <- Zlt_Qlt.
      replace (Z.succ ld) with (ld + 1)%Z in Hd2 by lia. nia. }
  assert (Hhigh : (Qabs x < 2 ^ (ln - ld + 1))%Q).
  { rewrite Habs.
    replace (ln - ld + 1)%Z with (ln + 1 - ld)%Z by lia.
    rewrite Qpower_minus by (intros H; discriminate H).
    rewrite (two_pow_Z (ln + 1)), (two_pow_Z ld) by lia.
    apply Qlt_shift_div_r; [done|].
    unfold Qdiv. rewrite <- Qmult_assoc, (Qmult_comm (/ _)).
    rewrite Qmult_assoc. apply Qlt_shift_div_l.
    - change 0%Q with (inject_Z 0). rewrite <- Zlt_Qlt. lia.
    - rewrite <- !inject_Z_mult, <- Zlt_Qlt.
      replace (Z.succ ln) with (ln + 1)%Z in Hn2 by lia. nia. }
  destruct (Qle_bool (2 ^ (ln - ld)) (Qabs x)) eqn:E.
  - apply Qle_bool_iff in E. split; [done|]. exact Hhigh.
  - split; [by apply Qlt_le_weak|].
    replace (ln - ld - 1 + 1)%Z with (ln - ld)%Z by lia.
    apply Qnot_le_lt. intros H. apply Qle_bool_iff in H. congruence.
Qed.

Lemma rne_spec (x : Q) : (Qabs (inject_Z (rne x) - x) <= 1 # 2)%Q.
Proof.
  unfold rne. pose proof (Qfloor_le x) as H1. pose proof (Qlt_floor x) as H2.
  rewrite inject_Z_plus in H2. change (inject_Z 1) with 1%Q in H2.
  set (f := Qfloor x) in *. apply Qabs_Qle_condition.
  destruct (x - inject_Z f ?= 1 # 2)%Q eqn:E.
  - apply Qeq_alt in E. destruct (Z.even f).
    + lra.
    + rewrite inject_Z_plus. change (inject_Z 1) with 1%Q. lra.
  - apply Qlt_alt in E. lra.
  - apply Qgt_alt in E. rewrite inject_Z_plus. change (inject_Z 1) with 1%Q. lra.
Qed.

Lemma rne_Z (x : Q) (z : Z) : (x == inject_Z z)%Q -> rne x = z.
Proof.
  intros E. unfold rne.
  assert (Hf : Qfloor x = z) by (rewrite E; apply Qfloor_Z).
  rewrite Hf.
  assert (Hc : (x - inject_Z z ?= 1 # 2)%Q = Lt).
  { apply Qlt_alt. assert (x - inject_Z z == 0)%Q as -> by (rewrite E; ring).
    reflexivity. }
  by rewrite Hc.
Qed.


Lemma half_quantum (x : Q) :
  ~ (x == 0)%Q -> (2 ^ quantum x * (1 # 2) <= roundoff * Qabs x + tiny)%Q.
Proof.
  intros Hx. destruct (binade_spec x Hx) as [Hb _].
  pose proof (Qabs_nonneg x) as Hn. pose proof (two_pow_pos (-1075)) as He.
  unfold quantum, tiny, roundoff.
  destruct (Z.max_spec (binade x - 52) (-1074)) as [[_ ->]|[_ ->]].
  - assert ((2 ^ (-1074) * (1 # 2) == 2 ^ (-1075))%Q) as -> by reflexivity.
    set (A := Qabs x) in *. set (E := (2 ^ (-1075))%Q) in *. clearbody A E.
    lra.
  - rewrite Qpower_minus by (intros H; discriminate H).
    assert ((2 ^ binade x / 2 ^ 52
             == 2 ^ binade x * (1 # 4503599627370496))%Q) as -> by reflexivity.
    set (B := (2 ^ binade x)%Q) in *.
    set (A := Qabs x) in *. set (E := (2 ^ (-1075))%Q) in *. clearbody A B E.
    lra.
Qed.

Lemma Number_value_proper (x y : Q) :
  (x == y)%Q -> Number_value x = Number_value y.
Proof. intros E. unfold Number_value. by rewrite (Qred_complete x y E). Qed.

(** The value is finite up to [2 ^ 1023], and then off by at most half a
    unit in the last place. *)
Lemma Number_value_error (x : Q) :
  (Qabs x <= 2 ^ 1023)%Q ->
  exists y, Number_value x = Fin y
            /\ (Qabs (y - x) <= roundoff * Qabs x + tiny)%Q.
Proof.
  intros Hmax. unfold Number_value.
  pose proof (Qred_correct x) as Hr. set (x' := Qred x) in *.
  pose proof (two_pow_pos (-1075)) as He. fold tiny in He.
  pose proof (Qabs_nonneg x) as Hn.
  destruct (Qeq_bool x' 0) eqn:E0.
  { apply Qeq_bool_iff in E0. exists 0%Q. split; [done|].
    assert (x == 0)%Q as -> by (by rewrite <- Hr).
    change (0 <= roundoff * 0 + tiny)%Q. unfold roundoff. set (E := tiny) in *. clearbody E.
    lra. }
  apply Qeq_bool_neq in E0.
  set (e := quantum x'). set (m := rne (x' / 2 ^ e)).
  pose proof (two_pow_pos e) as Hpe.
  assert (Herr : (Qabs (inject_Z m * 2 ^ e - x) <= 2 ^ e * (1 # 2))%Q).
  { assert ((inject_Z m * 2 ^ e - x
             == (inject_Z m - x' / 2 ^ e) * 2 ^ e)%Q) as ->.
    { rewrite <- Hr. field. apply two_pow_nonzero. }
    rewrite Qabs_Qmult, (Qabs_pos (2 ^ e)) by lra.
    rewrite (Qmult_comm (2 ^ e)). apply Qmult_le_compat_r; [|lra].
    apply rne_spec. }
  pose proof (half_quantum x' E0) as Hq. fold e in Hq. rewrite Hr in Hq.
  set (y := Qred (inject_Z m * 2 ^ e)).
  assert (Hy : (y == inject_Z m * 2 ^ e)%Q) by apply Qred_correct.
  assert (Hyx : (Qabs (y - x) <= roundoff * Qabs x + tiny)%Q).
  { rewrite Hy. lra. }
  assert (Hfin : Qle_bool (2 ^ 1024) (Qabs y) = false).
  { destruct (Qle_bool (2 ^ 1024) (Qabs y)) eqn:E; [|done].
    apply Qle_bool_iff in E. exfalso.
    pose proof (Qabs_triangle_reverse y x) as Ht.
    assert (Hu : (roundoff * Qabs x + tiny <= 2 ^ 1023)%Q).
    { assert (tiny <= 1)%Q by (unfold tiny; unfold Qle; simpl; lia).
      assert (2 <= 2 ^ 1023)%Q by (unfold Qle; simpl; lia).
      unfold roundoff. set (A := Qabs x) in *. set (P := (2 ^ 1023)%Q) in *.
      clearbody A P. lra. }
    assert (H24 : (2 ^ 1024 == 2 * 2 ^ 1023)%Q) by reflexivity.
    rewrite H24 in E.
    assert (Hne : ~ (Qabs x == 2 ^ 1023)%Q \/ (Qabs x == 2 ^ 1023)%Q).
    { destruct (Qeq_dec (Qabs x) (2 ^ 1023)); auto. }
    set (A := Qabs x) in *. set (P := (2 ^ 1023)%Q) in *.
    set (Y := Qabs y) in *. set (D := Qabs (y - x)) in *.
    assert (roundoff * A + tiny < P)%Q.
    { assert (tiny <= 1)%Q by (unfold tiny; unfold Qle; simpl; lia).
      assert (4 <= P)%Q by (unfold P, Qle; simpl; lia).
      unfold roundoff. clearbody A P Y D. lra. }
    clearbody A P Y D. lra. }
  rewrite Hfin. exists y. by split.
Qed.

Lemma two_pow_mono_inv (n m : Z) : (2 ^ n < 2 ^ m)%Q -> (n < m)%Z.
Proof.
  intros H. destruct (Z.lt_ge_cases n m) as [|Hge]; [done|].
  pose proof (two_pow_le m n Hge). lra.
Qed.

Lemma binade_unique (x : Q) (k : Z) :
  (2 ^ k <= Qabs x)%Q -> (Qabs x < 2 ^ (k + 1))%Q -> binade x = k.
Proof.
  intros H1 H2.
  assert (Hx : ~ (x == 0)%Q).
  { intros E. rewrite E in H1. pose proof (two_pow_pos k).
    change (Qabs 0) with 0%Q in H1. lra. }
  destruct (binade_spec x Hx) as [H3 H4].
  assert (binade x < k + 1)%Z by (apply two_pow_mono_inv; lra).
  assert (k < binade x + 1)%Z by (apply two_pow_mono_inv; lra).
  lia.
Qed.

Lemma rne_le (x : Q) (z : Z) : (x <= inject_Z z)%Q -> (rne x <= z)%Z.
Proof.
  intros H. unfold rne. pose proof (Qfloor_le x) as H1.
  pose proof (Qlt_floor x) as H2.
  rewrite inject_Z_plus in H2. change (inject_Z 1) with 1%Q in H2.
  set (f := Qfloor x) in *.
  assert (Hf : (f <= z)%Z) by (rewrite Zle_Qle; lra).
  destruct (Z.eq_dec f z) as [->|Hne].
  - assert (x == inject_Z z)%Q as E by lra.
    assert (Hc : (x - inject_Z z ?= 1 # 2)%Q = Lt).
    { apply Qlt_alt. assert (x - inject_Z z == 0)%Q as -> by (rewrite E; ring).
      reflexivity. }
    by rewrite Hc.
  - destruct (x - inject_Z f ?= 1 # 2)%Q; [destruct (Z.even f)| |]; lia.
Qed.

Lemma rne_ge (x : Q) (z : Z) : (inject_Z z <= x)%Q -> (z <= rne x)%Z.
Proof.
  intros H. unfold rne. pose proof (Qlt_floor x) as H2.
  rewrite inject_Z_plus in H2. change (inject_Z 1) with 1%Q in H2.
  set (f := Qfloor x) in *.
  assert (Hf : (z < f + 1)%Z).
  { rewrite Zlt_Qlt, inject_Z_plus. change (inject_Z 1) with 1%Q. lra. }
  destruct (x - inject_Z f ?= 1 # 2)%Q; [destruct (Z.even f)| |]; lia.
Qed.

(** The nearest integer is nearest. *)
Lemma rne_nearest (x : Q) (z : Z) :
  (Qabs (inject_Z (rne x) - x) <= Qabs (inject_Z z - x))%Q.
Proof.
  pose proof (Qfloor_le x) as H1. pose proof (Qlt_floor x) as H2.
  rewrite inject_Z_plus in H2. change (inject_Z 1) with 1%Q in H2.
  assert (Hr : (Qabs (inject_Z (rne x) - x) <= x - inject_Z (Qfloor x)
                /\ Qabs (inject_Z (rne x) - x)
                   <= inject_Z (Qfloor x) + 1 - x)%Q).
  { unfold rne. set (f := Qfloor x) in *.
    destruct (x - inject_Z f ?= 1 # 2)%Q eqn:E.
    - apply Qeq_alt in E. destruct (Z.even f).
      + split; apply Qabs_Qle_condition; lra.
      + rewrite inject_Z_plus. change (inject_Z 1) with 1%Q.
        split; apply Qabs_Qle_condition; lra.
    - apply Qlt_alt in E. split; apply Qabs_Qle_condition; lra.
    - apply Qgt_alt in E. rewrite inject_Z_plus. change (inject_Z 1) with 1%Q.
      split; apply Qabs_Qle_condition; lra. }
  destruct Hr as [Hr1 Hr2]. set (f := Qfloor x) in *.
  destruct (Z.le_gt_cases z f) as [Hz|Hz].
  - rewrite Zle_Qle in Hz. eapply Qle_trans; [exact Hr1|].
    rewrite Qabs_Qminus. apply Qabs_ge. lra.
  - assert (Hz' : (f + 1 <= z)%Z) by lia. rewrite Zle_Qle in Hz'.
    rewrite inject_Z_plus in Hz'. change (inject_Z 1) with 1%Q in Hz'.
    eapply Qle_trans; [exact Hr2|]. apply Qabs_ge. lra.
Qed.

Lemma Qabs_scaled (x : Q) (e : Z) : (Qabs (x / 2 ^ e) == Qabs x / 2 ^ e)%Q.
Proof.
  unfold Qdiv. rewrite Qabs_Qmult, Qabs_Qinv.
  rewrite (Qabs_pos (2 ^ e)); [reflexivity|].
  apply Qlt_le_weak, two_pow_pos.
Qed.

Lemma scaled_lt (x : Q) :
  ~ (x == 0)%Q -> (Qabs (x / 2 ^ quantum x) < 2 ^ 53)%Q.
Proof.
  intros Hx. destruct (binade_spec x Hx) as [_ Hb].
  rewrite Qabs_scaled. apply Qlt_shift_div_r; [apply two_pow_pos|].
  rewrite <- Qpower_plus by (intros H; discriminate H).
  eapply Qlt_le_trans; [exact Hb|]. apply two_pow_le. unfold quantum. lia.
Qed.

Lemma scaled_ge (x : Q) :
  ~ (x == 0)%Q -> quantum x = (binade x - 52)%Z ->
  (2 ^ 52 <= Qabs (x / 2 ^ quantum x))%Q.
Proof.
  intros Hx He. destruct (binade_spec x Hx) as [Hb _].
  rewrite Qabs_scaled. apply Qle_shift_div_l; [apply two_pow_pos|].
  rewrite <- Qpower_plus by (intros H; discriminate H).
  rewrite He. by replace (52 + (binade x - 52))%Z with (binade x) by lia.
Qed.

Lemma rne_abs_le (x : Q) (z : Z) :
  (Qabs x <= inject_Z z)%Q -> (Z.abs (rne x) <= z)%Z.
Proof.
  intros H. apply Qabs_Qle_condition in H as [H1 H2].
  apply Z.abs_le. split.
  - apply rne_ge. by rewrite inject_Z_opp.
  - by apply rne_le.
Qed.

Lemma rne_abs_ge (x : Q) (z : Z) :
  (inject_Z z <= Qabs x)%Q -> (z <= Z.abs (rne x))%Z.
Proof.
  intros H. destruct (Qlt_le_dec x 0) as [Hneg|Hpos].
  - rewrite Qabs_neg in H by lra.
    assert (rne x <= - z)%Z by (apply rne_le; rewrite inject_Z_opp; lra). lia.
  - rewrite Qabs_pos in H by done.
    assert (z <= rne x)%Z by by apply rne_ge. lia.
Qed.

Lemma two_pow_53 : (2 ^ 53 == inject_Z (2 ^ 53))%Q.
Proof. reflexivity. Qed.

Lemma two_pow_52 : (2 ^ 52 == inject_Z (2 ^ 52))%Q.
Proof. reflexivity. Qed.

Lemma Qabs_inject_Z (z : Z) : Qabs (inject_Z z) = inject_Z (Z.abs z).
Proof. reflexivity. Qed.

Lemma Qabs_grid (m e : Z) :
  (Qabs (inject_Z m * 2 ^ e) == inject_Z (Z.abs m) * 2 ^ e)%Q.
Proof.
  rewrite Qabs_Qmult, Qabs_inject_Z, (Qabs_pos (2 ^ e)); [reflexivity|].
  apply Qlt_le_weak, two_pow_pos.
Qed.

(** What [Number_value] returns when it returns a number. *)
Lemma Number_value_Fin (x y : Q) :
  Number_value x = Fin y ->
  (x == 0)%Q /\ y = 0%Q
  \/ ~ (x == 0)%Q
     /\ y = Qred (inject_Z (rne (Qred x / 2 ^ quantum (Qred x)))
                  * 2 ^ quantum (Qred x))%Q
     /\ (Qabs y < 2 ^ 1024)%Q.
Proof.
  unfold Number_value. pose proof (Qred_correct x) as Hr.
  destruct (Qeq_bool (Qred x) 0) eqn:E0.
  - apply Qeq_bool_iff in E0. intros [= <-]. left. split; [|done].
    by rewrite <- Hr.
  - apply Qeq_bool_neq in E0.
    destruct (Qle_bool (2 ^ 1024) _) eqn:E.
    + by destruct (Qle_bool 0 (Qred x)).
    + intros [= <-]. right. split; [by rewrite <- Hr|]. split; [done|].
      apply Qnot_le_lt. intros H. apply Qle_bool_iff in H. congruence.
Qed.

Lemma Number_value_grid (x : Q) (z e : Z) :
  ~ (x == 0)%Q -> quantum (Qred x) = e ->
  (x / 2 ^ e == inject_Z z)%Q ->
  (Qabs x < 2 ^ 1024)%Q ->
  Number_value x = Fin (Qred x).
Proof.
  intros Hx He Hz Hmax. unfold Number_value.
  pose proof (Qred_correct x) as Hr.
  destruct (Qeq_bool (Qred x) 0) eqn:E0.
  { apply Qeq_bool_iff in E0. rewrite Hr in E0. contradiction. }
  rewrite He. rewrite (rne_Z _ z) by (by rewrite Hr).
  assert (Hv : (inject_Z z * 2 ^ e == x)%Q).
  { rewrite <- Hz. field. apply two_pow_nonzero. }
  rewrite (Qred_complete _ _ Hv).
  destruct (Qle_bool (2 ^ 1024) (Qabs (Qred x))) eqn:E; [|done].
  apply Qle_bool_iff in E. rewrite Hr in E. lra.
Qed.

Lemma is_double_value (d : Q) : is_double d -> Number_value d = Fin (Qred d).
Proof.
  intros (m & e & Hd & Hm & He).
  destruct (Z.eq_dec m 0%Z) as [->|Hm0].
  { assert (Hz : (d == 0)%Q) by (rewrite Hd; ring).
    rewrite (Number_value_proper d 0 Hz), (Qred_complete d 0 Hz). reflexivity. }
  assert (Habs : (Qabs d == inject_Z (Z.abs m) * 2 ^ e)%Q).
  { rewrite Hd. apply Qabs_grid. }
  pose proof (two_pow_pos e) as Hpe.
  assert (H1 : (2 ^ e <= Qabs d)%Q).
  { rewrite Habs. assert (1 <= inject_Z (Z.abs m))%Q.
    { change 1%Q with (inject_Z 1). rewrite <- Zle_Qle. lia. }
    nra. }
  assert (H2 : (Qabs d < 2 ^ (53 + e))%Q).
  { rewrite Habs, Qpower_plus by (intros H; discriminate H).
    apply Qmult_lt_compat_r; [done|]. rewrite two_pow_53, <- Zlt_Qlt. lia. }
  assert (Hd0 : ~ (d == 0)%Q).
  { intros E. rewrite E in H1. change (Qabs 0) with 0%Q in H1. lra. }
  assert (Hb : (binade d < 53 + e)%Z).
  { destruct (binade_spec d Hd0) as [Hb _]. apply two_pow_mono_inv. lra. }
  set (e' := quantum (Qred d)).
  assert (He' : (e' <= e)%Z).
  { unfold e', quantum.
    assert (binade (Qred d) = binade d) as ->.
    { apply binade_unique; rewrite (Qred_correct d);
        by destruct (binade_spec d Hd0). }
    lia. }
  apply (Number_value_grid d (m * 2 ^ (e - e')) e'); [done|done| |].
  - rewrite Hd, inject_Z_mult, <- two_pow_Z by lia.
    rewrite Qpower_minus by (intros H; discriminate H).
    field. apply two_pow_nonzero.
  - eapply Qlt_le_trans; [exact H2|]. apply two_pow_le. lia.
Qed.

Lemma scale_error (x : Q) (m z e : Z) :
  (Qabs (inject_Z m - x / 2 ^ e) <= Qabs (inject_Z z - x / 2 ^ e))%Q ->
  (Qabs (inject_Z m * 2 ^ e - x) <= Qabs (inject_Z z * 2 ^ e - x))%Q.
Proof.
  intros H. pose proof (two_pow_pos e) as Hp.
  assert (Hs : forall k : Z,
             (inject_Z k * 2 ^ e - x == (inject_Z k - x / 2 ^ e) * 2 ^ e)%Q).
  { intros k. field. apply two_pow_nonzero. }
  rewrite !Hs, !Qabs_Qmult, (Qabs_pos (2 ^ e)) by lra.
  apply Qmult_le_compat_r; [done|lra].
Qed.

(** The value [Number_value] returns is a double. *)
Theorem Number_value_is_double (x y : Q) :
  Number_value x = Fin y -> is_double y.
Proof.
  intros H. apply Number_value_Fin in H as [[_ ->]|(Hx & -> & Hmax)].
  { exists 0%Z, 0%Z. split; [reflexivity|]. split; [done|lia]. }
  rewrite Qred_correct in Hmax. rewrite <- (Qred_correct x) in Hx.
  set (x' := Qred x) in *. set (e := quantum x') in *.
  set (m := rne (x' / 2 ^ e)) in *.
  pose proof (scaled_lt x' Hx) as Hlt. fold e in Hlt.
  assert (Hm : (Z.abs m <= 2 ^ 53)%Z).
  { apply rne_abs_le. rewrite <- two_pow_53. lra. }
  rewrite Qabs_grid in Hmax. pose proof (two_pow_pos e) as Hpe.
  assert (He : (-1074 <= e)%Z) by (unfold e, quantum; lia).
  destruct (Z.eq_dec (Z.abs m) (2 ^ 53)%Z) as [Hfull|Hless].
  - exists (m / 2)%Z, (e + 1)%Z.
    assert (H53 : (2 ^ 53 = 9007199254740992)%Z) by reflexivity.
    assert (Hm2 : (m = 2 * (m / 2))%Z).
    { rewrite H53 in Hfull. clearbody m. clear - Hfull.
      assert (m = 9007199254740992 \/ m = -9007199254740992)%Z as [->| ->]
        by lia; reflexivity. }
    split; [|split].
    + rewrite Qred_correct, two_pow_succ. rewrite Hm2 at 1.
      rewrite inject_Z_mult. change (inject_Z 2) with 2%Q. ring.
    + rewrite H53 in Hfull. clearbody m. clear - Hfull.
      assert (m = 9007199254740992 \/ m = -9007199254740992)%Z as [->| ->]
        by lia; reflexivity.
    + split; [lia|]. rewrite Hfull, <- two_pow_53 in Hmax.
      rewrite <- Qpower_plus in Hmax by (intros H; discriminate H).
      apply two_pow_mono_inv in Hmax. lia.
  - destruct (Z.eq_dec m 0%Z) as [Hm0|Hm0].
    { exists 0%Z, 0%Z. split; [|split; [done|lia]].
      rewrite Qred_correct, Hm0. ring. }
    exists m, e. split; [apply Qred_correct|]. split; [lia|]. split; [done|].
    destruct (Z.max_spec (binade x' - 52) (-1074)) as [[_ Hq]|[_ Hq]];
      fold (quantum x') in Hq; fold e in Hq; [lia|].
    pose proof (scaled_ge x' Hx Hq) as Hge. fold e in Hge.
    assert (H52 : (2 ^ 52 <= Z.abs m)%Z).
    { apply rne_abs_ge. by rewrite <- two_pow_52. }
    assert (Hy : (2 ^ 52 * 2 ^ e <= inject_Z (Z.abs m) * 2 ^ e)%Q).
    { apply Qmult_le_compat_r; [|lra].
      rewrite two_pow_52, <- Zle_Qle. done. }
    rewrite <- Qpower_plus in Hy by (intros H; discriminate H).
    assert (Hlt' : (2 ^ (52 + e) < 2 ^ 1024)%Q) by lra.
    apply two_pow_mono_inv in Hlt'. lia.
Qed.

(** No double is nearer to [x] than the value [Number_value] returns. *)
Theorem Number_value_nearest (x y d : Q) :
  Number_value x = Fin y -> is_double d ->
  (Qabs (y - x) <= Qabs (d - x))%Q.
Proof.
  intros H (md & ed & Hd & Hmd & Hed).
  apply Number_value_Fin in H as [[Hx ->]|(Hx & -> & Hmax)].
  { rewrite Hx. change (Qabs (0 - 0)) with 0%Q. apply Qabs_nonneg. }
  rewrite Qred_correct. pose proof (Qred_correct x) as Hr.
  set (x' := Qred x) in *. clearbody x'. rewrite <- Hr in Hx. rewrite <- Hr.
  clear Hr Hmax x.
  set (e := quantum x') in *. set (m := rne (x' / 2 ^ e)) in *.
  pose proof (two_pow_pos e) as Hpe.
  destruct (Z.le_gt_cases e ed) as [Hle|Hgt].
  - assert (Hz : (d == inject_Z (md * 2 ^ (ed - e)) * 2 ^ e)%Q).
    { rewrite Hd, inject_Z_mult, <- two_pow_Z by lia.
      rewrite Qpower_minus by (intros H; discriminate H).
      field. apply two_pow_nonzero. }
    rewrite Hz. apply scale_error, rne_nearest.
  - assert (Hq : e = (binade x' - 52)%Z) by (unfold e, quantum in *; lia).
    pose proof (scaled_ge x' Hx Hq) as Hge. fold e in Hge.
    assert (Hdlt : (Qabs d < 2 ^ 52 * 2 ^ e)%Q).
    { rewrite Hd, Qabs_grid.
      apply Qlt_le_trans with (2 ^ 53 * 2 ^ ed)%Q.
      - apply Qmult_lt_compat_r; [apply two_pow_pos|].
        rewrite two_pow_53, <- Zlt_Qlt. done.
      - rewrite <- !Qpower_plus by (intros H; discriminate H).
        apply two_pow_le. lia. }
    assert (Hnear : forall z : Z,
               (Qabs (inject_Z m * 2 ^ e - x')
                <= Qabs (inject_Z z * 2 ^ e - x'))%Q).
    { intros z. apply scale_error, rne_nearest. }
    assert (Hx'e : (x' == x' / 2 ^ e * 2 ^ e)%Q).
    { field. apply two_pow_nonzero. }
    destruct (Qlt_le_dec x' 0) as [Hneg|Hpos].
    + assert (Ht : (x' / 2 ^ e <= - 2 ^ 52)%Q).
      { rewrite Qabs_neg in Hge; [lra|].
        apply Qle_shift_div_r; [done|]. lra. }
      specialize (Hnear (- 2 ^ 52)%Z). rewrite inject_Z_opp in Hnear.
      rewrite <- two_pow_52 in Hnear.
      eapply Qle_trans; [exact Hnear|].
      assert (Hxb : (x' <= - 2 ^ 52 * 2 ^ e)%Q).
      { rewrite Hx'e at 1. apply Qmult_le_compat_r; lra. }
      rewrite Qabs_pos by lra.
      pose proof (Qabs_triangle_reverse x' d) as Ht'.
      rewrite (Qabs_neg x') in Ht' by lra.
      rewrite (Qabs_Qminus d x'). lra.
    + assert (Ht : (2 ^ 52 <= x' / 2 ^ e)%Q).
      { rewrite Qabs_pos in Hge; [lra|].
        apply Qle_shift_div_l; [done|]. lra. }
      specialize (Hnear (2 ^ 52)%Z). rewrite <- two_pow_52 in Hnear.
      eapply Qle_trans; [exact Hnear|].
      assert (Hxb : (2 ^ 52 * 2 ^ e <= x')%Q).
      { rewrite Hx'e. apply Qmult_le_compat_r; lra. }
      rewrite Qabs_neg by lra.
      pose proof (Qabs_triangle_reverse x' d) as Ht'.
      rewrite (Qabs_pos x') in Ht' by lra.
      rewrite (Qabs_Qminus d x'). lra.
Qed.

Lemma Number_value_idem (x y : Q) :
  Number_value x = Fin y -> Number_value y = Fin y.
Proof.
  intros H. pose proof (Number_value_is_double x y H) as Hd.
  rewrite (is_double_value y Hd). f_equal.
  apply Number_value_Fin in H as [[_ ->]|(_ & -> & _)]; [done|].
  apply Qred_complete, Qred_correct.
Qed.


(** ** Error analysis *)

Lemma tiny_small : (0 < tiny /\ tiny <= 1 # 1267650600228229401496703205376)%Q.
Proof.
  split; [apply two_pow_pos|]. unfold tiny.
  assert ((1 # 1267650600228229401496703205376 == 2 ^ (-100))%Q) as ->
    by reflexivity.
  apply two_pow_le. lia.
Qed.

Lemma Qabs_add_le (x y : Q) : (Qabs x <= Qabs y + Qabs (x - y))%Q.
Proof.
  assert (x == y + (x - y))%Q as E by ring.
  rewrite E at 1. apply Qabs_triangle.
Qed.

Lemma Qabs_mul_le (q x e : Q) :
  (Qabs x <= e)%Q -> (Qabs (q * x) <= Qabs q * e)%Q.
Proof.
  intros H. rewrite Qabs_Qmult. rewrite !(Qmult_comm (Qabs q)).
  apply Qmult_le_compat_r; [done|apply Qabs_nonneg].
Qed.

Lemma Qabs_mul_bound (x y bx by' : Q) :
  (Qabs x <= bx)%Q -> (Qabs y <= by')%Q -> (Qabs (x * y) <= bx * by')%Q.
Proof.
  intros Hx Hy. rewrite Qabs_Qmult.
  apply Qmult_le_compat_nonneg; split; try apply Qabs_nonneg; done.
Qed.

Lemma Math_round_spec (y : Q) :
  (inject_Z (Qfloor (y + (1 # 2))) - (1 # 2) <= y
   /\ y < inject_Z (Qfloor (y + (1 # 2))) + (1 # 2))%Q.
Proof.
  pose proof (Qfloor_le (y + (1 # 2))) as H1.
  pose proof (Qlt_floor (y + (1 # 2))) as H2.
  rewrite inject_Z_plus in H2. change (inject_Z 1) with 1%Q in H2.
  split; lra.
Qed.

Lemma Math_round_unique (y : Q) (k : Z) :
  (inject_Z k - (1 # 2) <= y)%Q -> (y < inject_Z k + (1 # 2))%Q ->
  Qfloor (y + (1 # 2)) = k.
Proof.
  intros H1 H2. destruct (Math_round_spec y) as [H3 H4].
  set (f := Qfloor (y + (1 # 2))) in *.
  assert (inject_Z f < inject_Z (k + 1))%Q.
  { rewrite inject_Z_plus. change (inject_Z 1) with 1%Q. lra. }
  assert (inject_Z k < inject_Z (f + 1))%Q.
  { rewrite inject_Z_plus. change (inject_Z 1) with 1%Q. lra. }
  rewrite <- Zlt_Qlt in *. lia.
Qed.

Lemma small_quantum (q : Q) :
  (Qabs q <= 2 ^ 900)%Q ->
  (Qabs q * tiny <= 1 # 1267650600228229401496703205376)%Q.
Proof.
  intros H. pose proof (two_pow_pos (-1075)) as He. fold tiny in He.
  apply Qle_trans with (2 ^ 900 * tiny)%Q.
  - apply Qmult_le_compat_r; [done|lra].
  - unfold tiny. rewrite <- Qpower_plus by (intros E; discriminate E).
    assert ((1 # 1267650600228229401496703205376 == 2 ^ (-100))%Q) as ->
      by reflexivity.
    apply two_pow_le. lia.
Qed.

(** The error of [Math.round(q * ratio * 10) / 10] against the exact
    [q * a], [ratio] being the double of [a]. *)
Lemma scaling_accuracy (q a rho z y s : Q) (k : Z) :
  (Qabs q <= 2 ^ 900)%Q ->
  (Qabs (rho - a) <= roundoff * Qabs a + tiny)%Q ->
  (Qabs (z - q * rho) <= roundoff * Qabs (q * rho) + tiny)%Q ->
  (Qabs (y - z * 10) <= roundoff * Qabs (z * 10) + tiny)%Q ->
  (inject_Z k - (1 # 2) <= y)%Q -> (y < inject_Z k + (1 # 2))%Q ->
  (Qabs (s - inject_Z k / 10) <= roundoff * Qabs (inject_Z k / 10) + tiny)%Q ->
  (Qabs (s - q * a)
   <= (1 # 20) + (1 + Qabs (q * a)) * (1 # 1125899906842624))%Q.
Proof.
  intros Hq H1 H2 H3 Hk1 Hk2 H5.
  destruct tiny_small as [He0 He1]. pose proof (small_quantum q Hq) as HT.
  assert (HD0 : (Qabs (q * rho - q * a)
                 <= roundoff * Qabs (q * a) + Qabs q * tiny)%Q).
  { assert (q * rho - q * a == q * (rho - a))%Q as -> by ring.
    eapply Qle_trans; [apply Qabs_mul_le, H1|].
    rewrite (Qabs_Qmult q a). apply Qle_lteq. right. ring. }
  pose proof (Qabs_add_le (q * rho) (q * a)) as HA1.
  pose proof (Qabs_add_le z (q * rho)) as HZ1.
  assert (H10 : (Qabs (z * 10) == 10 * Qabs z)%Q).
  { rewrite Qabs_Qmult. change (Qabs 10) with 10%Q. ring. }
  rewrite H10 in H3.
  assert (HK : (Qabs (inject_Z k / 10) <= 2 * Qabs (q * a) + 1)%Q).
  { pose proof (Qabs_nonneg (q * a)) as HX0.
    pose proof HD0 as HD0'. pose proof H2 as H2'.
    apply Qabs_Qle_condition in HD0, H2, H3.
    pose proof (Qabs_nonneg (q * rho)). pose proof (Qabs_nonneg z).
    pose proof (Qabs_Qle_condition (q * a) (Qabs (q * a))) as [Hqa _].
    specialize (Hqa (Qle_refl _)).
    apply Qabs_Qle_condition. unfold roundoff in *.
    set (X := Qabs (q * a)) in *. set (A1 := Qabs (q * rho)) in *.
    set (Z1 := Qabs z) in *. set (T := (Qabs q * tiny)%Q) in *.
    set (E := tiny) in *. set (qa := (q * a)%Q) in *.
    set (qr := (q * rho)%Q) in *. set (D := Qabs (qr - qa)) in *.
    set (D2 := Qabs (z - qr)) in *. set (kq := inject_Z k) in *.
    assert (kq / 10 == kq * (1 # 10))%Q as -> by (field).
    clearbody X A1 Z1 T E qa qr D D2 kq. lra. }
  pose proof (Qabs_nonneg (q * a)) as HX0.
  pose proof HD0 as HD0'. pose proof H2 as H2'.
  apply Qabs_Qle_condition in HD0, H2, H3, H5.
  pose proof (Qabs_nonneg (q * rho)). pose proof (Qabs_nonneg z).
  pose proof (Qabs_nonneg (inject_Z k / 10)).
  pose proof (Qabs_Qle_condition (q * a) (Qabs (q * a))) as [Hqa _].
  specialize (Hqa (Qle_refl _)).
  apply Qabs_Qle_condition. unfold roundoff in *.
  set (X := Qabs (q * a)) in *. set (A1 := Qabs (q * rho)) in *.
  set (Z1 := Qabs z) in *. set (T := (Qabs q * tiny)%Q) in *.
  set (E := tiny) in *. set (qa := (q * a)%Q) in *.
  set (qr := (q * rho)%Q) in *. set (D := Qabs (qr - qa)) in *.
  set (D2 := Qabs (z - qr)) in *. set (kq := inject_Z k) in *.
  set (K := Qabs (kq / 10)) in *.
  assert (Hk10 : (kq / 10 == kq * (1 # 10))%Q) by field.
  rewrite Hk10 in H5.
  clearbody X A1 Z1 T E qa qr D D2 kq K. lra.
Qed.

Lemma rounded_bound (x y : Q) (n m : Z) :
  (Qabs x <= 2 ^ n)%Q -> (Qabs (y - x) <= roundoff * Qabs x + tiny)%Q ->
  (n + 1 <= m)%Z -> (0 <= n)%Z -> (Qabs y <= 2 ^ m)%Q.
Proof.
  intros Hx Hy Hnm Hn. destruct tiny_small as [He0 He1].
  pose proof (Qabs_add_le y x) as Ht. pose proof (Qabs_nonneg x) as H0.
  assert (H1 : (1 <= 2 ^ n)%Q).
  { change 1%Q with (2 ^ 0)%Q. by apply two_pow_le. }
  assert (H2 : (2 * 2 ^ n <= 2 ^ m)%Q).
  { rewrite <- two_pow_succ. by apply two_pow_le. }
  unfold roundoff in *. set (X := Qabs x) in *. set (Y := Qabs y) in *.
  set (D := Qabs (y - x)) in *. set (P := (2 ^ n)%Q) in *.
  set (R := (2 ^ m)%Q) in *. set (E := tiny) in *.
  clearbody X Y D P R E. lra.
Qed.

(** A rounding that stays finite gives a nearest double. *)
Lemma Number_value_nearest_double (x y : Q) :
  Number_value x = Fin y -> nearest_double x y.
Proof.
  intros H. split; [by apply (Number_value_is_double x)|].
  intros d Hd. by apply Number_value_nearest.
Qed.

Lemma Number_value_below (x y : Q) :
  Number_value x = Fin y -> (Qabs y < 2 ^ 1024)%Q.
Proof.
  intros H. apply Number_value_Fin in H as [[_ ->]|(_ & _ & H)]; [|done].
  apply two_pow_pos.
Qed.

Lemma top_power (n : Z) : (n <= 1023)%Z -> (2 ^ n <= 2 ^ 1023)%Q.
Proof. apply two_pow_le. Qed.

Lemma Qabs_div_ge_1 (p b : Q) : (1 <= b)%Q -> (Qabs (p / b) <= Qabs p)%Q.
Proof.
  intros Hb. unfold Qdiv. rewrite Qabs_Qmult, Qabs_Qinv, (Qabs_pos b) by lra.
  apply Qle_shift_div_r; [lra|]. pose proof (Qabs_nonneg p). nra.
Qed.

(** [Math.round(q * (p / b) * 10) / 10] for a base of at least 1: the
    operations one by one, and the distance to the exact quotient. *)
Lemma adjust_quantity_scaled (q p b : Q) :
  (1 <= b)%Q -> (Qabs q <= 2 ^ 900)%Q -> (Qabs p <= 2 ^ 100)%Q ->
  exists s,
    adjust_quantity q (num_div (Fin p) (Fin b)) = Fin s
    /\ scaled_in_doubles q p b s
    /\ close_to (1 # 20) (q * p / b) s.
Proof.
  intros Hb Hq Hp.
  assert (Hb0 : ~ (b == 0)%Q) by (intros E; rewrite E in Hb; lra).
  assert (Ha : (Qabs (p / b) <= 2 ^ 100)%Q).
  { eapply Qle_trans; [by apply Qabs_div_ge_1|exact Hp]. }
  destruct (Number_value_error (p / b)) as (rho & Hrho & Erho).
  { eapply Qle_trans; [exact Ha|]. apply top_power. lia. }
  pose proof (rounded_bound _ _ 100 101 Ha Erho ltac:(lia) ltac:(lia)) as Br.
  assert (Bqr : (Qabs (q * rho) <= 2 ^ 1001)%Q).
  { assert ((2 ^ 1001 == 2 ^ 900 * 2 ^ 101)%Q) as ->.
    { by rewrite <- Qpower_plus by (intros E; discriminate E). }
    by apply Qabs_mul_bound. }
  destruct (Number_value_error (q * rho)) as (z & Hz & Ez).
  { eapply Qle_trans; [exact Bqr|]. apply top_power. lia. }
  pose proof (rounded_bound _ _ 1001 1002 Bqr Ez ltac:(lia) ltac:(lia))
    as Bz.
  assert (Bz10 : (Qabs (z * 10) <= 2 ^ 1006)%Q).
  { assert ((2 ^ 1006 == 2 ^ 1002 * 2 ^ 4)%Q) as ->.
    { by rewrite <- Qpower_plus by (intros E; discriminate E). }
    apply Qabs_mul_bound; [done|]. unfold Qle. simpl. lia. }
  destruct (Number_value_error (z * 10)) as (y & Hy & Ey).
  { eapply Qle_trans; [exact Bz10|]. apply top_power. lia. }
  pose proof (rounded_bound _ _ 1006 1007 Bz10 Ey ltac:(lia) ltac:(lia))
    as By.
  set (k := Qfloor (y + (1 # 2))).
  destruct (Math_round_spec y) as [Hk1 Hk2]. fold k in Hk1, Hk2.
  assert (Bk : (Qabs (inject_Z k / 10) <= 2 ^ 1023)%Q).
  { assert (H1 : (2 ^ 1007 * 2 <= 2 ^ 1023)%Q).
    { assert ((2 ^ 1007 * 2 == 2 ^ 1008)%Q) as ->.
      { rewrite (two_pow_succ 1007). ring. }
      apply top_power. lia. }
    assert (H0 : (1 <= 2 ^ 1007)%Q).
    { change 1%Q with (2 ^ 0)%Q. apply two_pow_le. lia. }
    apply Qabs_Qle_condition in By. apply Qabs_Qle_condition.
    assert (inject_Z k / 10 == inject_Z k * (1 # 10))%Q as -> by field.
    set (kq := inject_Z k) in *. set (P := (2 ^ 1007)%Q) in *.
    set (R := (2 ^ 1023)%Q) in *. clearbody kq P R. lra. }
  destruct (Number_value_error (inject_Z k / 10) Bk) as (s & Hs & Es).
  exists s. split; [|split].
  - unfold adjust_quantity, num_div at 2. rewrite (Qsgn_nonzero b Hb0), Hrho.
    cbn [num_mul]. rewrite Hz. cbn [num_mul]. rewrite Hy. cbn [Math_round].
    fold k. unfold num_div. exact Hs.
  - exists rho, z, y, k.
    split; [by apply Number_value_nearest_double|].
    split; [by apply Number_value_nearest_double|].
    split; [by apply Number_value_nearest_double|].
    split; [by split|]. by apply Number_value_nearest_double.
  - unfold close_to.
    assert (q * p / b == q * (p / b))%Q as -> by (field; exact Hb0).
    by apply (scaling_accuracy q (p / b) rho z y s k).
Qed.

(** [Math.round((t / ref) * 100)] for a reference of at least 1. *)
Lemma percentage_percent (t ref : Q) :
  (1 <= ref)%Q -> (Qabs t <= 2 ^ 1000)%Q ->
  exists k : Z,
    percentage (Fin t) (Fin ref) = Fin (inject_Z k)
    /\ percent_in_doubles t ref k
    /\ close_to (1 # 2) (t / ref * 100) (inject_Z k).
Proof.
  intros Hb Ht.
  assert (Hb0 : ~ (ref == 0)%Q) by (intros E; rewrite E in Hb; lra).
  assert (Ha : (Qabs (t / ref) <= 2 ^ 1000)%Q).
  { eapply Qle_trans; [by apply Qabs_div_ge_1|exact Ht]. }
  destruct (Number_value_error (t / ref)) as (rho & Hrho & Erho).
  { eapply Qle_trans; [exact Ha|]. apply top_power. lia. }
  pose proof (rounded_bound _ _ 1000 1001 Ha Erho ltac:(lia) ltac:(lia))
    as Br.
  assert (Br100 : (Qabs (rho * 100) <= 2 ^ 1008)%Q).
  { assert ((2 ^ 1008 == 2 ^ 1001 * 2 ^ 7)%Q) as ->.
    { by rewrite <- Qpower_plus by (intros E; discriminate E). }
    apply Qabs_mul_bound; [done|]. unfold Qle. simpl. lia. }
  destruct (Number_value_error (rho * 100)) as (y & Hy & Ey).
  { eapply Qle_trans; [exact Br100|]. apply top_power. lia. }
  set (k := Qfloor (y + (1 # 2))).
  destruct (Math_round_spec y) as [Hk1 Hk2]. fold k in Hk1, Hk2.
  exists k. split; [|split].
  - unfold percentage, num_div. rewrite (Qsgn_nonzero ref Hb0), Hrho.
    cbn [num_mul]. by rewrite Hy.
  - exists rho, y.
    split; [by apply Number_value_nearest_double|].
    split; [by apply Number_value_nearest_double|]. by split.
  - unfold close_to. destruct tiny_small as [He0 He1].
    assert (H100 : (Qabs (rho * 100) == 100 * Qabs rho)%Q).
    { rewrite Qabs_Qmult. change (Qabs 100) with 100%Q. ring. }
    rewrite H100 in Ey.
    assert (H100' : (Qabs (t / ref * 100) == 100 * Qabs (t / ref))%Q).
    { rewrite Qabs_Qmult. change (Qabs 100) with 100%Q. ring. }
    rewrite H100'.
    pose proof (Qabs_add_le rho (t / ref)) as HR.
    pose proof (Qabs_nonneg (t / ref)). pose proof (Qabs_nonneg rho).
    pose proof Erho as Erho'.
    apply Qabs_Qle_condition in Erho, Ey. apply Qabs_Qle_condition.
    unfold roundoff in *. set (A := Qabs (t / ref)) in *.
    set (a := (t / ref)%Q) in *.
    set (R := Qabs rho) in *. set (D := Qabs (rho - a)) in *.
    set (E := tiny) in *. set (kq := inject_Z k) in *.
    clearbody A a R D E kq. lra.
Qed.

(** A total that is not finite stays as it is. *)
Lemma percentage_percent_of (total : number) (ref : Q) :
  (1 <= ref)%Q -> percent_of total ref (percentage total (Fin ref)).
Proof.
  intros Hb.
  assert (Hs : Qsgn ref = 1%Z).
  { unfold Qsgn. destruct ref as [n d]. unfold Qle in Hb. simpl in *.
    apply Z.sgn_pos. lia. }
  destruct total as [t| | |]; unfold percent_of.
  - destruct (Qlt_le_dec (2 ^ 1000) (Qabs t)) as [Hbig|Hsmall]; [by left|].
    right. by apply percentage_percent.
  - unfold percentage, num_div. by rewrite Hs.
  - unfold percentage, num_div. by rewrite Hs.
  - done.
Qed.

(** [Math.round(x * 100) / 100] *)
Lemma round2_two_decimals (x : number) : round2 x = two_decimals x.
Proof.
  destruct x as [v| | |]; try done.
  unfold round2, two_decimals. cbn [num_mul].
  by destruct (Number_value (v * 100)).
Qed.

Lemma two_decimals_in (x : number) : in_two_decimals x (two_decimals x).
Proof.
  destruct x as [v| | |]; try done. unfold in_two_decimals.
  destruct (Qlt_le_dec (2 ^ 1000) (Qabs v)) as [Hbig|Hv]; [by left|]. right.
  assert (B100 : (Qabs (v * 100) <= 2 ^ 1007)%Q).
  { assert ((2 ^ 1007 == 2 ^ 1000 * 2 ^ 7)%Q) as ->.
    { by rewrite <- Qpower_plus by (intros E; discriminate E). }
    apply Qabs_mul_bound; [done|]. unfold Qle. simpl. lia. }
  destruct (Number_value_error (v * 100)) as (y & Hy & Ey).
  { eapply Qle_trans; [exact B100|]. apply top_power. lia. }
  pose proof (rounded_bound _ _ 1007 1008 B100 Ey ltac:(lia) ltac:(lia))
    as By.
  set (k := Qfloor (y + (1 # 2))).
  destruct (Math_round_spec y) as [Hk1 Hk2]. fold k in Hk1, Hk2.
  assert (Bk : (Qabs (inject_Z k / 100) <= 2 ^ 1023)%Q).
  { assert (H1 : (2 ^ 1008 * 2 <= 2 ^ 1023)%Q).
    { assert ((2 ^ 1008 * 2 == 2 ^ 1009)%Q) as ->.
      { rewrite (two_pow_succ 1008). ring. }
      apply top_power. lia. }
    assert (H0 : (1 <= 2 ^ 1008)%Q).
    { change 1%Q with (2 ^ 0)%Q. apply two_pow_le. lia. }
    apply Qabs_Qle_condition in By. apply Qabs_Qle_condition.
    assert (inject_Z k / 100 == inject_Z k * (1 # 100))%Q as -> by field.
    set (kq := inject_Z k) in *. set (P := (2 ^ 1008)%Q) in *.
    set (R := (2 ^ 1023)%Q) in *. clearbody kq P R. lra. }
  destruct (Number_value_error (inject_Z k / 100) Bk) as (d & Hd & _).
  exists y, d, k. unfold two_decimals. rewrite Hy. fold k.
  split; [by apply Number_value_nearest_double|].
  split; [by split|].
  split; [by apply Number_value_nearest_double|]. exact Hd.
Qed.

Lemma Number_value_1 : Number_value 1 = Fin 1.
Proof. reflexivity. Qed.

(** Scaling by the ratio of a number to itself gives a quantity of one
    decimal back. *)
Lemma adjust_quantity_same_base (q p : Q) (k : Z) :
  ~ (p == 0)%Q ->
  Number_value (inject_Z k / 10) = Fin q ->
  (Z.abs k <= 2 ^ 50)%Z ->
  adjust_quantity q (num_div (Fin p) (Fin p)) = Fin q.
Proof.
  intros Hp Hq Hk.
  assert (Hratio : num_div (Fin p) (Fin p) = Fin 1).
  { unfold num_div. rewrite (Qsgn_nonzero p Hp).
    rewrite (Number_value_proper (p / p) 1), Number_value_1; [done|].
    by field. }
  assert (Bk : (Qabs (inject_Z k) <= 2 ^ 50)%Q).
  { rewrite Qabs_inject_Z. assert ((2 ^ 50 == inject_Z (2 ^ 50))%Q) as ->
      by reflexivity. by rewrite <- Zle_Qle. }
  assert (Bk10 : (Qabs (inject_Z k / 10) <= 2 ^ 50)%Q).
  { apply Qabs_Qle_condition in Bk. apply Qabs_Qle_condition.
    assert (inject_Z k / 10 == inject_Z k * (1 # 10))%Q as -> by field.
    pose proof (two_pow_pos 50).
    set (kq := inject_Z k) in *. set (P := (2 ^ 50)%Q) in *.
    clearbody kq P. lra. }
  destruct (Number_value_error (inject_Z k / 10)) as (q' & Hq' & Eq).
  { eapply Qle_trans; [exact Bk10|]. apply two_pow_le. lia. }
  rewrite Hq in Hq'. injection Hq' as <-.
  pose proof (rounded_bound _ _ 50 51 Bk10 Eq ltac:(lia) ltac:(lia)) as Bq.
  assert (Bq10 : (Qabs (q * 10) <= 2 ^ 55)%Q).
  { assert ((2 ^ 55 == 2 ^ 51 * 2 ^ 4)%Q) as -> by reflexivity.
    apply Qabs_mul_bound; [done|]. unfold Qle. simpl. lia. }
  destruct (Number_value_error (q * 10)) as (y & Hy & Ey).
  { eapply Qle_trans; [exact Bq10|]. apply two_pow_le. lia. }
  assert (Hround : Qfloor (y + (1 # 2)) = k).
  { destruct tiny_small as [He0 He1].
    assert (H10 : (Qabs (q * 10) == 10 * Qabs q)%Q).
    { rewrite Qabs_Qmult. change (Qabs 10) with 10%Q. ring. }
    rewrite H10 in Ey.
    assert (H10' : (Qabs (inject_Z k / 10) == Qabs (inject_Z k) * (1 # 10))%Q).
    { unfold Qdiv. rewrite Qabs_Qmult. reflexivity. }
    rewrite H10' in Eq.
    assert (Hk10 : (inject_Z k / 10 == inject_Z k * (1 # 10))%Q) by field.
    rewrite Hk10 in Eq.
    assert (P50 : (2 ^ 50 == 1125899906842624)%Q) by reflexivity.
    assert (P51 : (2 ^ 51 == 2251799813685248)%Q) by reflexivity.
    rewrite P50 in Bk. rewrite P51 in Bq.
    pose proof (Qabs_nonneg q). pose proof (Qabs_nonneg (inject_Z k)).
    pose proof (Qabs_add_le q (inject_Z k * (1 # 10))) as Hq10.
    assert (H10'' : (Qabs (inject_Z k * (1 # 10))
                     == Qabs (inject_Z k) * (1 # 10))%Q).
    { rewrite Qabs_Qmult. reflexivity. }
    rewrite H10'' in Hq10. pose proof Eq as Eq'.
    apply Qabs_Qle_condition in Ey, Eq.
    unfold roundoff in *. set (A := Qabs q) in *.
    set (K := Qabs (inject_Z k)) in *.
    set (kq := inject_Z k) in *. set (E := tiny) in *.
    set (D := Qabs (q - kq * (1 # 10))) in *.
    apply Math_round_unique; fold kq; clearbody A K kq E D; lra. }
  unfold adjust_quantity. rewrite Hratio. cbn [num_mul].
  rewrite (Number_value_proper (q * 1) q) by ring.
  rewrite (Number_value_idem _ _ Hq). cbn [num_mul]. rewrite Hy.
  cbn [Math_round]. rewrite Hround. unfold num_div.
  change (Qsgn 10 =? 0)%Z with false. exact Hq.
Qed.

(** *** The model against the kernel's binary64 *)

Module KernelFloats.
Import PrimFloat.

Example product_of_three :
  of_float (27 * (13 / 12) * 10)%float
  = num_mul (num_mul (Fin 27) (num_div (Fin 13) (Fin 12))) (Fin 10).
Proof. vm_compute. reflexivity. Qed.

Example quotient_times_100 :
  of_float (290 / 2000 * 100)%float
  = num_mul (num_div (Fin 290) (Fin 2000)) (Fin 100).
Proof. vm_compute. reflexivity. Qed.

Example sum_of_tenths :
  of_float (1 / 10 + 2 / 10)%float
  = num_add (num_div (Fin 1) (Fin 10)) (num_div (Fin 2) (Fin 10)).
Proof. vm_compute. reflexivity. Qed.

Example half_of_the_least_subnormal :
  of_float (0x1p-1074 / 2)%float = num_div (of_float 0x1p-1074%float) (Fin 2).
Proof. vm_compute. reflexivity. Qed.

Example three_halves_of_the_least_subnormal :
  of_float (0x1p-1074 * (3 / 2))%float
  = num_mul (of_float 0x1p-1074%float) (num_div (Fin 3) (Fin 2)).
Proof. vm_compute. reflexivity. Qed.

Example twice_the_greatest_double :
  of_float (0x1.fffffffffffffp+1023 * 2)%float
  = num_mul (of_float 0x1.fffffffffffffp+1023%float) (Fin 2).
Proof. vm_compute. reflexivity. Qed.

Example just_below_overflow :
  of_float (0x1.fffffffffffffp+1023 + 0x1p+969)%float
  = num_add (of_float 0x1.fffffffffffffp+1023%float) (of_float 0x1p+969%float).
Proof. vm_compute. reflexivity. Qed.

Example overflow_at_the_tie :
  of_float (0x1.fffffffffffffp+1023 + 0x1p+970)%float
  = num_add (of_float 0x1.fffffffffffffp+1023%float) (of_float 0x1p+970%float).
Proof. vm_compute. reflexivity. Qed.

Example tie_to_the_even_below :
  of_float (9007199254740992 + 1)%float
  = num_add (Fin 9007199254740992) (Fin 1)
  /\ num_add (Fin 9007199254740992) (Fin 1) = Fin 9007199254740992.
Proof. split; vm_compute; reflexivity. Qed.

Example tie_to_the_even_above :
  of_float (9007199254740992 + 3)%float
  = num_add (Fin 9007199254740992) (Fin 3)
  /\ num_add (Fin 9007199254740992) (Fin 3) = Fin 9007199254740996.
Proof. split; vm_compute; reflexivity. Qed.

Example a_third :
  of_float (1 / 3)%float = num_div (Fin 1) (Fin 3).
Proof. vm_compute. reflexivity. Qed.

Example thresholds :
  [of_float (7 / 10)%float; of_float (8 / 10)%float;
   of_float (12 / 10)%float; of_float (13 / 10)%float]
  = [Fin double_0_7; Fin double_0_8; Fin double_1_2; Fin double_1_3].
Proof. vm_compute. reflexivity. Qed.
End KernelFloats.

Example thresholds_of_evaluateNutrition :
  [Number_value (7 # 10); Number_value (8 # 10); Number_value (12 # 10);
   Number_value (13 # 10)]
  = [Fin double_0_7; Fin double_0_8; Fin double_1_2; Fin double_1_3].
Proof. vm_compute. reflexivity. Qed.

(** ** Serving scaler *)

Lemma nearest_integer_unique (y : Q) (k k' : Z) :
  nearest_integer y k -> nearest_integer y k' -> k = k'.
Proof.
  intros [H1 H2] [H3 H4].
  rewrite <- (Math_round_unique y k H1 H2). by apply Math_round_unique.
Qed.

Lemma rounds_half_up_integer (scale : Z) (x s : Q) (k : Z) :
  rounds_half_up scale x s ->
  nearest_integer (x * inject_Z scale) k ->
  (s == inject_Z k / inject_Z scale)%Q.
Proof.
  intros (k' & Hs & Hlo & Hhi) Hk.
  by rewrite (nearest_integer_unique _ k k' Hk (conj Hlo Hhi)).
Qed.

(** A double that is nearer shows that a value is not a nearest double. *)
Lemma not_nearest_double (x d d' : Q) :
  is_double d' -> (Qabs (d' - x) < Qabs (d - x))%Q -> ~ nearest_double x d.
Proof.
  intros Hd' Hlt [_ H]. specialize (H d' Hd'). lra.
Qed.

Lemma adjust_recipe_portion (people : Z) (recipe : Recipe.t) (base : option Q)
    (ingredients : list Ingredient.t) (seasonings : option (list Seasoning.t)) :
  Recipe.标准份量 recipe = Some (mkPortion base (Some ingredients) seasonings) ->
  Recipe.调整后食材 (adjust_recipe people recipe)
  = Some (map (fun i =>
                 Adjusted.mk i
                   (Num (adjust_quantity (Ingredient.用量 i)
                           (num_div (Fin (inject_Z people)) (to_number base)))))
              ingredients).
Proof.
  intros Hp. unfold adjust_recipe. rewrite Hp.
  cbn [JSON_clone Recipe.标准份量]. rewrite Hp. reflexivity.
Qed.

(** C1, as amended.  For a recipe whose 标准份量 gives a base serving count
    of at least 1 and an ingredient list, [adjustServings] attaches a list
    调整后食材 with one entry per ingredient, in order: the ingredient itself
    and the quantity that [Math.round(用量 * (people / base) * 10) / 10]
    comes to in doubles, each operation giving a double nearest to its exact
    result and [Math.round] the nearest integer.  That quantity lies within
    0.05, and a relative error of [2 ^ -50], of the authored quantity times
    people over base.  Quantities range up to [2 ^ 900] and the party size
    up to [2 ^ 100] in magnitude. *)
Theorem adjust_recipe_scaling_law
    (people : Z) (recipe : Recipe.t) (portion : Portion) (b : Q)
    (ingredients : list Ingredient.t) :
  Recipe.标准份量 recipe = Some portion ->
  基准人数 portion = Some b ->
  (1 <= b)%Q ->
  食材列表 portion = Some ingredients ->
  (Z.abs people <= 2 ^ 100)%Z ->
  Forall (fun i => (Qabs (Ingredient.用量 i) <= 2 ^ 900)%Q) ingredients ->
  exists scaled,
    Recipe.调整后食材 (adjust_recipe people recipe) = Some scaled
    /\ Forall2
         (fun i a =>
            Adjusted.ingredient a = i
            /\ exists s,
                 Adjusted.调整用量 a = Num (Fin s)
                 /\ scaled_in_doubles (Ingredient.用量 i) (inject_Z people) b s
                 /\ close_to (1 # 20)
                      (Ingredient.用量 i * inject_Z people / b) s)
         ingredients scaled.
Proof.
  intros Hp Hb Hge Hi Hpeople Hsmall.
  destruct portion as [base ings seasonings]. simpl in Hb, Hi. subst.
  rewrite (adjust_recipe_portion people recipe _ _ _ Hp).
  eexists. split; [reflexivity|].
  apply Forall2_fmap_r, Forall_Forall2_diag.
  eapply Forall_impl; [exact Hsmall|]. intros i Hq. cbn beta.
  split; [reflexivity|]. cbn [Adjusted.调整用量 to_number].
  destruct (adjust_quantity_scaled (Ingredient.用量 i) (inject_Z people) b)
    as (s & Hs & Hchain & Hclose); [done|done| |].
  - rewrite Qabs_inject_Z.
    assert ((2 ^ 100 == inject_Z (2 ^ 100))%Q) as -> by reflexivity.
    by rewrite <- Zle_Qle.
  - exists s. by rewrite Hs.
Qed.

(** SPRING001, authored for six, at four people. *)
Lemma adjust_recipe_scaling_law_witness :
  exists scaled,
    Recipe.调整后食材 (adjust_recipe 4 SPRING001) = Some scaled
    /\ Forall2
         (fun i a =>
            Adjusted.ingredient a = i
            /\ exists s,
                 Adjusted.调整用量 a = Num (Fin s)
                 /\ scaled_in_doubles (Ingredient.用量 i) (inject_Z 4) 6 s
                 /\ close_to (1 # 20) (Ingredient.用量 i * inject_Z 4 / 6) s)
         [Ingredient.mk "春笋" 500 (Some "克");
          Ingredient.mk "猪里脊肉" 300 (Some "克")]
         scaled.
Proof.
  apply (adjust_recipe_scaling_law 4 SPRING001 _ 6 _ eq_refl eq_refl);
    [|reflexivity|lia|].
  - unfold Qle; simpl; lia.
  - repeat constructor; apply Qle_bool_iff; vm_compute; reflexivity.
Defined.

(** At four people SPRING001 gets the doubles written 333.3 and 200. *)
Example adjust_SPRING001_for_4 :
  map Adjusted.调整用量 (default [] (Recipe.调整后食材 (adjust_recipe 4 SPRING001)))
  = [Num (Fin (5863475608603853 # 17592186044416)); Num (Fin 200)].
Proof. vm_compute. reflexivity. Qed.

(** 27 g for twelve scaled to thirteen: 27 * 13 / 12 is 29.25, and the code
    comes to the double written 29.2, since the product it rounds is
    292.49999999999994. *)
Example adjust_ginger_for_13 :
  map Adjusted.调整用量
      (default [] (Recipe.调整后食材 (adjust_recipe 13 ginger_dish)))
  = [Num (Fin (8219069319951155 # 281474976710656))]
  /\ num_mul (num_mul (Fin 27) (num_div (Fin 13) (Fin 12))) (Fin 10)
     = Fin (5145714417991679 # 17592186044416).
Proof. split; vm_compute; reflexivity. Qed.

(** C1 as stated fails twice.  The salt of the seasoned SPRING001 has no
    scaled quantity in the recipe derived for 12 people; and the ginger
    scaled to thirteen is the double written 29.2 where 29.25 rounded half
    up to one decimal is 29.3. *)
Lemma scaling_law_counterexamples :
  ~ scaling_law_as_specified 12 SPRING001_seasoned
  /\ ~ scaling_law_as_specified 13 ginger_dish.
Proof.
  split; intros H.
  - destruct (H _ 6%Q eq_refl eq_refl) with (name := "盐") (q := 5%Q)
      as (a & s & r & Hin & Hname & _).
    + unfold Qle; simpl; lia.
    + simpl. auto.
    + unfold Qle; simpl; lia.
    + simpl in Hin. destruct Hin as [<-|[<-|[]]]; discriminate Hname.
  - destruct (H _ 12%Q eq_refl eq_refl) with (name := "姜") (q := 27%Q)
      as (a & s & r & Hin & _ & Hs & Hr & Hnear).
    + unfold Qle; simpl; lia.
    + simpl. auto.
    + unfold Qle; simpl; lia.
    + rewrite (adjust_recipe_portion 13 ginger_dish _ _ _ eq_refl) in Hin.
      destruct Hin as [<-|[]]. cbn [Adjusted.调整用量] in Hs.
      assert (E : adjust_quantity 27 (num_div (Fin (inject_Z 13)) (Fin 12))
                  = Fin (8219069319951155 # 281474976710656))
        by (vm_compute; reflexivity).
      cbn [to_number Ingredient.用量] in Hs. rewrite E in Hs.
      injection Hs as <-.
      assert (Hr' : (r == inject_Z 293 / inject_Z 10)%Q).
      { apply (rounds_half_up_integer 10 _ r 293 Hr).
        split; [apply Qle_bool_iff|]; vm_compute; reflexivity. }
      revert Hnear.
      apply (not_nearest_double _ _ (8247216817622221 # 281474976710656)).
      * exists 8247216817622221%Z, (-48)%Z.
        split; [vm_compute; reflexivity|]. lia.
      * rewrite Hr'. vm_compute. reflexivity.
Qed.

(** ** Filter pipeline *)

Lemma includes_In (l : list string) (s : string) :
  includes l s = true <-> In s l.
Proof.
  unfold includes. rewrite existsb_exists. split.
  - intros (x & Hx & E). apply String.eqb_eq in E. by subst.
  - intros H. exists s. split; [done|]. apply String.eqb_refl.
Qed.

Lemma season_rejects_false params recipe :
  season_rejects params recipe = false <-> season_passes params recipe.
Proof.
  unfold season_rejects, season_passes.
  destruct (String.eqb_spec (Params.季节 params) "不限") as [E|E]; simpl.
  - tauto.
  - destruct (Recipe.适用季节 recipe) as [seasons|]; [|tauto].
    rewrite negb_false_iff, includes_In. split.
    + intros H. right. right. by exists seasons.
    + intros [H|[H|(l & [= <-] & H)]]; done.
Qed.

Lemma difficulty_rejects_false params recipe :
  difficulty_rejects params recipe = false <-> difficulty_ok params recipe.
Proof.
  unfold difficulty_rejects, difficulty_ok, truthy_string.
  destruct (String.eqb_spec (Params.难度等级 params) "不限") as [E|E]; simpl.
  - tauto.
  - destruct (Recipe.难度等级 recipe) as [d|]; [|tauto].
    destruct (String.eqb_spec d "") as [-> |Hd]; simpl; [tauto|].
    destruct (String.eqb_spec d (Params.难度等级 params)) as [-> |Hp]; simpl.
    + tauto.
    + split; [done|]. intros [H|[H|[H|H]]]; congruence.
Qed.

Lemma time_rejects_false params recipe :
  time_rejects params recipe = false <-> time_ok params recipe.
Proof.
  unfold time_rejects, time_ok, truthy_Z.
  destruct (Params.烹饪时间 params) as [m|]; simpl; [|tauto].
  destruct (Z.eqb_spec m 0) as [-> |Hm]; simpl; [tauto|].
  destruct (Recipe.烹饪时间 recipe) as [c|]; simpl; [|tauto].
  destruct (Z.eqb_spec c 0) as [-> |Hc]; simpl; [tauto|].
  rewrite Z.ltb_ge. split.
  - intros H. do 4 right. by exists c, m.
  - intros [H|[H|[H|[H|(c' & m' & [= <-] & [= <-] & H)]]]]; congruence || done.
Qed.

Lemma keeps_true params recipe :
  keeps params recipe = true
  <-> season_passes params recipe /\ difficulty_ok params recipe
      /\ time_ok params recipe.
Proof.
  rewrite <- season_rejects_false, <- difficulty_rejects_false,
    <- time_rejects_false.
  unfold keeps.
  destruct (season_rejects params recipe), (difficulty_rejects params recipe),
    (time_rejects params recipe); intuition congruence.
Qed.

Lemma filter_sublist {A} (f : A -> bool) (l : list A) :
  List.filter f l `sublist_of` l.
Proof.
  induction l as [|x l IH]; simpl; [constructor|].
  destruct (f x); by constructor.
Qed.

(** With no empty season list around, the code's season test is the
    contract's. *)
Lemma season_passes_ok params recipe :
  Recipe.适用季节 recipe <> Some [] ->
  season_passes params recipe <-> season_ok params recipe.
Proof.
  unfold season_passes, season_ok. tauto.
Qed.

(** C4, as amended.  For a catalog in which no recipe has an empty season
    list and a request without exclusions, [filterRecipes] returns, in
    catalog order, exactly the recipes that satisfy four predicates.  Season
    and exclusions are those of the contract.  Difficulty: the requested
    level is 不限, or the recipe has no level or an empty one, or the two
    levels are equal.  Time: the limit or the recipe's 烹饪时间 is missing or
    0, or 烹饪时间 is at most the limit; 准备时间 plays no part. *)
Theorem filterRecipes_contract (recipes : list Recipe.t) (params : Params.t) :
  Params.特殊需求 params = [] ->
  Forall (fun r => Recipe.适用季节 r <> Some []) recipes ->
  filterRecipes recipes params `sublist_of` recipes
  /\ forall recipe,
       In recipe (filterRecipes recipes params)
       <-> In recipe recipes
           /\ season_ok params recipe
           /\ difficulty_ok params recipe
           /\ time_ok params recipe
           /\ exclusions_ok params recipe.
Proof.
  intros Hnone Hseasons. split; [apply filter_sublist|].
  intros recipe. unfold filterRecipes. rewrite filter_In, keeps_true.
  assert (Hex : exclusions_ok params recipe).
  { unfold exclusions_ok. rewrite Hnone. intros tag _ []. }
  split.
  - intros (Hin & Hs & Hd & Ht). repeat split; try done.
    apply season_passes_ok; [|done].
    rewrite Forall_forall in Hseasons. apply Hseasons.
    by apply list_elem_of_In.
  - intros (Hin & Hs & Hd & Ht & _). repeat split; try done.
    apply season_passes_ok; [|done].
    rewrite Forall_forall in Hseasons. apply Hseasons.
    by apply list_elem_of_In.
Qed.

(** The two sample recipes in spring: the cucumber salad is a summer dish. *)
Lemma filterRecipes_contract_witness :
  filterRecipes [SPRING001; SUMMER001] spring_request
    `sublist_of` [SPRING001; SUMMER001]
  /\ forall recipe,
       In recipe (filterRecipes [SPRING001; SUMMER001] spring_request)
       <-> In recipe [SPRING001; SUMMER001]
           /\ season_ok spring_request recipe
           /\ difficulty_ok spring_request recipe
           /\ time_ok spring_request recipe
           /\ exclusions_ok spring_request recipe.
Proof.
  apply (filterRecipes_contract [SPRING001; SUMMER001] spring_request);
    [reflexivity|].
  repeat constructor; discriminate.
Defined.

Example filterRecipes_samples :
  filterRecipes [SPRING001; SUMMER001] spring_request = [SPRING001].
Proof. reflexivity. Qed.

Example filterRecipes_capped :
  filterRecipes [SPRING001; spicy_dish; slow_dish; seasonless_dish]
    capped_request
  = [spicy_dish; slow_dish].
Proof. reflexivity. Qed.

Example spec_filter_capped :
  spec_filter [SPRING001; spicy_dish; slow_dish; seasonless_dish]
    capped_request
  = [SPRING001; seasonless_dish].
Proof. reflexivity. Qed.

(** C4 as stated fails on each of the four predicates.  Under a 中级
    ceiling, a 120 minute budget and the exclusion 辣, the code drops the
    初级 recipe and the one with an empty season list, which the contract
    admits, and keeps the dish tagged 辣 and the one taking 130 minutes,
    which the contract excludes. *)
Lemma filterRecipes_differs_from_contract :
  filterRecipes [SPRING001; spicy_dish; slow_dish; seasonless_dish]
    capped_request
  <> spec_filter [SPRING001; spicy_dish; slow_dish; seasonless_dish]
       capped_request.
Proof. rewrite filterRecipes_capped, spec_filter_capped. discriminate. Qed.

Lemma relaxed_keeps params recipe :
  keeps (Params.with_难度等级 params "不限") recipe
  = negb (season_rejects params recipe) && negb (time_rejects params recipe).
Proof.
  unfold keeps, difficulty_rejects, season_rejects, time_rejects.
  destruct params; simpl.
  repeat match goal with
         | |- context [if ?b then _ else _] => destruct b; simpl
         end; reflexivity.
Qed.

(** C3.  The relaxed pass is the filter without the difficulty test.  When
    the strict pass leaves fewer than 10 recipes, [filterRecipes] is run a
    second time, relaxed, and [recommend] goes on with that result whatever
    its size; otherwise [filterRecipes] is run once and [recommend] goes on
    with the strict result. *)
Theorem recommend_relaxation
    (R : RandomSource) (g : rng R) (recipes : list Recipe.t)
    (params : Params.t) :
  let strict := filterRecipes recipes params in
  let unbounded := Params.with_难度等级 params "不限" in
  let relaxed := filterRecipes recipes unbounded in
  relaxed
  = List.filter (fun r => negb (season_rejects params r)
                          && negb (time_rejects params r)) recipes
  /\ ((length strict < 10
       /\ filter_stage recipes params = (relaxed, [params; unbounded])
       /\ recommend R g recipes params = compose_menu R g relaxed params)
      \/ (10 <= length strict
          /\ filter_stage recipes params = (strict, [params])
          /\ recommend R g recipes params = compose_menu R g strict params)).
Proof.
  intros strict unbounded relaxed. split.
  - unfold relaxed, filterRecipes. apply filter_ext. intros r.
    apply relaxed_keeps.
  - unfold recommend, filtered_for, filter_stage. fold strict.
    destruct (Nat.ltb_spec (length strict) 10); [left|right]; done.
Qed.

(** Nine 初级 recipes and three 高级 ones under a 初级 request: the strict
    pass finds nine, the second pass all twelve. *)
Example nine_matches_relax :
  let catalog := (replicate 9 SPRING001 ++ replicate 3 advanced_dish)%list in
  length (filterRecipes catalog beginner_request) = 9%nat
  /\ filtered_for catalog beginner_request = catalog.
Proof. split; reflexivity. Qed.

Example ten_matches_do_not_relax :
  let catalog := (replicate 10 SPRING001 ++ replicate 3 advanced_dish)%list in
  filtered_for catalog beginner_request = replicate 10 SPRING001.
Proof. reflexivity. Qed.

(** ** Category selector *)

Lemma take_of_permutation_drawn (l shuffled : list Recipe.t) (n : nat) :
  shuffled ≡ₚ l ->
  exists positions : list nat,
    NoDup positions
    /\ Forall2 (fun i r => l !! i = Some r) positions (take n shuffled).
Proof.
  intros Hp. apply Permutation_inj in Hp as (Hlen & f & Hf & Hlook).
  exists (f <$> seq 0 (length (take n shuffled))). split.
  - apply NoDup_fmap; [done|apply NoDup_seq].
  - apply Forall2_lookup. intros i.
    rewrite list_lookup_fmap.
    destruct (decide (i < length (take n shuffled))) as [Hi|Hi].
    + rewrite lookup_seq_lt by done. simpl.
      destruct (lookup_lt_is_Some_2 _ _ Hi) as [r Hr]. rewrite Hr.
      constructor. rewrite <- Hlook.
      rewrite lookup_take_Some in Hr. by destruct Hr.
    + rewrite lookup_seq_ge by lia. rewrite lookup_ge_None_2 by lia.
      constructor.
Qed.

Lemma randomSelect_drawn (R : RandomSource) (g : rng R) (l : list Recipe.t)
    (n : nat) :
  drawn l n (randomSelect R g l n).1.
Proof.
  unfold randomSelect.
  pose proof (sort_random_perm R g l) as Hp.
  destruct (sort_random R g l) as [shuffled g']; simpl in *.
  split.
  - rewrite length_take. rewrite (Permutation_length Hp). lia.
  - by apply take_of_permutation_drawn.
Qed.

Lemma drawn_nil (n : nat) : drawn [] n [].
Proof. split; [done|]. exists []. split; constructor. Qed.

Lemma drawn_In (l sel : list Recipe.t) (n : nat) :
  drawn l n sel -> Forall (fun r => In r l) sel.
Proof.
  intros (_ & positions & _ & H).
  induction H as [|i r positions sel Hi _ IH]; constructor; [|done].
  apply list_elem_of_In. by eapply list_elem_of_lookup_2.
Qed.

Lemma length_zero_nil {A} (l : list A) : (length l =? 0)%nat = true -> l = [].
Proof. destruct l; [done|discriminate]. Qed.

Section SelectionFacts.
Context (R : RandomSource).

(** The four selectors differ only in the count they ask for. *)
Ltac selector :=
  match goal with
  | |- context [(length ?l =? 0)%nat] =>
      let E := fresh "E" in
      destruct (length l =? 0)%nat eqn:E;
      [rewrite (length_zero_nil l E); apply drawn_nil
      |apply randomSelect_drawn]
  end.

Lemma selectMainDishes_drawn g l params :
  drawn l (main_count params) (selectMainDishes R g l params).1.
Proof. unfold selectMainDishes. selector. Qed.

Lemma selectSideDishes_drawn g l params :
  drawn l (side_count params) (selectSideDishes R g l params).1.
Proof. unfold selectSideDishes. selector. Qed.

Lemma selectSoups_drawn g l params :
  drawn l 1 (selectSoups R g l params).1.
Proof. unfold selectSoups. selector. Qed.

Lemma selectStaples_drawn g l params :
  drawn l 1 (selectStaples R g l params).1.
Proof. unfold selectStaples. selector. Qed.

Lemma select_menu_shape g filtered params :
  exists mains sides soups staples,
    (select_menu R g filtered params).1
    = [("主菜", mains); ("配菜", sides); ("汤品", soups); ("主食", staples)]
    /\ drawn (bucket "主菜" filtered) (main_count params) mains
    /\ drawn (bucket "配菜" filtered) (side_count params) sides
    /\ drawn (bucket "汤品" filtered) 1 soups
    /\ drawn (bucket "主食" filtered) 1 staples.
Proof.
  unfold select_menu.
  pose proof (selectMainDishes_drawn g (bucket "主菜" filtered) params) as H1.
  destruct (selectMainDishes R g (bucket "主菜" filtered) params)
    as [mains g1].
  pose proof (selectSideDishes_drawn g1 (bucket "配菜" filtered) params) as H2.
  destruct (selectSideDishes R g1 (bucket "配菜" filtered) params)
    as [sides g2].
  pose proof (selectSoups_drawn g2 (bucket "汤品" filtered) params) as H3.
  destruct (selectSoups R g2 (bucket "汤品" filtered) params) as [soups g3].
  pose proof (selectStaples_drawn g3 (bucket "主食" filtered) params) as H4.
  destruct (selectStaples R g3 (bucket "主食" filtered) params)
    as [staples g4].
  by exists mains, sides, soups, staples.
Qed.

Lemma recommend_menu g recipes params :
  (recommend R g recipes params).1
  = adjustServings (select_menu R g (filtered_for recipes params) params).1
      (Params.用餐人数 params).
Proof.
  unfold recommend, compose_menu.
  by destruct (select_menu R g (filtered_for recipes params) params).
Qed.
End SelectionFacts.

Lemma main_count_target params :
  main_count params = spec_target "主菜" (Params.用餐人数 params).
Proof. reflexivity. Qed.

Lemma side_count_target params :
  side_count params = spec_target "配菜" (Params.用餐人数 params).
Proof.
  unfold side_count, spec_target. simpl.
  destruct (Z.leb_spec (Params.用餐人数 params) 4); [done|].
  destruct (Z.leb_spec 5 (Params.用餐人数 params)); [|lia].
  reflexivity.
Qed.

(** C6.  For each of the four categories the selection holds
    min(bucket size, target) recipes, the target being that of the table,
    and they stand at pairwise distinct positions of the category's bucket;
    the menu lists exactly these recipes, each passed through the scaler. *)
Theorem selection_bound
    (R : RandomSource) (g : rng R) (recipes : list Recipe.t)
    (params : Params.t) :
  let filtered := filtered_for recipes params in
  let people := Params.用餐人数 params in
  Forall
    (fun category =>
       exists selected,
         property category (select_menu R g filtered params).1 = Some selected
         /\ drawn (bucket category filtered) (spec_target category people)
              selected
         /\ property category (recommend R g recipes params).1
            = Some (map (adjust_recipe people) selected))
    ["主菜"; "配菜"; "汤品"; "主食"].
Proof.
  intros filtered people. rewrite recommend_menu. fold filtered. fold people.
  destruct (select_menu_shape R g filtered params)
    as (mains & sides & soups & staples & -> & H1 & H2 & H3 & H4).
  rewrite main_count_target in H1. rewrite side_count_target in H2.
  repeat constructor; eexists; (split; [reflexivity|]); split; done.
Qed.

(** Pairwise distinct positions give pairwise distinct recipes when the
    bucket lists no recipe twice. *)
Lemma drawn_NoDup (l sel : list Recipe.t) (n : nat) :
  NoDup l -> drawn l n sel -> NoDup sel.
Proof.
  intros Hl (_ & positions & Hnd & H).
  induction H as [|i r positions sel Hi H IH]; [constructor|].
  apply NoDup_cons in Hnd as [Hi' Hnd]. apply NoDup_cons. split; [|auto].
  intros Hr. apply list_elem_of_lookup in Hr as [k Hk].
  destruct (Forall2_lookup_r _ _ _ _ _ H Hk) as (j & Hj & Hlj).
  assert (i = j) as -> by exact (NoDup_lookup l i j r Hl Hi Hlj).
  apply Hi'. by eapply list_elem_of_lookup_2.
Qed.

(** ** Shape of the menu *)

Lemma adjust_recipe_菜品分类 people recipe :
  Recipe.菜品分类 (adjust_recipe people recipe) = Recipe.菜品分类 recipe.
Proof.
  unfold adjust_recipe, JSON_clone.
  destruct (Recipe.标准份量 recipe) as [[base [ingredients|] seasonings]|];
    reflexivity.
Qed.

Lemma bucket_carries category filtered recipe :
  In recipe (bucket category filtered) -> carries category recipe.
Proof.
  unfold bucket, carries, in_category. rewrite filter_In. intros [_ H].
  destruct (Recipe.菜品分类 recipe) as [tags|]; [|done].
  exists tags. split; [done|]. by apply includes_In.
Qed.

Lemma drawn_carries people category filtered n selected :
  drawn (bucket category filtered) n selected ->
  Forall (carries category) (map (adjust_recipe people) selected).
Proof.
  intros H%drawn_In. apply Forall_fmap. eapply Forall_impl; [exact H|].
  intros r Hr. unfold carries, compose. rewrite adjust_recipe_菜品分类.
  by apply bucket_carries in Hr.
Qed.

(** C10.  The menu [recommend] returns has the four keys 主菜, 配菜, 汤品,
    主食, in this order and no other, and every recipe listed under a key
    carries that key in its 菜品分类. *)
Theorem recommend_menu_shape
    (R : RandomSource) (g : rng R) (recipes : list Recipe.t)
    (params : Params.t) :
  map fst (recommend R g recipes params).1 = ["主菜"; "配菜"; "汤品"; "主食"]
  /\ Forall (fun entry => Forall (carries entry.1) entry.2)
            (recommend R g recipes params).1.
Proof.
  rewrite recommend_menu.
  destruct (select_menu_shape R g (filtered_for recipes params) params)
    as (mains & sides & soups & staples & -> & H1 & H2 & H3 & H4).
  split; [reflexivity|].
  repeat constructor; simpl; by eapply drawn_carries.
Qed.

(** ** Recipes without a usable base serving count *)

Lemma JSON_clone_kept (recipe : Recipe.t) :
  JSON_clone recipe = recipe
  \/ exists scaled, JSON_clone recipe = set_调整后食材 recipe scaled.
Proof.
  destruct recipe as [? ? ? ? ? ? ? ? ? ? [l|]]; [right; by eexists|by left].
Qed.

Lemma adjust_recipe_kept people recipe :
  kept_as recipe (adjust_recipe people recipe).
Proof.
  unfold kept_as, adjust_recipe.
  destruct (Recipe.标准份量 recipe) as [[base [ingredients|] seasonings]|]
    eqn:Hp; [| |done].
  - cbn [JSON_clone Recipe.标准份量]. rewrite Hp. right. by eexists.
  - cbn [JSON_clone Recipe.标准份量]. rewrite Hp. apply JSON_clone_kept.
Qed.

Lemma adjustServings_keeps (menu : Menu) (people : Z) :
  Forall2 (fun entry entry' =>
             entry'.1 = entry.1 /\ Forall2 kept_as entry.2 entry'.2)
    menu (adjustServings menu people).
Proof.
  unfold adjustServings.
  apply Forall2_fmap_r, Forall_Forall2_diag, Forall_forall.
  intros [category recipes] _. split; [done|]. simpl.
  apply Forall2_fmap_r, Forall_Forall2_diag, Forall_forall.
  intros recipe _. apply adjust_recipe_kept.
Qed.

(** C5, as amended.  The core has no data error: whether [filterRecipes]
    keeps a recipe does not depend on its 标准份量, and [adjustServings]
    returns, category by category and in order, every recipe the selection
    handed it: unchanged when it has no 标准份量, otherwise as a copy that
    differs at most in 调整后食材.  No recipe is dropped and nothing is
    reported. *)
Theorem no_recipe_is_dropped
    (R : RandomSource) (g : rng R) (recipes : list Recipe.t)
    (params : Params.t) :
  (forall recipe portion,
      keeps params (with_标准份量 recipe portion) = keeps params recipe)
  /\ Forall2 (fun entry entry' =>
                entry'.1 = entry.1 /\ Forall2 kept_as entry.2 entry'.2)
       (select_menu R g (filtered_for recipes params) params).1
       (recommend R g recipes params).1.
Proof.
  split; [reflexivity|]. rewrite recommend_menu. apply adjustServings_keeps.
Qed.

(** C5 as stated fails: a recipe authored for zero people is selected and
    served, the request completes, and the recipe's scaled quantities are
    infinite. *)
Lemma zero_base_recipe_is_served :
  base_missing_or_zero zero_base_dish = true
  /\ exists b,
       menu_bundle flip_source flat_collator false Pristine
         "2024-05-01T10:00:00.000Z" [zero_base_dish] spring_request
       = (Some b, Pristine)
       /\ property "主菜" (Bundle.菜单 b)
          = Some [set_调整后食材 zero_base_dish
                    [Adjusted.mk (Ingredient.mk "春笋" 500 (Some "克"))
                       (Num PosInf);
                     Adjusted.mk (Ingredient.mk "猪里脊肉" 300 (Some "克"))
                       (Num PosInf)]].
Proof. split; [reflexivity|]. eexists. split; vm_compute; reflexivity. Qed.

(** Without 基准人数 the ratio is NaN, and so is every scaled quantity. *)
Example no_base_recipe_is_served :
  base_missing_or_zero no_base_dish = true
  /\ property "主菜"
       (recommend flip_source false [no_base_dish] spring_request).1
     = Some [set_调整后食材 no_base_dish
               [Adjusted.mk (Ingredient.mk "春笋" 500 (Some "克")) (Num NaN);
                Adjusted.mk (Ingredient.mk "猪里脊肉" 300 (Some "克"))
                  (Num NaN)]].
Proof. split; vm_compute; reflexivity. Qed.

(** ** Nutrition aggregator *)

(** C7, as amended.  In the summary [calculate] returns, the totals are the
    sums over the menu, and each of the five percentages is what
    [Math.round((total / reference) * 100)] comes to in doubles for the
    reference values 2000, 60, 300, 67 and 25: a double nearest to the
    quotient, a double nearest to its product with 100, and the integer
    nearest to that, a tie going up.  The percentage lies within a half,
    and a relative error of [2 ^ -50], of the exact total over reference
    times 100.  This is for totals of at most [2 ^ 1000] in magnitude; a
    total that is not finite is its own percentage. *)
Theorem percentage_law (menu : Menu) (people : Z) :
  let summary := calculate menu people in
  let totals := Nutrition.总量 summary in
  let percent := Nutrition.百分比 summary in
  totals = sum_nutrition menu people
  /\ percent_of (热量 totals) 2000 (热量 percent)
  /\ percent_of (蛋白质 totals) 60 (蛋白质 percent)
  /\ percent_of (碳水化合物 totals) 300 (碳水化合物 percent)
  /\ percent_of (脂肪 totals) 67 (脂肪 percent)
  /\ percent_of (纤维素 totals) 25 (纤维素 percent).
Proof.
  intros summary totals percent. split; [reflexivity|].
  assert (Hone : forall n : Z, (1 <= n)%Z -> (1 <= inject_Z n)%Q).
  { intros n Hn. by rewrite (Zle_Qle 1 n) in Hn. }
  split; [apply (percentage_percent_of _ (inject_Z 2000)), Hone; lia|].
  split; [apply (percentage_percent_of _ (inject_Z 60)), Hone; lia|].
  split; [apply (percentage_percent_of _ (inject_Z 300)), Hone; lia|].
  split; [apply (percentage_percent_of _ (inject_Z 67)), Hone; lia|].
  apply (percentage_percent_of _ (inject_Z 25)), Hone; lia.
Qed.

(** SPRING001 with 800 kcal per six servings, served to six: 40 percent of
    2000 kcal, 75 percent of 60 g protein. *)
Example percentages_of_SPRING001 :
  let summary := calculate [("主菜", [SPRING001_nutrition])] 6 in
  Nutrition.百分比 summary
  = mkNutrients (Fin 40) (Fin 75) (Fin 10) (Fin 60) (Fin 32).
Proof. vm_compute. reflexivity. Qed.

(** The numbers of the sample dishes are doubles: 49.99999999999999,
    87.10000000000001 and 43.2. *)
Example sample_numbers_are_doubles :
  is_double (7036874417766399 # 140737488355328)
  /\ is_double (6129117617874535 # 70368744177664)
  /\ is_double (3039929748475085 # 70368744177664).
Proof.
  split; [|split];
    [exists 7036874417766399%Z, (-47)%Z
    |exists 6129117617874535%Z, (-46)%Z
    |exists 3039929748475085%Z, (-46)%Z];
    (split; [vm_compute; reflexivity|lia]).
Qed.

(** C7 as stated fails.  A dish of 290 kcal is 14.5 percent of 2000 kcal,
    which rounds up to 15; the code comes to 14, since the product it
    rounds is 14.499999999999998.  Off a tie, a dish of 49.99999999999999
    kcal is less than 2.5 percent, and the code comes to 3. *)
Lemma percentage_law_fails_in_doubles :
  (热量 (Nutrition.总量 (calculate [("主菜", [snack_290])] 6)) = Fin 290
   /\ 热量 (Nutrition.百分比 (calculate [("主菜", [snack_290])] 6)) = Fin 14
   /\ ~ percentage_as_specified (Fin 290) 2000 (Fin 14))
  /\ (热量 (Nutrition.总量 (calculate [("主菜", [snack_50])] 6))
      = Fin (7036874417766399 # 140737488355328)
      /\ 热量 (Nutrition.百分比 (calculate [("主菜", [snack_50])] 6)) = Fin 3
      /\ ~ percentage_as_specified
             (Fin (7036874417766399 # 140737488355328)) 2000 (Fin 3)).
Proof.
  split; (split; [vm_compute; reflexivity|]);
    (split; [vm_compute; reflexivity|]); intros H;
    destruct (H _ eq_refl) as (p & [= <-] & Hr).
  - assert (E : (14 == inject_Z 15 / inject_Z 1)%Q).
    { apply (rounds_half_up_integer 1 _ _ 15 Hr).
      split; [apply Qle_bool_iff|]; vm_compute; reflexivity. }
    vm_compute in E. discriminate E.
  - assert (E : (3 == inject_Z 2 / inject_Z 1)%Q).
    { apply (rounds_half_up_integer 1 _ _ 2 Hr).
      split; [apply Qle_bool_iff|]; vm_compute; reflexivity. }
    vm_compute in E. discriminate E.
Qed.

Lemma Qsgn_of_positive (q : Q) : (0 < q)%Q -> Qsgn q = 1%Z.
Proof.
  unfold Qsgn, Qlt. destruct q as [n d]; simpl. intros H.
  apply Z.sgn_pos. lia.
Qed.

Lemma num_add_in_range (a b : number) : in_range (num_add a b).
Proof.
  destruct a as [x| | |], b as [y| | |]; try done.
  unfold num_add, in_range.
  destruct (Number_value (x + y)) as [d| | |] eqn:E; try done.
  apply Qlt_le_weak. by apply (Number_value_below (x + y)).
Qed.

Lemma sum_nutrition_in_range (menu : Menu) (people : Z) :
  totals_in_range (sum_nutrition menu people).
Proof.
  unfold sum_nutrition.
  assert (H0 : totals_in_range zero_total).
  { unfold totals_in_range, zero_total, in_range. cbn.
    pose proof (two_pow_pos 1024).
    assert (Qabs 0 == 0)%Q as -> by reflexivity. repeat split; lra. }
  revert H0. generalize zero_total.
  induction (all_recipes menu) as [|recipe recipes IH]; intros total Ht;
    [done|].
  cbn [fold_left]. apply IH. unfold add_nutrition.
  destruct (Recipe.营养成分 recipe) as [n|]; [|done].
  unfold totals_in_range. cbn. repeat split; apply num_add_in_range.
Qed.

(** The quotient by a reference of at least 2 of a total in range is a
    double nearest to the exact quotient. *)
Lemma num_div_ratio (total : number) (ref : Q) :
  (2 <= ref)%Q -> in_range total ->
  ratio_in_doubles total ref (num_div total (Fin ref)).
Proof.
  intros Href Ht.
  assert (Hs : Qsgn ref = 1%Z) by (apply Qsgn_of_positive; lra).
  destruct total as [t| | |]; unfold ratio_in_doubles, num_div;
    rewrite ?Hs; try done.
  cbn [in_range] in Ht.
  destruct (Number_value_error (t / ref)) as (d & Hd & _).
  { unfold Qdiv. rewrite Qabs_Qmult, Qabs_Qinv, (Qabs_pos ref) by lra.
    apply Qle_shift_div_r; [lra|].
    assert (H2 : (2 ^ 1024 == 2 * 2 ^ 1023)%Q) by apply (two_pow_succ 1023).
    pose proof (two_pow_pos 1023).
    set (A := Qabs t) in *. set (P := (2 ^ 1023)%Q) in *.
    set (P' := (2 ^ 1024)%Q) in *. clearbody A P P'. nra. }
  exists d. split; [exact Hd|]. by apply Number_value_nearest_double.
Qed.

Lemma band_classified ratio low high mid :
  classified ratio low high mid (band ratio (Fin low) (Fin high) mid).
Proof.
  unfold classified, band, num_gt.
  destruct ratio as [r| | |]; cbn [num_lt below above].
  - destruct (Qle_bool low r) eqn:E1; cbn [negb].
    + apply Qle_bool_iff in E1.
      destruct (Qle_bool r high) eqn:E2; cbn [negb].
      * apply Qle_bool_iff in E2. right; right.
        split; [lra|]. split; [lra|done].
      * right; left. split; [lra|]. split; [|done].
        apply Qnot_le_lt. intros H. apply Qle_bool_iff in H. congruence.
    + left. split; [|done].
      apply Qnot_le_lt. intros H. apply Qle_bool_iff in H. congruence.
  - right; left. tauto.
  - left. tauto.
  - right; right. tauto.
Qed.

Lemma count_label_how_many (label : string) (values : list string) :
  count_label label values = how_many label values.
Proof.
  unfold count_label, how_many.
  induction values as [|value values IH]; [done|].
  cbn [List.filter]. rewrite filter_cons.
  destruct (String.eqb_spec label value) as [->|Hne].
  - rewrite decide_True by done. cbn [length]. by rewrite IH.
  - rewrite decide_False by congruence. exact IH.
Qed.

Lemma evaluate_verdict total :
  let scores := evaluateNutrition total dailyRecommendation in
  verdict (Scores.热量 scores) (Scores.蛋白质 scores) (Scores.脂肪 scores)
    (Scores.总体 scores).
Proof.
  unfold evaluateNutrition.
  cbn [Scores.热量 Scores.蛋白质 Scores.脂肪 Scores.总体].
  set (c := band _ _ _ "适中"). set (p := band _ _ _ "充足").
  set (f := band (num_div (脂肪 total) _) _ _ "适中").
  unfold verdict. rewrite <- !count_label_how_many.
  destruct (Nat.ltb_spec 2 (count_label "偏低" [c; p; f])); [by left|].
  destruct (Nat.ltb_spec 2 (count_label "偏高" [c; p; f])); [right; by left|].
  destruct (String.eqb_spec p "充足") as [Hp|Hp];
    destruct (String.eqb_spec f "适中") as [Hf|Hf]; simpl.
  - right; right; left. done.
  - do 3 right. repeat split; try done. tauto.
  - do 3 right. repeat split; try done. tauto.
  - do 3 right. repeat split; try done. tauto.
Qed.

Lemma thresholds_as_doubles :
  Number_value (7 # 10) = Fin double_0_7
  /\ Number_value (8 # 10) = Fin double_0_8
  /\ Number_value (12 # 10) = Fin double_1_2
  /\ Number_value (13 # 10) = Fin double_1_3.
Proof. repeat split; vm_compute; reflexivity. Qed.

(** C8, as amended.  The ratio of a nutrient is the double nearest to its
    total over its reference.  The summary labels 热量 and 脂肪 偏低 when the
    ratio is below the double written 0.7, 偏高 when it is above the double
    written 1.3 and 适中 otherwise, and 蛋白质 偏低 below the double written
    0.8, 偏高 above the double written 1.2 and 充足 otherwise.  The verdict
    is 营养不足 when more than two of the three labels are 偏低, else 营养过剩
    when more than two are 偏高, else 营养均衡 exactly when 蛋白质 is 充足 and
    脂肪 is 适中, else 基本均衡. *)
Theorem nutrition_classification (menu : Menu) (people : Z) :
  let summary := calculate menu people in
  let totals := Nutrition.总量 summary in
  let scores := Nutrition.评价 summary in
  exists calories protein fat : number,
    ratio_in_doubles (热量 totals) 2000 calories
    /\ ratio_in_doubles (蛋白质 totals) 60 protein
    /\ ratio_in_doubles (脂肪 totals) 67 fat
    /\ classified calories double_0_7 double_1_3 "适中" (Scores.热量 scores)
    /\ classified protein double_0_8 double_1_2 "充足" (Scores.蛋白质 scores)
    /\ classified fat double_0_7 double_1_3 "适中" (Scores.脂肪 scores)
    /\ verdict (Scores.热量 scores) (Scores.蛋白质 scores) (Scores.脂肪 scores)
         (Scores.总体 scores).
Proof.
  intros summary totals scores.
  destruct (sum_nutrition_in_range menu people) as (Hc & Hp & _ & Hf & _).
  fold totals in Hc, Hp, Hf.
  destruct thresholds_as_doubles as (E07 & E08 & E12 & E13).
  exists (num_div (热量 totals) (Fin 2000)), (num_div (蛋白质 totals) (Fin 60)),
    (num_div (脂肪 totals) (Fin 67)).
  split; [apply (num_div_ratio _ 2000); [by apply Qle_bool_iff|done]|].
  split; [apply (num_div_ratio _ 60); [by apply Qle_bool_iff|done]|].
  split; [apply (num_div_ratio _ 67); [by apply Qle_bool_iff|done]|].
  subst scores summary. unfold calculate. cbn [Nutrition.评价].
  split; [|split; [|split]]; [| | |apply evaluate_verdict].
  - unfold evaluateNutrition. cbn [Scores.热量]. rewrite E07, E13.
    apply band_classified.
  - unfold evaluateNutrition. cbn [Scores.蛋白质]. rewrite E08, E12.
    apply band_classified.
  - unfold evaluateNutrition. cbn [Scores.脂肪]. rewrite E07, E13.
    apply band_classified.
Qed.

Example evaluation_of_SPRING001 :
  Nutrition.评价 (calculate [("主菜", [SPRING001_nutrition])] 6)
  = Scores.mk "偏低" "偏低" "偏低" "营养不足".
Proof. vm_compute. reflexivity. Qed.

(** 43.2 g of protein for three served to five: the total is
    72.00000000000001 g and the ratio 1.2000000000000002, above the bound,
    where 43.2 * 5 / 3 over 60 is 1.2. *)
Example protein_for_five :
  let summary := calculate [("主菜", [protein_dish])] 5 in
  蛋白质 (Nutrition.总量 summary) = Fin (5066549580791809 # 70368744177664)
  /\ Scores.蛋白质 (Nutrition.评价 summary) = "偏高".
Proof. split; vm_compute; reflexivity. Qed.

(** C8 as stated fails at a bound.  A menu with 87.10000000000001 g of fat
    has more than 1.3 times the reference of 67 g, and the code labels it
    适中: the quotient it compares is the double written 1.3, which is not
    above itself. *)
Lemma classification_fails_at_the_bound :
  let summary := calculate [("主菜", [fat_dish])] 6 in
  脂肪 (Nutrition.总量 summary) = Fin (6129117617874535 # 70368744177664)
  /\ num_div (脂肪 (Nutrition.总量 summary)) (Fin 67) = Fin double_1_3
  /\ Scores.脂肪 (Nutrition.评价 summary) = "适中"
  /\ ~ band_as_specified (脂肪 (Nutrition.总量 summary)) 67 (7 # 10) (13 # 10)
         "适中" (Scores.脂肪 (Nutrition.评价 summary)).
Proof.
  cbv zeta.
  assert (Ht : 脂肪 (Nutrition.总量 (calculate [("主菜", [fat_dish])] 6))
               = Fin (6129117617874535 # 70368744177664))
    by (vm_compute; reflexivity).
  assert (Hl : Scores.脂肪 (Nutrition.评价 (calculate [("主菜", [fat_dish])] 6))
               = "适中") by (vm_compute; reflexivity).
  rewrite Ht, Hl. split; [done|]. split; [vm_compute; reflexivity|].
  split; [done|]. intros H.
  destruct (H _ eq_refl) as [[_ E]|[[_ E]|(_ & Hle & _)]];
    [discriminate E|discriminate E|].
  apply Qle_bool_iff in Hle. vm_compute in Hle. discriminate Hle.
Qed.

(** ** Shopping list builder *)

(** What [items] holds under a key after the ingredients [ings] are merged
    into [m], none of them under an inherited name. *)
Lemma fold_add_lookup (ings : list Adjusted.t) (m : gmap string Item.t)
    (k : string) :
  own_names ings ->
  fold_left add_ingredient ings m !! k
  = match m !! k with
    | Some item =>
        Some (Item.mk
                (fold_left num_add
                   (map (fun a => ToNumber (Adjusted.调整用量 a))
                        (List.filter (matches k) ings))
                   (Item.用量 item))
                (Item.单位 item) (Item.分类 item))
    | None =>
        match List.find (matches k) ings with
        | Some a =>
            Some (Item.mk
                    (fold_left num_add
                       (map (fun a => ToNumber (Adjusted.调整用量 a))
                            (List.filter (matches k) ings))
                       (Fin 0))
                    (unit_of (Adjusted.ingredient a)) (categorizeIngredient k))
        | None => None
        end
    end.
Proof.
  intros Hown. revert m.
  induction Hown as [|a ings Ha Hown IH]; intros m.
  - simpl. by destruct (m !! k) as [[]|].
  - cbn [fold_left List.filter List.find]. rewrite IH. unfold add_ingredient.
    fold (name_of a). destruct (matches k a) eqn:E; unfold matches in E.
    + apply String.eqb_eq in E. subst k.
      destruct (m !! name_of a) as [item|] eqn:Hm.
      * by rewrite lookup_insert_eq.
      * rewrite Ha. by rewrite lookup_insert_eq.
    + apply String.eqb_neq in E.
      destruct (m !! name_of a) as [item|] eqn:Hm.
      * by rewrite lookup_insert_ne.
      * rewrite Ha. by rewrite lookup_insert_ne.
Qed.

Lemma find_matches_None (k : string) (ings : list Adjusted.t) :
  List.find (matches k) ings = None <-> k ∉ map name_of ings.
Proof.
  induction ings as [|a ings IH]; simpl.
  - split; [intros _; apply not_elem_of_nil|done].
  - rewrite not_elem_of_cons. unfold matches at 1.
    destruct (String.eqb_spec (name_of a) k) as [E|Hne].
    + split; [discriminate|]. intros [Hk _]. by destruct Hk.
    + rewrite IH. split; [by split|]. by intros [_ Hk].
Qed.

(** [ingredient.单位 || '适量'] gives the unit, or 适量 for a unit that is
    missing or empty. *)
Lemma unit_of_cases (i : Ingredient.t) :
  unit_of i
  = match Ingredient.单位 i with
    | Some EmptyString | None => "适量"
    | Some unit => unit
    end.
Proof. unfold unit_of. by destruct (Ingredient.单位 i) as [[|c unit]|]. Qed.

Lemma collect_lookup (menu : Menu) (k : string) :
  own_names (scaled_ingredients menu) ->
  collect_items menu !! k
  = if decide (k ∈ map name_of (scaled_ingredients menu))
    then Some (item_for (scaled_ingredients menu) k)
    else None.
Proof.
  intros Hown. unfold collect_items. rewrite fold_add_lookup by done.
  rewrite lookup_empty.
  unfold item_for, listed_unit, first_occurrence, quantity_sum.
  fold (matches k).
  destruct (List.find (matches k) (scaled_ingredients menu)) as [a|] eqn:Hf;
    case_decide as Hin; try done.
  - cbn [fmap option_fmap option_map]. by rewrite unit_of_cases.
  - apply find_matches_None in Hin. congruence.
  - apply find_matches_None in Hf. contradiction.
Qed.

(** The own properties of [items]: one per distinct name. *)
Lemma collect_to_list (menu : Menu) :
  own_names (scaled_ingredients menu) ->
  map_to_list (collect_items menu)
  ≡ₚ map (fun k => (k, item_for (scaled_ingredients menu) k))
         (distinct_names menu).
Proof.
  intros Hown. apply NoDup_Permutation.
  - apply NoDup_map_to_list.
  - apply (NoDup_fmap_2_strong _).
    + by intros x y _ _ [= ->].
    + apply NoDup_remove_dups.
  - intros [k v]. rewrite elem_of_map_to_list, collect_lookup by done.
    unfold distinct_names. split.
    + case_decide as Hin; [|done]. intros [= <-].
      apply (list_elem_of_fmap_2 (fun k => (k, item_for _ k))).
      by rewrite elem_of_remove_dups.
    + intros Hx. apply list_elem_of_fmap in Hx as (x & [= -> ->] & Hx).
      rewrite elem_of_remove_dups in Hx. by rewrite decide_True.
Qed.

Lemma categorize_in_names (name : string) :
  categorizeIngredient name ∈ category_names.
Proof.
  unfold categorizeIngredient, category_keywords, category_names.
  cbn [categorize_in].
  repeat match goal with
         | |- context [if ?b then _ else _] => destruct b
         end; set_solver.
Qed.

Lemma concat_sorted (C : Collator) (F : string -> list Entry.t)
    (keys : list string) :
  concat (map (fun c => sort_zh C (F c)) keys) ≡ₚ concat (map F keys).
Proof.
  induction keys as [|c keys IH]; simpl; [done|].
  by rewrite sort_zh_perm, IH.
Qed.

(** Grouping by a key that always falls in [keys] loses and repeats
    nothing. *)
Lemma groups_cons {A} (key : A -> string) (x : A) (l : list A)
    (keys : list string) :
  NoDup keys -> key x ∈ keys ->
  concat (map (fun c => List.filter (in_group key c) (x :: l)) keys)
  ≡ₚ x :: concat (map (fun c => List.filter (in_group key c) l) keys).
Proof.
  intros Hnd. induction Hnd as [|c keys Hc Hnd IH]; intros Hin.
  - by apply elem_of_nil in Hin.
  - cbn [map concat].
    destruct (String.eqb_spec (key x) c) as [E|Hne].
    + assert (map (fun c' => List.filter (in_group key c') (x :: l)) keys
              = map (fun c' => List.filter (in_group key c') l) keys) as ->.
      { apply map_ext_in. intros c' Hc'. cbn [List.filter].
        unfold in_group at 1.
        destruct (String.eqb_spec (key x) c') as [E'|]; [|done].
        subst. by apply list_elem_of_In in Hc'. }
      cbn [List.filter]. unfold in_group at 1. by rewrite E, String.eqb_refl.
    + apply elem_of_cons in Hin as [?|Hin]; [done|]. rewrite (IH Hin).
      cbn [List.filter]. unfold in_group at 1.
      apply String.eqb_neq in Hne. rewrite Hne. by rewrite Permutation_middle.
Qed.

Lemma groups_partition {A} (key : A -> string) (l : list A)
    (keys : list string) :
  NoDup keys -> Forall (fun x => key x ∈ keys) l ->
  concat (map (fun c => List.filter (in_group key c) l) keys) ≡ₚ l.
Proof.
  intros Hnd Hl. induction Hl as [|x l Hx Hl IH].
  - simpl. induction keys; [done|]. simpl. apply IHkeys. by inversion Hnd.
  - by rewrite groups_cons, IH.
Qed.

Lemma own_names_no_pollution (menu : Menu) :
  own_names (scaled_ingredients menu) -> pollutes menu = false.
Proof.
  unfold pollutes, own_names. fold name_of.
  induction 1 as [|a ings Ha _ IH]; [done|].
  cbn [existsb]. rewrite IH, orb_false_r. fold (name_of a).
  destruct (String.eqb_spec (name_of a) "__proto__") as [E|]; [|done].
  by rewrite E in Ha.
Qed.

Lemma NoDup_category_names : NoDup category_names.
Proof. apply (bool_decide_unpack _). by vm_compute. Qed.

Lemma collected_categories (menu : Menu) :
  own_names (scaled_ingredients menu) ->
  Forall (fun p : string * Item.t => Item.分类 p.2 ∈ category_names)
         (map_to_list (collect_items menu)).
Proof.
  intros Hown. apply Forall_forall. intros [k v] Hkv.
  apply elem_of_map_to_list in Hkv. rewrite collect_lookup in Hkv by done.
  case_decide; [|done]. injection Hkv as <-. apply categorize_in_names.
Qed.

Lemma to_entry_expected (ingredients : list Adjusted.t) (name : string) :
  to_entry (name, item_for ingredients name) = expected_entry ingredients name.
Proof.
  unfold to_entry, expected_entry, item_for. cbn [fst snd Item.用量 Item.单位].
  by rewrite round2_two_decimals.
Qed.

(** In a realm whose [Object.prototype] has an enumerable 用量, [generate]
    throws whatever the menu, and the realm stays as it is. *)
Lemma generate_in_polluted_realm (C : Collator) (menu : Menu) (people : Z)
    (now : string) :
  generate C Polluted menu people now = (None, Polluted).
Proof. unfold generate, merged_in. by destruct (pollutes menu). Qed.

(** C2, as amended.  In a realm whose [Object.prototype] is as the engine
    made it, and when no ingredient is named like a property that a plain
    object inherits, [generate] returns a list, leaves the realm as it is,
    and the list's 总项数 is the number of distinct ingredient names of the
    menu's scaled ingredients; its categories hold, between them, exactly
    one entry per distinct name: the name, the sum in doubles of the scaled
    quantities recorded under it, in menu order, brought to two decimals,
    the unit of the name's first occurrence, or 适量 when that unit is
    missing or empty, and 已购买 false.  Two decimals are what
    [Math.round(sum * 100) / 100] comes to in doubles: a double nearest to
    the product, the integer nearest to that, a tie going up, and a double
    nearest to the integer over 100. *)
Theorem shopping_list_items
    (C : Collator) (menu : Menu) (people : Z) (now : string) :
  own_names (scaled_ingredients menu) ->
  exists sl,
    generate C Pristine menu people now = (Some sl, Pristine)
    /\ Stats.总项数 (ShoppingList.统计 sl) = length (distinct_names menu)
    /\ listed sl
       ≡ₚ map (expected_entry (scaled_ingredients menu)) (distinct_names menu)
    /\ Forall (fun name =>
                 in_two_decimals
                   (quantity_sum name (scaled_ingredients menu))
                   (Entry.用量 (expected_entry (scaled_ingredients menu) name)))
              (distinct_names menu).
Proof.
  intros Hown. unfold generate, merged_in.
  rewrite own_names_no_pollution by done.
  eexists. split; [reflexivity|]. cbn [ShoppingList.统计 Stats.总项数].
  pose proof (collect_to_list menu Hown) as Hitems.
  split; [|split].
  - rewrite <- length_map_to_list, Hitems. apply length_map.
  - unfold listed. cbn [ShoppingList.清单]. rewrite map_map. cbn [snd].
    rewrite concat_sorted. unfold pushed_to.
    set (key := fun p : string * Item.t => Item.分类 p.2).
    set (L := map_to_list (collect_items menu)) in *.
    transitivity (map to_entry
                    (concat (map (fun c => List.filter (in_group key c) L)
                                 category_names))).
    { by rewrite concat_map, map_map. }
    rewrite groups_partition;
      [|apply NoDup_category_names|by apply collected_categories].
    rewrite Hitems, map_map.
    erewrite map_ext; [reflexivity|]. intros name. apply to_entry_expected.
  - apply Forall_forall. intros name _. apply two_decimals_in.
Qed.

(** The spring menu for six lists 春笋 once, the 500 g of the main dish and
    the 300 g of the soup added up, under the unit both give, and the 4.5 of
    salt, for which the soup gives no unit, under the stand-in. *)
Lemma shopping_list_items_witness :
  exists sl,
    generate flat_collator Pristine spring_menu 6 "2024-05-01T10:00:00.000Z"
    = (Some sl, Pristine)
    /\ Stats.总项数 (ShoppingList.统计 sl) = 3%nat
    /\ listed sl
       ≡ₚ [Entry.mk "猪里脊肉" (Fin 300) "克" false;
           Entry.mk "春笋" (Fin 800) "克" false;
           Entry.mk "盐" (Fin (9 # 2)) "适量" false].
Proof.
  destruct (shopping_list_items flat_collator spring_menu 6
              "2024-05-01T10:00:00.000Z")
    as (sl & Hsl & Hcount & Hlisted & _).
  { repeat constructor. }
  exists sl. split; [exact Hsl|]. split; [exact Hcount|].
  assert (E : map (expected_entry (scaled_ingredients spring_menu))
                  (distinct_names spring_menu)
              = [Entry.mk "猪里脊肉" (Fin 300) "克" false;
                 Entry.mk "春笋" (Fin 800) "克" false;
                 Entry.mk "盐" (Fin (9 # 2)) "适量" false])
    by (vm_compute; reflexivity).
  by rewrite <- E.
Defined.

(** A sum that two decimals do not hold: 1.005 is listed as 1, since the
    product the code rounds is 100.49999999999999. *)
Example two_decimals_of_1_005 :
  round2 (Number_value (1005 # 1000)) = Fin 1
  /\ num_mul (Number_value (1005 # 1000)) (Fin 100)
     = Fin (7072058789855231 # 70368744177664).
Proof. split; vm_compute; reflexivity. Qed.

(** C2 as stated fails twice on one recipe.  Its two ingredients have two
    distinct names, but the one named constructor is never stored, so 总项数
    is 1; and the salt, whose unit is the empty string, is listed under
    适量. *)
Lemma shopping_list_miscounts :
  exists b,
    menu_bundle flip_source flat_collator false Pristine
      "2024-05-01T10:00:00.000Z" [odd_names_dish] spring_request
    = (Some b, Pristine)
    /\ map name_of (scaled_ingredients (Bundle.菜单 b)) = ["constructor"; "盐"]
    /\ length (distinct_names (Bundle.菜单 b)) = 2%nat
    /\ Stats.总项数 (ShoppingList.统计 (Bundle.购物清单 b)) = 1%nat
    /\ Ingredient.单位
         <$> first_occurrence "盐" (scaled_ingredients (Bundle.菜单 b))
       = Some (Some "")
    /\ map (fun e => (Entry.名称 e, Entry.单位 e))
           (listed (Bundle.购物清单 b))
       = [("盐", "适量")].
Proof. eexists. repeat split; vm_compute; reflexivity. Qed.

(** An ingredient named [__proto__] makes [generate] throw and leaves the
    realm polluted; the next call, for a menu without such a name, throws as
    well. *)
Example proto_ingredient_throws :
  generate flat_collator Pristine
    [("主菜", [set_调整后食材 SPRING001
                 [Adjusted.mk (Ingredient.mk "__proto__" 1 (Some "个"))
                    (Num (Fin 1))]])]
    6 "2024-05-01T10:00:00.000Z"
  = (None, Polluted)
  /\ generate flat_collator Polluted spring_menu 6 "2024-05-01T10:00:01.000Z"
     = (None, Polluted).
Proof. split; reflexivity. Qed.

(** ** The scenario of the specification *)

(** Both recipes are selected, each scaled to 300 g; the menu has 1025 kcal,
    51 percent of the reference, and the list two items. *)
Example scenario_bundle :
  exists b,
    menu_bundle flip_source flat_collator false Pristine
      "2024-05-01T10:00:00.000Z" [scenario_main; scenario_soup]
      scenario_request
    = (Some b, Pristine)
    /\ map (fun a => (name_of a, Adjusted.调整用量 a))
           (scaled_ingredients (Bundle.菜单 b))
       = [("pork", Num (Fin 300)); ("tofu", Num (Fin 300))]
    /\ 热量 (Nutrition.总量 (Bundle.营养信息 b)) = Fin 1025
    /\ 热量 (Nutrition.百分比 (Bundle.营养信息 b)) = Fin 51
    /\ Stats.总项数 (ShoppingList.统计 (Bundle.购物清单 b)) = 2%nat.
Proof. eexists. repeat split; vm_compute; reflexivity. Qed.

(** ** Reproducibility *)

Lemma menu_bundle_Some (R : RandomSource) (C : Collator) (g : rng R)
    (realm realm' : Realm) (now : string) (recipes : list Recipe.t)
    (params : Params.t) (b : Bundle.t) :
  menu_bundle R C g realm now recipes params = (Some b, realm') ->
  realm = Pristine /\ realm' = Pristine
  /\ pollutes (recommend R g recipes params).1 = false.
Proof.
  unfold menu_bundle, generate, merged_in.
  destruct (pollutes (recommend R g recipes params).1); [done|].
  by destruct realm; intros [= <- <-].
Qed.

(** C9, as amended.  A run is determined by the catalog, the request, the
    state of the ambient generator, the realm and the clock reading.  Two
    runs that differ in the clock reading only return the same menu and the
    same nutrition summary, and shopping lists that differ only in 生成时间,
    which is each run's clock reading; a run that returns a bundle leaves
    the realm as it found it. *)
Theorem bundle_reproducible
    (R : RandomSource) (C : Collator) (g : rng R) (realm realm' : Realm)
    (now1 now2 : string) (recipes : list Recipe.t) (params : Params.t)
    (b1 : Bundle.t) :
  menu_bundle R C g realm now1 recipes params = (Some b1, realm') ->
  realm' = realm
  /\ ShoppingList.生成时间 (Bundle.购物清单 b1) = now1
  /\ menu_bundle R C g realm now2 recipes params
     = (Some (Bundle.mk (Bundle.菜单 b1) (Bundle.营养信息 b1)
                (with_生成时间 (Bundle.购物清单 b1) now2)),
        realm').
Proof.
  intros H. destruct (menu_bundle_Some _ _ _ _ _ _ _ _ _ H) as (-> & -> & Hp).
  revert H. unfold menu_bundle, generate, merged_in. rewrite Hp.
  intros [= <-]. split; [|split]; reflexivity.
Qed.

Lemma bundle_reproducible_witness :
  exists b1,
    menu_bundle flip_source flat_collator false Pristine
      "2024-05-01T10:00:00.000Z" [SPRING001; bamboo_soup] spring_request
    = (Some b1, Pristine)
    /\ ShoppingList.生成时间 (Bundle.购物清单 b1) = "2024-05-01T10:00:00.000Z"
    /\ menu_bundle flip_source flat_collator false Pristine
         "2024-05-01T10:00:01.000Z" [SPRING001; bamboo_soup] spring_request
       = (Some (Bundle.mk (Bundle.菜单 b1) (Bundle.营养信息 b1)
                  (with_生成时间 (Bundle.购物清单 b1)
                     "2024-05-01T10:00:01.000Z")),
          Pristine).
Proof.
  eexists. split; [vm_compute; reflexivity|].
  apply (bundle_reproducible flip_source flat_collator false Pristine Pristine
           "2024-05-01T10:00:00.000Z" "2024-05-01T10:00:01.000Z"
           [SPRING001; bamboo_soup] spring_request).
  vm_compute; reflexivity.
Defined.

(** C9 as stated fails: with the catalog and the request fixed, a second
    run one second later returns a different bundle, and a run that finds
    the generator in another state returns a different menu.  The code
    takes no seed. *)
Lemma same_request_different_bundles :
  menu_bundle flip_source flat_collator false Pristine
    "2024-05-01T10:00:00.000Z" [SPRING001; slow_dish] spring_request
  <> menu_bundle flip_source flat_collator false Pristine
       "2024-05-01T10:00:01.000Z" [SPRING001; slow_dish] spring_request
  /\ (recommend flip_source false [SPRING001; slow_dish] spring_request).1
     <> (recommend flip_source true [SPRING001; slow_dish] spring_request).1.
Proof.
  split; intros H.
  - apply (f_equal (fun r => (fun b => ShoppingList.生成时间 (Bundle.购物清单 b))
                             <$> r.1)) in H.
    vm_compute in H. congruence.
  - apply (f_equal (fun m => map Recipe.菜品标识
                               (default [] (property "主菜" m)))) in H.
    vm_compute in H. congruence.
Qed.

(** * Further properties of the worker *)

(** ** What the relaxation and the request's preferences do *)

Lemma filter_sublist_impl {A} (f g : A -> bool) (l : list A) :
  (forall x, f x = true -> g x = true) ->
  List.filter f l `sublist_of` List.filter g l.
Proof.
  intros Hfg. induction l as [|x l IH]; simpl; [constructor|].
  destruct (f x) eqn:Hf.
  - rewrite (Hfg x Hf). by constructor.
  - destruct (g x); [by constructor|done].
Qed.

Lemma keeps_relaxed params recipe :
  keeps params recipe = true ->
  keeps (Params.with_难度等级 params "不限") recipe = true.
Proof.
  rewrite relaxed_keeps. unfold keeps.
  destruct (season_rejects params recipe); [done|].
  destruct (difficulty_rejects params recipe); [done|].
  by destruct (time_rejects params recipe).
Qed.

(** X1.  Dropping the difficulty test only adds recipes: what the strict
    pass keeps is, in order, part of what the relaxed pass keeps; and the
    list [recommend] selects from lies, in order, between the strict result
    and the catalog. *)
Theorem relaxation_only_adds (recipes : list Recipe.t) (params : Params.t) :
  filterRecipes recipes params
    `sublist_of` filterRecipes recipes (Params.with_难度等级 params "不限")
  /\ filterRecipes recipes params `sublist_of` filtered_for recipes params
  /\ filtered_for recipes params `sublist_of` recipes.
Proof.
  assert (H : filterRecipes recipes params
                `sublist_of` filterRecipes recipes
                               (Params.with_难度等级 params "不限")).
  { apply filter_sublist_impl, keeps_relaxed. }
  split; [exact H|]. unfold filtered_for, filter_stage.
  destruct (length (filterRecipes recipes params) <? 10)%nat; simpl;
    (split; [done|apply filter_sublist]).
Qed.

(** X2.  口味偏好 and 特殊需求 are read by nothing: two requests that agree
    on 用餐人数, 季节, 烹饪时间 and 难度等级 get the same bundle from the same
    catalog, generator state, realm and clock reading. *)
Theorem preferences_are_ignored (R : RandomSource) (C : Collator) (g : rng R)
    (realm : Realm) (now : string) (recipes : list Recipe.t)
    (params params' : Params.t) :
  same_constraints params params' ->
  menu_bundle R C g realm now recipes params
  = menu_bundle R C g realm now recipes params'.
Proof.
  intros (Hn & Hs & Ht & Hd).
  assert (Hk : forall p q, Params.季节 p = Params.季节 q ->
                 Params.烹饪时间 p = Params.烹饪时间 q ->
                 Params.难度等级 p = Params.难度等级 q ->
                 filterRecipes recipes p = filterRecipes recipes q).
  { intros p q E1 E2 E3. unfold filterRecipes. apply filter_ext. intros r.
    unfold keeps, season_rejects, difficulty_rejects, time_rejects.
    by rewrite E1, E2, E3. }
  assert (Hf : filtered_for recipes params = filtered_for recipes params').
  { unfold filtered_for, filter_stage.
    rewrite (Hk params params') by done.
    rewrite (Hk (Params.with_难度等级 params "不限")
                (Params.with_难度等级 params' "不限")) by done.
    by destruct (length (filterRecipes recipes params') <? 10)%nat. }
  assert (Hr : recommend R g recipes params = recommend R g recipes params').
  { unfold recommend, compose_menu, select_menu, selectMainDishes,
      selectSideDishes, selectSoups, selectStaples, main_count, side_count.
    by rewrite Hf, Hn. }
  unfold menu_bundle. by rewrite Hr, Hn.
Qed.

Lemma preferences_are_ignored_witness :
  menu_bundle flip_source flat_collator false Pristine
    "2024-05-01T10:00:00.000Z" [SPRING001; bamboo_soup] spring_request
  = menu_bundle flip_source flat_collator false Pristine
      "2024-05-01T10:00:00.000Z" [SPRING001; bamboo_soup]
      (Params.mk 6 "春季" ["辣"] ["素食"] (Some 120%Z) "不限").
Proof.
  apply (preferences_are_ignored flip_source flat_collator false Pristine
           "2024-05-01T10:00:00.000Z" [SPRING001; bamboo_soup] spring_request
           (Params.mk 6 "春季" ["辣"] ["素食"] (Some 120%Z) "不限")).
  unfold same_constraints. simpl. repeat split; reflexivity.
Defined.

(** X3.  Every served recipe is the scaled copy of a catalog recipe that
    passes the season test and the time test of the request, and also the
    difficulty test unless the strict pass kept fewer than 10 recipes. *)
Theorem served_recipes_pass_the_filter (R : RandomSource) (g : rng R)
    (recipes : list Recipe.t) (params : Params.t) :
  Forall (fun entry =>
            Forall (fun served =>
                      exists recipe,
                        In recipe recipes
                        /\ served = adjust_recipe (Params.用餐人数 params) recipe
                        /\ season_passes params recipe
                        /\ time_ok params recipe
                        /\ (length (filterRecipes recipes params) < 10
                            \/ difficulty_ok params recipe))
                   entry.2)
         (recommend R g recipes params).1.
Proof.
  assert (Hfilt : forall r, In r (filtered_for recipes params) ->
            In r recipes /\ season_passes params r /\ time_ok params r
            /\ (length (filterRecipes recipes params) < 10
                \/ difficulty_ok params r)).
  { intros r. unfold filtered_for, filter_stage.
    destruct (Nat.ltb_spec (length (filterRecipes recipes params)) 10);
      simpl; unfold filterRecipes; rewrite filter_In.
    - rewrite relaxed_keeps, andb_true_iff, !negb_true_iff.
      rewrite season_rejects_false, time_rejects_false.
      intros (? & ? & ?). repeat split; try done. by left.
    - rewrite keeps_true. intros (? & ? & ? & ?). repeat split; try done.
      by right. }
  assert (Hb : forall c n sel,
            drawn (bucket c (filtered_for recipes params)) n sel ->
            Forall (fun served => exists recipe,
                        In recipe recipes
                        /\ served = adjust_recipe (Params.用餐人数 params) recipe
                        /\ season_passes params recipe
                        /\ time_ok params recipe
                        /\ (length (filterRecipes recipes params) < 10
                            \/ difficulty_ok params recipe))
                   (map (adjust_recipe (Params.用餐人数 params)) sel)).
  { intros c n sel H%drawn_In. apply Forall_fmap.
    eapply Forall_impl; [exact H|]. intros r Hr. simpl.
    unfold bucket in Hr. apply filter_In in Hr as [Hr _].
    exists r. destruct (Hfilt r Hr) as (? & ? & ? & ?). by repeat split. }
  rewrite recommend_menu.
  destruct (select_menu_shape R g (filtered_for recipes params) params)
    as (mains & sides & soups & staples & -> & H1 & H2 & H3 & H4).
  repeat constructor; simpl; by eapply Hb.
Qed.

Lemma drawn_nil_iff l n sel : 1 <= n -> drawn l n sel -> (sel = [] <-> l = []).
Proof.
  intros Hn [Hlen _]. split; intros ->.
  - destruct l; [done|]. cbn [length] in Hlen. lia.
  - cbn [length] in Hlen. destruct sel; [done|]. cbn [length] in Hlen. lia.
Qed.

Lemma main_count_bounds params : 1 <= main_count params <= 2.
Proof. unfold main_count. destruct (8 <=? _)%Z; lia. Qed.

Lemma side_count_bounds params : 1 <= side_count params <= 3.
Proof.
  unfold side_count. destruct (_ <=? 4)%Z; [lia|]. destruct (_ <=? 8)%Z; lia.
Qed.

(** The bucket of a category is empty exactly when no recipe of the list
    carries the category tag. *)
Lemma bucket_empty_iff category filtered :
  bucket category filtered = [] <-> has_none category filtered.
Proof.
  unfold has_none. split.
  - intros Hnil recipe Hin (tags & Htags & Htag).
    assert (Hb : In recipe (bucket category filtered)).
    { unfold bucket. apply filter_In. split; [done|].
      unfold in_category. rewrite Htags. by apply includes_In. }
    by rewrite Hnil in Hb.
  - intros Hnone. destruct (bucket category filtered) as [|recipe l] eqn:E;
      [done|].
    assert (Hb : In recipe (bucket category filtered))
      by (rewrite E; by left).
    destruct (Hnone recipe).
    + unfold bucket in Hb. by apply filter_In in Hb as [? _].
    + by apply bucket_carries in Hb.
Qed.

(** X4.  A menu is the four categories 主菜, 配菜, 汤品 and 主食 in this
    order, with at most 2, 3, 1 and 1 dishes, whatever the party size, so at
    most 7 in all; and a category is empty exactly when no recipe of the
    filtered catalog carries its tag. *)
Theorem menu_size (R : RandomSource) (g : rng R)
    (recipes : list Recipe.t) (params : Params.t) :
  exists mains sides soups staples,
    (recommend R g recipes params).1
    = [("主菜", mains); ("配菜", sides); ("汤品", soups); ("主食", staples)]
    /\ length mains <= 2 /\ length sides <= 3
    /\ length soups <= 1 /\ length staples <= 1
    /\ length (all_recipes (recommend R g recipes params).1) <= 7
    /\ (mains = [] <-> has_none "主菜" (filtered_for recipes params))
    /\ (sides = [] <-> has_none "配菜" (filtered_for recipes params))
    /\ (soups = [] <-> has_none "汤品" (filtered_for recipes params))
    /\ (staples = [] <-> has_none "主食" (filtered_for recipes params)).
Proof.
  rewrite recommend_menu.
  destruct (select_menu_shape R g (filtered_for recipes params) params)
    as (mains & sides & soups & staples & -> & H1 & H2 & H3 & H4).
  pose proof (main_count_bounds params). pose proof (side_count_bounds params).
  set (p := Params.用餐人数 params).
  exists (map (adjust_recipe p) mains), (map (adjust_recipe p) sides),
    (map (adjust_recipe p) soups), (map (adjust_recipe p) staples).
  split; [reflexivity|]. rewrite !length_map.
  assert (Hm : forall l : list Recipe.t,
             map (adjust_recipe p) l = [] <-> l = []).
  { intros l. destruct l; simpl; split; done. }
  rewrite !Hm, <- !bucket_empty_iff.
  pose proof H1 as [L1 _]. pose proof H2 as [L2 _].
  pose proof H3 as [L3 _]. pose proof H4 as [L4 _].
  split; [lia|]. split; [lia|]. split; [lia|]. split; [lia|].
  split.
  { unfold all_recipes. simpl. rewrite !length_app, !length_map. simpl. lia. }
  split; [|split; [|split]];
    (eapply drawn_nil_iff; [|eassumption]); lia.
Qed.

(** ** Scaling again, and scaling at the edges *)

(** X5.  Scaling a menu that was scaled before replaces the earlier result:
    the quantities are computed from 标准份量 every time, never from
    调整后食材. *)
Theorem rescaling_replaces (menu : Menu) (p q : Z) :
  adjustServings (adjustServings menu p) q = adjustServings menu q.
Proof.
  assert (H : forall r, adjust_recipe q (adjust_recipe p r) = adjust_recipe q r).
  { intros r. unfold adjust_recipe.
    destruct r as [? ? ? ? ? ? ? ? [[base [ings|] seas]|] ? scaled];
      try reflexivity.
    cbn [Recipe.标准份量 JSON_clone]. unfold set_调整后食材, JSON_clone.
    cbn. f_equal. destruct scaled as [l|]; [|done]. cbn. f_equal.
    rewrite map_map. apply map_ext. intros [i [[x| | |]|]]; reflexivity. }
  unfold adjustServings. rewrite map_map. apply map_ext. intros [c rs].
  f_equal. rewrite map_map. apply map_ext, H.
Qed.

Lemma adjust_quantity_one_decimal (q p : Q) :
  ~ (p == 0)%Q -> one_decimal q ->
  exists s, adjust_quantity q (num_div (Fin p) (Fin p)) = Fin s /\ (s == q)%Q.
Proof.
  intros Hp (k & Hk & d & Hd & Hq). exists d. split; [|by symmetry].
  rewrite <- (adjust_quantity_same_base d p k Hp Hd Hk).
  unfold adjust_quantity.
  assert (Hratio : num_div (Fin p) (Fin p) = Fin 1).
  { unfold num_div. rewrite (Qsgn_nonzero p Hp).
    rewrite (Number_value_proper (p / p) 1), Number_value_1; [done|].
    by field. }
  rewrite Hratio. cbn [num_mul].
  by rewrite (Number_value_proper (q * 1) (d * 1)) by (by rewrite Hq).
Qed.

(** X6.  Scaling a recipe to the party size it was written for gives every
    quantity back, when the quantities are numbers written with at most one
    decimal, of at most [2 ^ 50] tenths. *)
Theorem scaling_to_base_gives_back
    (people : Z) (recipe : Recipe.t) (portion : Portion)
    (ingredients : list Ingredient.t) :
  Recipe.标准份量 recipe = Some portion ->
  基准人数 portion = Some (inject_Z people) ->
  (1 <= people)%Z ->
  食材列表 portion = Some ingredients ->
  Forall (fun i => one_decimal (Ingredient.用量 i)) ingredients ->
  exists scaled,
    Recipe.调整后食材 (adjust_recipe people recipe) = Some scaled
    /\ Forall2 (fun i a =>
                  Adjusted.ingredient a = i
                  /\ exists s, Adjusted.调整用量 a = Num (Fin s)
                               /\ (s == Ingredient.用量 i)%Q)
               ingredients scaled.
Proof.
  intros Hp Hb Hge Hi Hdec.
  destruct portion as [base ings seasonings]. simpl in Hb, Hi. subst.
  rewrite (adjust_recipe_portion people recipe _ _ _ Hp).
  eexists. split; [reflexivity|].
  apply Forall2_fmap_r, Forall_Forall2_diag.
  eapply Forall_impl; [exact Hdec|]. intros i Hone. split; [reflexivity|].
  cbn [Adjusted.调整用量 to_number].
  destruct (adjust_quantity_one_decimal (Ingredient.用量 i) (inject_Z people))
    as (s & Hs & E); [|done|].
  - change 0%Q with (inject_Z 0). rewrite inject_Z_injective. lia.
  - exists s. by rewrite Hs.
Qed.

Lemma scaling_to_base_gives_back_witness :
  exists scaled,
    Recipe.调整后食材 (adjust_recipe 6 SPRING001) = Some scaled
    /\ Forall2 (fun i a =>
                  Adjusted.ingredient a = i
                  /\ exists s, Adjusted.调整用量 a = Num (Fin s)
                               /\ (s == Ingredient.用量 i)%Q)
               [Ingredient.mk "春笋" 500 (Some "克");
                Ingredient.mk "猪里脊肉" 300 (Some "克")]
               scaled.
Proof.
  apply (scaling_to_base_gives_back 6 SPRING001 _ _ eq_refl eq_refl);
    [lia|reflexivity|].
  repeat constructor; [exists 5000%Z|exists 3000%Z];
    (split; [lia|]); eexists; (split; [vm_compute; reflexivity|reflexivity]).
Defined.

(** Beyond [2 ^ 53] tenths a quantity need not come back:
    258114642191025198.6 is the double 258114642191025184, and scaling it
    to the base gives 258114642191025216. *)
Example large_quantity_does_not_come_back :
  Number_value (inject_Z 2581146421910251986 / 10) = Fin 258114642191025184
  /\ adjust_quantity 258114642191025184 (num_div (Fin 4) (Fin 4))
     = Fin 258114642191025216.
Proof. split; vm_compute; reflexivity. Qed.

(** A quantity of one decimal that is no dyadic fraction: 0.1 for four comes
    back from scaling to four as the double written 0.1. *)
Example tenth_comes_back :
  adjust_quantity (3602879701896397 # 36028797018963968)
    (num_div (Fin 4) (Fin 4))
  = Fin (3602879701896397 # 36028797018963968)
  /\ Number_value (1 # 10) = Fin (3602879701896397 # 36028797018963968).
Proof. split; vm_compute; reflexivity. Qed.






(** ** Nutrition of a menu without nutrition data *)

Lemma fold_no_nutrition people recipes total :
  Forall (fun r => Recipe.营养成分 r = None) recipes ->
  fold_left (add_nutrition people) recipes total = total.
Proof.
  intros H. revert total. induction H as [|r rs Hr _ IH]; intros total; [done|].
  simpl. unfold add_nutrition at 2. rewrite Hr. apply IH.
Qed.

(** X8.  A menu none of whose recipes has 营养成分 is not told apart from a
    menu without nutrients: all totals and all percentages are 0, the three
    classified nutrients read 偏低, the verdict is 营养不足, and the summary
    suggests more staple food and more protein. *)
Theorem no_nutrition_data_reads_as_deficient (menu : Menu) (people : Z) :
  Forall (fun r => Recipe.营养成分 r = None) (all_recipes menu) ->
  calculate menu people
  = Nutrition.mk zero_total zero_total
      (Scores.mk "偏低" "偏低" "偏低" "营养不足")
      ["建议增加主食或蛋白质摄入"; "建议增加肉类、豆制品或蛋奶摄入"].
Proof.
  intros H. unfold calculate, sum_nutrition.
  rewrite (fold_no_nutrition people _ zero_total H). vm_compute. reflexivity.
Qed.

Lemma no_nutrition_data_reads_as_deficient_witness :
  calculate spring_menu 6
  = Nutrition.mk zero_total zero_total
      (Scores.mk "偏低" "偏低" "偏低" "营养不足")
      ["建议增加主食或蛋白质摄入"; "建议增加肉类、豆制品或蛋奶摄入"].
Proof.
  apply (no_nutrition_data_reads_as_deficient spring_menu 6).
  vm_compute. repeat constructor.
Defined.

(** X9.  [getNutritionSuggestions] returns between 1 and 3 suggestions, and
    the message that the menu is balanced exactly when 热量 is neither 偏低
    nor 偏高, 蛋白质 is not 偏低 and 脂肪 is not 偏高. *)
Theorem nutrition_suggestions (evaluation : Scores.t) :
  1 <= length (getNutritionSuggestions evaluation) <= 3
  /\ (getNutritionSuggestions evaluation = ["当前菜单营养均衡，继续保持"]
      <-> Scores.热量 evaluation <> "偏低"
          /\ Scores.热量 evaluation <> "偏高"
          /\ Scores.蛋白质 evaluation <> "偏低"
          /\ Scores.脂肪 evaluation <> "偏高").
Proof.
  unfold getNutritionSuggestions.
  destruct (String.eqb_spec (Scores.热量 evaluation) "偏低") as [E1|E1];
    destruct (String.eqb_spec (Scores.热量 evaluation) "偏高") as [E2|E2];
    destruct (String.eqb_spec (Scores.蛋白质 evaluation) "偏低") as [E3|E3];
    destruct (String.eqb_spec (Scores.脂肪 evaluation) "偏高") as [E4|E4];
    cbn; (split; [lia|]); split; try discriminate; try tauto;
    intros (? & ? & ? & ?); congruence.
Qed.

(** ** Categories of the shopping list *)

Lemma prefix_spec (k s : string) :
  String.prefix k s = true <-> exists after, s = k ++ after.
Proof.
  revert k. induction s as [|b s IH]; intros [|a k]; simpl.
  - split; [by exists ""|done].
  - split; [done|]. by intros [after H].
  - split; [by eexists|done].
  - destruct (ascii_dec a b) as [->|Hne].
    + rewrite IH. split; intros [after H]; exists after.
      * simpl. by rewrite H.
      * simpl in H. by injection H.
    + split; [done|]. intros [after [= ? _]]. done.
Qed.

Lemma str_includes_occurs (name keyword : string) :
  str_includes name keyword = true <-> occurs keyword name.
Proof.
  unfold occurs. induction name as [|c name IH]; cbn [str_includes].
  - rewrite orb_false_r, prefix_spec. split.
    + intros [after H]. by exists "", after.
    + intros (before & after & H). destruct before; [by exists after|done].
  - rewrite orb_true_iff, IH, prefix_spec. split.
    + intros [[after H]|(before & after & H)].
      * by exists "", after.
      * exists (String c before), after. simpl. by rewrite H.
    + intros (before & after & H). destruct before as [|c' before].
      * left. by exists after.
      * right. simpl in H. injection H as _ H. by exists before, after.
Qed.

Lemma existsb_hits (keywords : list string) (name : string) :
  existsb (str_includes name) keywords = true <-> table_hits keywords name.
Proof.
  unfold table_hits. rewrite existsb_exists.
  split; intros (k & Hin & H); exists k; (split; [done|]);
    by apply str_includes_occurs.
Qed.

Lemma categorize_in_first (tables : list (string * list string))
    (name : string) :
  (categorize_in tables name = "其他"
   /\ Forall (fun t => ~ table_hits t.2 name) tables)
  \/ exists before category keywords after,
       tables = (before ++ (category, keywords) :: after)%list
       /\ categorize_in tables name = category
       /\ table_hits keywords name
       /\ Forall (fun t => ~ table_hits t.2 name) before.
Proof.
  induction tables as [|[category keywords] tables IH]; simpl.
  - left. by split.
  - destruct (existsb (str_includes name) keywords) eqn:E.
    + right. exists [], category, keywords, tables.
      repeat split; [|constructor]. by apply existsb_hits.
    + assert (Hno : ~ table_hits keywords name).
      { rewrite <- existsb_hits. by rewrite E. }
      destruct IH as [[H1 H2]|(before & c & ks & after & -> & H1 & H2 & H3)].
      * left. split; [done|]. by constructor.
      * right. exists ((category, keywords) :: before), c, ks, after.
        repeat split; try done. by constructor.
Qed.

(** X10.  [categorizeIngredient] answers with the first category, in the
    order of the table, one of whose keywords is a substring of the name,
    and with 其他 when no keyword of any category is. *)
Theorem first_matching_table_wins (name : string) :
  (categorizeIngredient name = "其他"
   /\ Forall (fun t => ~ table_hits t.2 name) category_keywords)
  \/ exists before category keywords after,
       category_keywords = (before ++ (category, keywords) :: after)%list
       /\ categorizeIngredient name = category
       /\ table_hits keywords name
       /\ Forall (fun t => ~ table_hits t.2 name) before.
Proof. apply categorize_in_first. Qed.

(** X11.  The keyword 蚝油 of 调味品 can never decide: a name that contains
    蚝油 contains 蚝, a keyword of 水产类, which is asked before 调味品; so
    such an ingredient is filed under 蔬菜类, 肉类 or 水产类. *)
Theorem oyster_sauce_is_not_a_condiment (name : string) :
  occurs "蚝油" name ->
  categorizeIngredient name = "蔬菜类"
  \/ categorizeIngredient name = "肉类"
  \/ categorizeIngredient name = "水产类".
Proof.
  intros (before & after & ->).
  assert (H : str_includes (before ++ "蚝油" ++ after) "蚝" = true).
  { apply str_includes_occurs. exists before, ("油" ++ after).
    f_equal. }
  unfold categorizeIngredient, category_keywords. cbn [categorize_in].
  destruct (existsb _ _); [by left|].
  destruct (existsb _ _); [right; by left|].
  cbn [existsb]. rewrite H, !orb_true_r. right; by right.
Qed.

Lemma oyster_sauce_is_not_a_condiment_witness :
  categorizeIngredient "蚝油" = "蔬菜类"
  \/ categorizeIngredient "蚝油" = "肉类"
  \/ categorizeIngredient "蚝油" = "水产类".
Proof.
  apply (oyster_sauce_is_not_a_condiment "蚝油").
  exists "", "". reflexivity.
Defined.

(** ** Placement and statistics of the shopping list *)

Lemma add_ingredient_stored (names : list string) (m : gmap string Item.t)
    (a : Adjusted.t) :
  In (name_of a) names ->
  (forall k v, m !! k = Some v -> stored_under names k v) ->
  forall k v, add_ingredient m a !! k = Some v -> stored_under names k v.
Proof.
  intros Ha Hm k v. unfold add_ingredient. fold (name_of a).
  destruct (m !! name_of a) as [item|] eqn:E.
  - destruct (decide (name_of a = k)) as [<-|Hne].
    + rewrite lookup_insert_eq. intros [= <-].
      destruct (Hm _ _ E) as (? & ? & ?). by repeat split.
    + rewrite lookup_insert_ne by done. apply Hm.
  - destruct (inherited (name_of a)) eqn:Hi; [apply Hm|].
    destruct (decide (name_of a = k)) as [<-|Hne].
    + rewrite lookup_insert_eq. intros [= <-]. by repeat split.
    + rewrite lookup_insert_ne by done. apply Hm.
Qed.

Lemma fold_stored (names : list string) (ings : list Adjusted.t)
    (m : gmap string Item.t) :
  Forall (fun a => In (name_of a) names) ings ->
  (forall k v, m !! k = Some v -> stored_under names k v) ->
  forall k v, fold_left add_ingredient ings m !! k = Some v ->
              stored_under names k v.
Proof.
  intros H. revert m. induction H as [|a ings Ha _ IH]; intros m Hm; [done|].
  simpl. apply IH. by apply add_ingredient_stored.
Qed.

Lemma collect_stored (menu : Menu) (k : string) (v : Item.t) :
  collect_items menu !! k = Some v ->
  stored_under (map name_of (scaled_ingredients menu)) k v.
Proof.
  unfold collect_items. apply fold_stored.
  - apply Forall_forall. intros a Ha. apply in_map. by apply list_elem_of_In.
  - intros k' v'. by rewrite lookup_empty.
Qed.

Lemma collect_categories (menu : Menu) :
  Forall (fun p : string * Item.t => Item.分类 p.2 ∈ category_names)
         (map_to_list (collect_items menu)).
Proof.
  apply Forall_forall. intros [k v] Hkv. apply elem_of_map_to_list in Hkv.
  destruct (collect_stored menu k v Hkv) as (_ & Hcat & _).
  simpl. rewrite Hcat. apply categorize_in_names.
Qed.

Lemma generate_Some (C : Collator) realm realm' menu people now sl :
  generate C realm menu people now = (Some sl, realm') ->
  sl = ShoppingList.mk
         (map (fun c => (c, sort_zh C (pushed_to c (collect_items menu))))
              category_names)
         (Stats.mk (size (collect_items menu))
            (omap (fun p : string * list Entry.t =>
                     if (0 <? length p.2)%nat then Some (p.1, length p.2)
                     else None)
                  (map (fun c => (c, sort_zh C (pushed_to c (collect_items menu))))
                       category_names)))
         now people
         (getShoppingTips
            (map (fun c => (c, sort_zh C (pushed_to c (collect_items menu))))
                 category_names)).
Proof.
  unfold generate. destruct (merged_in realm menu); [|done]. by intros [= <-].
Qed.

Lemma listed_items (C : Collator) realm realm' menu people now sl :
  generate C realm menu people now = (Some sl, realm') ->
  listed sl ≡ₚ map to_entry (map_to_list (collect_items menu)).
Proof.
  intros ->%generate_Some. unfold listed. cbn [ShoppingList.清单].
  rewrite map_map. cbn [snd]. rewrite concat_sorted. unfold pushed_to.
  set (key := fun p : string * Item.t => Item.分类 p.2).
  set (L := map_to_list (collect_items menu)).
  transitivity (map to_entry
                  (concat (map (fun c => List.filter (in_group key c) L)
                               category_names))).
  { by rewrite concat_map, map_map. }
  rewrite groups_partition;
    [done|apply NoDup_category_names|apply collect_categories].
Qed.

(** X12.  The shopping list has the six categories in the order of the
    table, used or not; every entry sits under the category
    [categorizeIngredient] gives its name, is not yet bought, and is named
    after an ingredient of the menu that is not an inherited property name;
    and no name is listed twice. *)
Theorem shopping_list_placement
    (C : Collator) (realm realm' : Realm) (menu : Menu) (people : Z)
    (now : string) (sl : ShoppingList.t) :
  generate C realm menu people now = (Some sl, realm') ->
  map fst (ShoppingList.清单 sl) = category_names
  /\ Forall (fun entry =>
               Forall (fun e =>
                         categorizeIngredient (Entry.名称 e) = entry.1
                         /\ Entry.已购买 e = false
                         /\ inherited (Entry.名称 e) = false
                         /\ In (Entry.名称 e)
                              (map name_of (scaled_ingredients menu)))
                      entry.2)
            (ShoppingList.清单 sl)
  /\ NoDup (map Entry.名称 (listed sl)).
Proof.
  intros Hgen.
  pose proof (listed_items C realm realm' menu people now sl Hgen) as Hl.
  apply generate_Some in Hgen. subst sl. cbn [ShoppingList.清单] in *.
  split; [|split].
  - rewrite map_map. simpl. reflexivity.
  - apply Forall_fmap, Forall_forall. intros c _. simpl.
    rewrite sort_zh_perm. unfold pushed_to.
    apply Forall_fmap, Forall_forall. intros [k v] Hkv.
    apply list_elem_of_In, filter_In in Hkv as [Hkv Hc].
    apply list_elem_of_In, elem_of_map_to_list in Hkv.
    destruct (collect_stored menu k v Hkv) as (Hi & Hcat & Hin).
    simpl in *. apply String.eqb_eq in Hc. repeat split; try done. congruence.
  - rewrite Hl, map_map. simpl.
    change (map (fun x : string * Item.t => x.1) ?l) with (l.*1).
    apply NoDup_fst_map_to_list.
Qed.

Lemma shopping_list_placement_witness :
  exists sl,
    generate flat_collator Pristine spring_menu 6 "2024-05-01T10:00:00.000Z"
    = (Some sl, Pristine)
    /\ map fst (ShoppingList.清单 sl) = category_names
    /\ Forall (fun entry =>
                 Forall (fun e =>
                           categorizeIngredient (Entry.名称 e) = entry.1
                           /\ Entry.已购买 e = false
                           /\ inherited (Entry.名称 e) = false
                           /\ In (Entry.名称 e)
                                (map name_of (scaled_ingredients spring_menu)))
                        entry.2)
              (ShoppingList.清单 sl)
    /\ NoDup (map Entry.名称 (listed sl)).
Proof.
  eexists. split; [vm_compute; reflexivity|].
  apply (shopping_list_placement flat_collator Pristine Pristine spring_menu 6
           "2024-05-01T10:00:00.000Z").
  vm_compute; reflexivity.
Defined.

Lemma counts_sum (categories : list (string * list Entry.t)) :
  sum_counts
    (omap (fun p : string * list Entry.t =>
             if (0 <? length p.2)%nat then Some (p.1, length p.2) else None)
          categories)
  = length (concat (map snd categories)).
Proof.
  induction categories as [|[c l] cs IH]; [done|].
  cbn [omap map concat snd fst list_omap]. rewrite length_app, <- IH.
  simpl. destruct l; simpl; [done|]. reflexivity.
Qed.

(** X13.  The statistics agree with the list: 总项数 is the number of
    entries, the counts of 分类统计 add up to 总项数, and 分类统计 names
    only categories that have entries, each with the number of its
    entries. *)
Theorem shopping_list_statistics
    (C : Collator) (realm realm' : Realm) (menu : Menu) (people : Z)
    (now : string) (sl : ShoppingList.t) :
  generate C realm menu people now = (Some sl, realm') ->
  Stats.总项数 (ShoppingList.统计 sl) = length (listed sl)
  /\ sum_counts (Stats.分类统计 (ShoppingList.统计 sl))
     = Stats.总项数 (ShoppingList.统计 sl)
  /\ Forall (fun p => 1 <= p.2 /\ exists entries,
                        In (p.1, entries) (ShoppingList.清单 sl)
                        /\ p.2 = length entries)
            (Stats.分类统计 (ShoppingList.统计 sl)).
Proof.
  intros Hgen.
  pose proof (listed_items C realm realm' menu people now sl Hgen) as Hl.
  assert (Htotal : Stats.总项数 (ShoppingList.统计 sl) = length (listed sl)).
  { rewrite Hl, length_map, length_map_to_list.
    apply generate_Some in Hgen. by subst sl. }
  split; [exact Htotal|]. rewrite Htotal.
  apply generate_Some in Hgen. subst sl.
  cbn [ShoppingList.清单 ShoppingList.统计 Stats.分类统计] in *.
  split; [apply counts_sum|].
  apply Forall_forall. intros [c n] Hcn.
  apply list_elem_of_omap in Hcn as ([c' l] & Hin & Hsome). simpl in Hsome.
  destruct (Nat.ltb_spec 0 (length l)); [|done]. injection Hsome as <- <-.
  split; [simpl; lia|]. exists l. split; [|done]. by apply list_elem_of_In.
Qed.

Lemma shopping_list_statistics_witness :
  exists sl,
    generate flat_collator Pristine spring_menu 6 "2024-05-01T10:00:00.000Z"
    = (Some sl, Pristine)
    /\ Stats.总项数 (ShoppingList.统计 sl) = length (listed sl)
    /\ sum_counts (Stats.分类统计 (ShoppingList.统计 sl))
       = Stats.总项数 (ShoppingList.统计 sl)
    /\ Forall (fun p => 1 <= p.2 /\ exists entries,
                          In (p.1, entries) (ShoppingList.清单 sl)
                          /\ p.2 = length entries)
              (Stats.分类统计 (ShoppingList.统计 sl)).
Proof.
  eexists. split; [vm_compute; reflexivity|].
  apply (shopping_list_statistics flat_collator Pristine Pristine spring_menu 6
           "2024-05-01T10:00:00.000Z").
  vm_compute; reflexivity.
Defined.

Lemma property_In {A} (c : string) (l : list (string * A)) (x : A) :
  property c l = Some x -> In (c, x) l.
Proof.
  unfold property. destruct (List.find _ l) as [[c' y]|] eqn:E; [|done].
  simpl. intros [= <-]. apply find_some in E as [Hin Heq].
  simpl in Heq. apply String.eqb_eq in Heq. by subst.
Qed.

(** X14.  [getShoppingTips] never returns an empty list, and it returns the
    fallback tip alone exactly when no category has an entry. *)
Theorem shopping_tips_fallback (categories : list (string * list Entry.t)) :
  getShoppingTips categories <> []
  /\ (getShoppingTips categories = ["根据清单购买即可"]
      <-> Forall (fun p => p.2 = []) categories).
Proof.
  unfold getShoppingTips.
  set (t1 := match property "蔬菜类" categories with Some l => _ | None => _ end).
  set (t2 := if nonempty_at "肉类" categories then _ else _).
  set (t3 := if nonempty_at "水产类" categories then _ else _).
  destruct (existsb (fun p : string * list Entry.t => (0 <? length p.2)%nat)
                    categories) eqn:E.
  - assert (Hin : In "建议按照清单分类购买，提高效率"
                     (t1 ++ t2 ++ t3 ++ ["建议按照清单分类购买，提高效率"])%list).
    { rewrite !in_app_iff. do 3 right. by left. }
    set (tips := (t1 ++ t2 ++ t3 ++ _)%list) in *.
    assert (Hne : (0 <? length tips)%nat = true).
    { destruct tips; [done|reflexivity]. }
    rewrite Hne. split.
    + intros ->. done.
    + split.
      * intros Heq. rewrite Heq in Hin. destruct Hin as [Hin|[]]. discriminate.
      * intros Hall. apply existsb_exists in E as ([c l] & Hin' & Hlen).
        rewrite Forall_forall in Hall.
        apply list_elem_of_In, Hall in Hin'. simpl in *. by subst.
  - assert (Hall : Forall (fun p : string * list Entry.t => p.2 = []) categories).
    { apply Forall_forall. intros [c l] Hin. simpl.
      destruct l as [|e l]; [done|].
      assert (existsb (fun p : string * list Entry.t => (0 <? length p.2)%nat)
                categories = true); [|congruence].
      apply existsb_exists. exists (c, e :: l). split; [|done].
      by apply list_elem_of_In. }
    assert (Hp : forall c l, property c categories = Some l -> l = []).
    { intros c l H%property_In. rewrite Forall_forall in Hall.
      by apply list_elem_of_In, Hall in H. }
    assert (t1 = []) as ->.
    { unfold t1. destruct (property "蔬菜类" categories) as [l|] eqn:E1; [|done].
      by rewrite (Hp _ _ E1). }
    assert (t2 = []) as ->.
    { unfold t2, nonempty_at.
      destruct (property "肉类" categories) as [l|] eqn:E1; [|done].
      by rewrite (Hp _ _ E1). }
    assert (t3 = []) as ->.
    { unfold t3, nonempty_at.
      destruct (property "水产类" categories) as [l|] eqn:E1; [|done].
      by rewrite (Hp _ _ E1). }
    simpl. split; [done|]. by split.
Qed.

(** ** The request of handleRecommend *)

Lemma getCurrentSeason_cases (month : Z) :
  (getCurrentSeason month = "春季" <-> (3 <= month <= 5)%Z)
  /\ (getCurrentSeason month = "夏季" <-> (6 <= month <= 8)%Z)
  /\ (getCurrentSeason month = "秋季" <-> (9 <= month <= 11)%Z)
  /\ (getCurrentSeason month = "冬季" <-> (month < 3 \/ 11 < month)%Z).
Proof.
  unfold getCurrentSeason.
  destruct (Z.leb_spec 3 month), (Z.leb_spec month 5), (Z.leb_spec 6 month),
    (Z.leb_spec month 8), (Z.leb_spec 9 month), (Z.leb_spec month 11);
    simpl; repeat split; intros; try discriminate; try lia; try reflexivity.
Qed.

(** X15.  [getCurrentSeason] answers 春季 for the months 3 to 5, 夏季 for 6
    to 8, 秋季 for 9 to 11 and 冬季 for every other month number, and
    nothing else. *)
Theorem season_of_month (month : Z) :
  (getCurrentSeason month = "春季" <-> (3 <= month <= 5)%Z)
  /\ (getCurrentSeason month = "夏季" <-> (6 <= month <= 8)%Z)
  /\ (getCurrentSeason month = "秋季" <-> (9 <= month <= 11)%Z)
  /\ (getCurrentSeason month = "冬季" <-> (month < 3 \/ 11 < month)%Z)
  /\ In (getCurrentSeason month) ["春季"; "夏季"; "秋季"; "冬季"].
Proof.
  destruct (getCurrentSeason_cases month) as (H1 & H2 & H3 & H4).
  repeat split; try tauto.
  assert (Hs : getCurrentSeason month = "春季" \/ getCurrentSeason month = "夏季"
               \/ getCurrentSeason month = "秋季"
               \/ getCurrentSeason month = "冬季").
  { rewrite H1, H2, H3, H4. lia. }
  simpl. destruct Hs as [-> | [-> | [-> | ->]]]; tauto.
Qed.

(** X16.  The guard of [handleRecommend] answers 400 exactly when 人数
    parses to a negative number or one above 20; otherwise the party size
    lies between 1 and 20; and the party size is 6 exactly when 人数 is
    missing, not a number, 0 or 6. *)
Theorem people_check (query : Query.t) (month : Z) :
  (people_rejected (build_params query month) = true
   <-> exists n, Query.人数 query = Some n /\ (n < 0 \/ 20 < n)%Z)
  /\ (people_rejected (build_params query month) = true
      \/ (1 <= Params.用餐人数 (build_params query month) <= 20)%Z)
  /\ (Params.用餐人数 (build_params query month) = 6%Z
      <-> Query.人数 query = None \/ Query.人数 query = Some 0%Z
          \/ Query.人数 query = Some 6%Z).
Proof.
  unfold build_params, people_rejected, Z_or. cbn [Params.用餐人数].
  destruct (Query.人数 query) as [n|].
  - destruct (Z.eqb_spec n 0) as [->|Hn].
    + split; [|split].
      * split; [done|]. intros (n & [= <-] & ?). lia.
      * right. lia.
      * split; [tauto|done].
    + rewrite orb_true_iff, Z.ltb_lt, Z.ltb_lt. split; [|split].
      * split.
        -- intros H. exists n. split; [done|lia].
        -- intros (n' & [= <-] & H). lia.
      * lia.
      * split; [intros ->; tauto|]. intros [H|[H|H]]; congruence.
  - split; [|split].
    + split; [done|]. intros (n & ? & _). done.
    + right. lia.
    + split; [tauto|done].
Qed.

Lemma split_on_nonempty sep s : split_on sep s <> [].
Proof.
  induction s as [|c s IH]; simpl; [done|].
  destruct (Ascii.eqb c sep); [done|]. by destruct (split_on sep s).
Qed.

Lemma split_on_join (sep : ascii) (s : string) :
  String.concat (String sep "") (split_on sep s) = s.
Proof.
  induction s as [|c s IH]; [done|]. cbn [split_on].
  destruct (Ascii.eqb_spec c sep) as [->|Hne].
  - pose proof (split_on_nonempty sep s) as Hn.
    destruct (split_on sep s) as [|p ps] eqn:E; [done|].
    simpl in *. by rewrite IH.
  - pose proof (split_on_nonempty sep s) as Hn.
    destruct (split_on sep s) as [|p ps] eqn:E; [done|].
    destruct ps; simpl in *; by rewrite <- IH.
Qed.

Lemma split_on_pieces (sep : ascii) (s : string) :
  Forall (fun piece => ~ occurs (String sep "") piece) (split_on sep s).
Proof.
  assert (Hempty : ~ occurs (String sep "") "").
  { intros (b & a & H). destruct b; discriminate. }
  induction s as [|c s IH]; cbn [split_on].
  - by constructor.
  - destruct (Ascii.eqb_spec c sep) as [->|Hne].
    + by constructor.
    + pose proof (split_on_nonempty sep s) as Hn.
      destruct (split_on sep s) as [|p ps]; [done|].
      apply Forall_cons in IH as [Hp Hps]. constructor; [|done].
      intros (b & a & H). destruct b as [|c' b]; simpl in H.
      * injection H as -> _. done.
      * injection H as _ H. apply Hp. by exists b, a.
Qed.

(** X17.  A 口味 parameter that is given and not empty is cut at its commas
    and nowhere else: joining 口味偏好 with commas gives the parameter
    back, and no piece contains a comma. *)
Theorem preference_lists (query : Query.t) (month : Z) (s : string) :
  Query.口味 query = Some s ->
  s <> "" ->
  String.concat "," (Params.口味偏好 (build_params query month)) = s
  /\ Forall (fun piece => ~ occurs "," piece)
            (Params.口味偏好 (build_params query month)).
Proof.
  intros Hq Hs. unfold build_params, split_or_empty. cbn [Params.口味偏好].
  rewrite Hq. apply String.eqb_neq in Hs. rewrite Hs.
  split; [apply split_on_join|apply split_on_pieces].
Qed.

Lemma preference_lists_witness :
  String.concat "," (Params.口味偏好 (build_params sweet_and_hot 4)) = "辣,甜"
  /\ Forall (fun piece => ~ occurs "," piece)
            (Params.口味偏好 (build_params sweet_and_hot 4)).
Proof.
  apply (preference_lists sweet_and_hot 4 "辣,甜"); [reflexivity|].
  vm_compute. discriminate.
Defined.

(** X18.  For the parameters [handleRecommend] builds from a query that
    names no season, the list [getCookingTips] computes starts with the tip
    of the month's season: the spring tip in months 3 to 5, the summer tip
    in months 6 to 8, the autumn tip in months 9 to 11 and the winter tip in
    any other month; at most two further tips follow. *)
Theorem season_tip_by_default (menu : Menu) (query : Query.t) (month : Z) :
  Query.季节 query = None \/ Query.季节 query = Some "" ->
  exists rest,
    getCookingTips menu (build_params query month)
    = tip_of_month month :: rest
    /\ length rest <= 2.
Proof.
  intros Hq. unfold getCookingTips, build_params, string_or, tip_of_month.
  cbn [Params.季节 Params.用餐人数].
  assert (match Query.季节 query with
          | Some s => if String.eqb s "" then getCurrentSeason month else s
          | None => getCurrentSeason month
          end = getCurrentSeason month) as ->
    by (by destruct Hq as [-> | ->]).
  unfold getCurrentSeason.
  repeat case_decide;
    repeat match goal with
           | |- context [(?a <=? ?b)%Z] =>
               destruct (Z.leb_spec a b); try lia
           end;
    cbn [andb String.eqb Ascii.eqb Bool.eqb app];
    destruct (120 <? _)%Z; eexists; (split; [reflexivity|]); simpl; lia.
Qed.

Lemma season_tip_by_default_witness :
  exists rest,
    getCookingTips spring_menu (build_params sweet_and_hot 4)
    = "春季食材鲜嫩，建议减少烹饪时间以保留原味" :: rest
    /\ length rest <= 2.
Proof.
  apply (season_tip_by_default spring_menu sweet_and_hot 4). by left.
Defined.

(** ** validateRecipe *)

Lemma truthy_falsy (x : option json) : truthy x = false <-> falsy x.
Proof.
  unfold falsy. destruct x as [[|b|q|s|l|m]|]; cbn [truthy].
  - split; [auto|done].
  - destruct b.
    + split; [done|]. intros [H|[H|[H|[(q & H & _)|H]]]]; discriminate H.
    + split; [auto|done].
  - rewrite negb_false_iff, Qeq_bool_iff. split.
    + intros H. do 3 right. left. by exists q.
    + intros [H|[H|[H|[(q' & [= <-] & H)|H]]]]; done.
  - rewrite negb_false_iff, String.eqb_eq. split.
    + intros ->. by do 4 right.
    + intros [H|[H|[H|[(q & H & _)|[= ->]]]]]; done.
  - split; [done|]. intros [H|[H|[H|[(q & H & _)|H]]]]; discriminate H.
  - split; [done|]. intros [H|[H|[H|[(q & H & _)|H]]]]; discriminate H.
  - split; [auto|done].
Qed.

Lemma truthy_not_falsy (x : option json) : truthy x = true <-> ~ falsy x.
Proof.
  rewrite <- truthy_falsy. by destruct (truthy x).
Qed.

Lemma num_lt_below (n : number) (q : Q) : num_lt n (Fin q) = true <-> below n q.
Proof.
  destruct n as [x| | |]; cbn [num_lt below]; try (split; done).
  rewrite negb_true_iff, <- not_true_iff_false, Qle_bool_iff.
  split; [apply Qnot_le_lt|apply Qlt_not_le].
Qed.

Lemma num_gt_above (n : number) (q : Q) : num_gt n (Fin q) = true <-> above n q.
Proof.
  unfold num_gt. destruct n as [x| | |]; cbn [num_lt above]; try (split; done).
  rewrite negb_true_iff, <- not_true_iff_false, Qle_bool_iff.
  split; [apply Qnot_le_lt|apply Qlt_not_le].
Qed.

Lemma name_blank_None (x : option json) :
  name_blank x = None
  <-> ~ falsy x /\ forall s, x <> Some (JString s).
Proof.
  unfold name_blank. destruct (truthy x) eqn:E.
  - apply truthy_not_falsy in E.
    destruct x as [[|b|q|s|l|m]|]; split; try done;
      try (intros [_ H]; by destruct (H s)).
  - apply truthy_falsy in E. split; [done|]. by intros [H _].
Qed.

Lemma name_blank_false (x : option json) :
  name_blank x = Some false <-> name_ok x.
Proof.
  unfold name_blank, name_ok. destruct (truthy x) eqn:E.
  - destruct x as [[|b|q|s|l|m]|]; try (split; [done|]; by intros (? & ? & _)).
    unfold trims_to_empty. split.
    + intros [= H]. exists s. split; [done|]. by apply String.eqb_neq.
    + intros (s' & [= <-] & H). f_equal. by apply String.eqb_neq.
  - split; [done|]. intros (s & -> & H). cbn [truthy] in E.
    apply negb_false_iff, String.eqb_eq in E. by subst.
Qed.

Lemma missing_or_empty_false (x : option json) :
  missing_or_empty x = false <-> nonempty_array x.
Proof.
  unfold nonempty_array.
  destruct x as [[|b|q|s|[|first rest]|m]|]; cbn [missing_or_empty];
    try (split; [done|]; by intros (? & ? & ?)).
  split; [|done]. intros _. by exists first, rest.
Qed.

Section Accepts.
Context (coerce : json -> number).

Lemma out_of_range_false (x : option json) (high : Q) :
  out_of_range coerce x high = false <-> minutes_ok coerce x high.
Proof.
  unfold out_of_range, minutes_ok. destruct x as [v|].
  - destruct (truthy (Some v)) eqn:E; cbn [andb].
    + apply truthy_not_falsy in E.
      rewrite orb_false_iff, <- !not_true_iff_false, num_lt_below, num_gt_above.
      split.
      * intros [? ?]. right. by exists v.
      * intros [?|(v' & [= <-] & ? & ?)]; done.
    + apply truthy_falsy in E. split; [by left|done].
  - split; [|done]. intros _. left. by left.
Qed.

Lemma portion_errors_nil (x : option json) :
  portion_errors coerce x = [] <-> portion_ok coerce x.
Proof.
  unfold portion_errors, portion_ok. destruct x as [portion|].
  - destruct (truthy (Some portion)) eqn:E.
    + apply truthy_not_falsy in E.
      assert (Hb : base_invalid coerce (member "基准人数" portion) = false
                   <-> exists b, member "基准人数" portion = Some b
                                 /\ ~ falsy (Some b)
                                 /\ ~ below (ToNumber_json coerce b) 1).
      { unfold base_invalid. destruct (member "基准人数" portion) as [b|].
        - rewrite orb_false_iff, negb_false_iff, truthy_not_falsy,
            <- not_true_iff_false, num_lt_below.
          split.
          + intros [? ?]. by exists b.
          + intros (b' & [= <-] & ? & ?). done.
        - split; [done|]. by intros (? & ? & _). }
      assert (Hl : not_a_list (member "食材列表" portion) = false
                   <-> falsy (member "食材列表" portion)
                       \/ exists l, member "食材列表" portion = Some (JArray l)).
      { unfold not_a_list.
        destruct (member "食材列表" portion) as [[|b|q|s|l|m]|] eqn:El;
          rewrite ?truthy_falsy;
          try (split; [by left|]; intros [?|(? & ?)]; done).
        split; [|done]. intros _. right. by exists l. }
      split.
      * intros Hnil. right. exists portion. split; [done|].
        rewrite <- Hb, <- Hl.
        destruct (base_invalid coerce (member "基准人数" portion)),
          (not_a_list (member "食材列表" portion)); done.
      * intros [?|(p & [= <-] & H1 & H2)]; [done|].
        apply Hb in H1. apply Hl in H2. by rewrite H1, H2.
    + apply truthy_falsy in E. split; [by left|done].
  - split; [|done]. intros _. left. by left.
Qed.

Lemma is_null_true (recipe : json) : is_null recipe = true <-> recipe = JNull.
Proof. destruct recipe; split; done. Qed.

(** What [validateRecipe] does, case by case. *)
Lemma validateRecipe_cases (recipe : json) :
  match validateRecipe coerce recipe with
  | None => throws recipe
  | Some v =>
      ~ throws recipe
      /\ (Validation.有效 v = true <-> Validation.错误信息 v = [])
      /\ (Validation.有效 v = true
          <-> name_ok (member "菜品名称" recipe)
              /\ nonempty_array (member "菜品分类" recipe)
              /\ nonempty_array (member "适用季节" recipe)
              /\ minutes_ok coerce (member "准备时间" recipe) 300
              /\ minutes_ok coerce (member "烹饪时间" recipe) 480
              /\ portion_ok coerce (member "标准份量" recipe))
  end.
Proof.
  unfold validateRecipe, throws.
  destruct (is_null recipe) eqn:Hnull.
  { left. by apply is_null_true. }
  assert (Hnn : recipe <> JNull).
  { intros H. apply is_null_true in H. congruence. }
  destruct (name_blank (member "菜品名称" recipe)) as [blank|] eqn:Hname.
  2:{ right. by apply name_blank_None. }
  split.
  { intros [?|H]; [done|]. apply name_blank_None in H. congruence. }
  cbn [Validation.有效 Validation.错误信息].
  split; [rewrite Nat.eqb_eq; apply length_zero_iff_nil|].
  rewrite <- name_blank_false, <- !missing_or_empty_false,
    <- !out_of_range_false, <- portion_errors_nil, Hname.
  destruct blank,
    (missing_or_empty (member "菜品分类" recipe)),
    (missing_or_empty (member "适用季节" recipe)),
    (out_of_range coerce (member "准备时间" recipe) 300),
    (out_of_range coerce (member "烹饪时间" recipe) 480),
    (portion_errors coerce (member "标准份量" recipe));
    cbn; split; try done; try discriminate; intros (?&?&?&?&?&?); done.
Qed.


(** A 基准人数 that is a string and no number is accepted when the engine
    makes NaN of it, a 食材列表 that is no array is rejected, and a name
    that is a number makes the function throw. *)
Example validateRecipe_edges :
  coerce (JString "abc") = NaN ->
  validateRecipe coerce
    (JObject [("菜品名称", JString "粥"); ("菜品分类", JArray [JString "主食"]);
              ("适用季节", JArray [JString "冬季"]);
              ("标准份量", JObject [("基准人数", JString "abc")])])
  = Some (Validation.mk true [])
  /\ validateRecipe coerce
       (JObject [("菜品名称", JString "粥");
                 ("菜品分类", JArray [JString "主食"]);
                 ("适用季节", JArray [JString "冬季"]);
                 ("标准份量", JObject [("基准人数", JNumber 2);
                                      ("食材列表", JString "米")])])
     = Some (Validation.mk false ["食材列表格式错误"])
  /\ validateRecipe coerce (JObject [("菜品名称", JNumber 5)]) = None
  /\ validateRecipe coerce JNull = None
  /\ validateRecipe coerce (JNumber 5)
     = Some (Validation.mk false ["菜品名称不能为空"; "菜品分类不能为空";
                                  "适用季节不能为空"]).
Proof.
  intros Habc. repeat split; try reflexivity.
  unfold validateRecipe, portion_errors, base_invalid. cbn. by rewrite Habc.
Qed.
End Accepts.

Lemma lookup_member_app (name : string) (l1 l2 : list (string * json)) :
  lookup_member name (l1 ++ l2)
  = match lookup_member name l2 with
    | Some v => Some v
    | None => lookup_member name l1
    end.
Proof.
  induction l1 as [|[k v] l1 IH]; cbn [app lookup_member].
  - by destruct (lookup_member name l2).
  - rewrite IH. by destruct (lookup_member name l2).
Qed.

Lemma lookup_member_optional (name key : string) (value : option json) :
  lookup_member name (optional key value)
  = if String.eqb key name then value else None.
Proof.
  destruct value as [v|]; cbn [optional lookup_member];
    by destruct (String.eqb key name).
Qed.

(** The members [validateRecipe] reads of a recipe of the catalog. *)
Lemma member_标准份量 (recipe : Recipe.t) :
  member "标准份量" (to_json recipe) = portion_json <$> Recipe.标准份量 recipe.
Proof.
  unfold to_json, member. rewrite !lookup_member_app, !lookup_member_optional.
  cbn. by destruct (Recipe.标准份量 recipe).
Qed.

Lemma member_基准人数 (portion : Portion) :
  member "基准人数" (portion_json portion) = JNumber <$> 基准人数 portion.
Proof.
  unfold portion_json, member.
  rewrite !lookup_member_app, !lookup_member_optional.
  cbn. by destruct (基准人数 portion).
Qed.

(** X20.  What [validateRecipe] accepts, [adjustServings] can scale: a
    recipe of the catalog that is accepted and has an ingredient list with
    quantities of at most [2 ^ 900] gets, for a party size of at most
    [2 ^ 100], one scaled entry for each ingredient, every one with a finite
    quantity. *)
Theorem validated_recipes_scale
    (coerce : json -> number) (recipe : Recipe.t) (people : Z)
    (portion : Portion) (ingredients : list Ingredient.t) :
  Validation.有效 <$> validateRecipe coerce (to_json recipe) = Some true ->
  Recipe.标准份量 recipe = Some portion ->
  食材列表 portion = Some ingredients ->
  (Z.abs people <= 2 ^ 100)%Z ->
  Forall (fun i => (Qabs (Ingredient.用量 i) <= 2 ^ 900)%Q) ingredients ->
  exists scaled,
    Recipe.调整后食材 (adjust_recipe people recipe) = Some scaled
    /\ length scaled = length ingredients
    /\ Forall (fun a => exists s, Adjusted.调整用量 a = Num (Fin s)) scaled.
Proof.
  intros Hv Hp Hi Hpeople Hsmall.
  pose proof (validateRecipe_cases coerce (to_json recipe)) as Hc.
  destruct (validateRecipe coerce (to_json recipe)) as [v|]; [|done].
  injection Hv as Hv. destruct Hc as (_ & _ & Hc).
  apply Hc in Hv as (_ & _ & _ & _ & _ & Hportion).
  rewrite member_标准份量, Hp in Hportion. cbn in Hportion.
  destruct Hportion as [Hf|(p & [= <-] & (b & Hb & _ & Hge) & _)].
  { destruct Hf as [H|[H|[H|[(q & H & _)|H]]]]; discriminate H. }
  rewrite member_基准人数 in Hb.
  destruct portion as [[base|] ings seasonings]; [|done].
  injection Hb as <-. cbn [ToNumber_json below] in Hge.
  apply Qnot_lt_le in Hge. simpl in Hi. subst.
  rewrite (adjust_recipe_portion people recipe _ _ _ Hp).
  eexists. split; [reflexivity|]. split; [apply length_map|].
  apply Forall_fmap. eapply Forall_impl; [exact Hsmall|]. intros i Hq.
  cbn [compose Adjusted.调整用量 to_number].
  destruct (adjust_quantity_scaled (Ingredient.用量 i) (inject_Z people) base)
    as (s & Hs & _); [done|done| |by exists s; rewrite Hs].
  rewrite Qabs_inject_Z.
  assert ((2 ^ 100 == inject_Z (2 ^ 100))%Q) as -> by reflexivity.
  by rewrite <- Zle_Qle.
Qed.

Lemma validated_recipes_scale_witness :
  exists scaled,
    Recipe.调整后食材 (adjust_recipe 4 SPRING001) = Some scaled
    /\ length scaled = 2
    /\ Forall (fun a => exists s, Adjusted.调整用量 a = Num (Fin s)) scaled.
Proof.
  apply (validated_recipes_scale (fun _ => NaN) SPRING001 4
           (mkPortion (Some 6%Q)
              (Some [Ingredient.mk "春笋" 500 (Some "克");
                     Ingredient.mk "猪里脊肉" 300 (Some "克")])
              None)
           [Ingredient.mk "春笋" 500 (Some "克");
            Ingredient.mk "猪里脊肉" 300 (Some "克")]);
    [reflexivity|reflexivity|reflexivity|lia|].
  repeat constructor; apply Qle_bool_iff; vm_compute; reflexivity.
Defined.

(** ** handleRecipes: filters and pages *)

Lemma filter_if_In {A} (x : option string) (keep : string -> A -> bool)
    (l : list A) (a : A) :
  In a (filter_if x keep l)
  <-> In a l /\ wanted x (fun s => keep s a = true).
Proof.
  unfold filter_if, wanted. destruct x as [s|]; [|tauto].
  destruct (String.eqb_spec s "") as [->|Hs]; [tauto|].
  rewrite filter_In. tauto.
Qed.

Lemma filter_if_sublist {A} (x : option string) (keep : string -> A -> bool)
    (l : list A) :
  filter_if x keep l `sublist_of` l.
Proof.
  unfold filter_if. destruct x as [s|]; [|done].
  destruct (String.eqb s ""); [done|]. apply filter_sublist.
Qed.

(** X21.  The three filters of [handleRecipes] keep, in catalog order,
    exactly the recipes that meet each parameter that is given and not
    empty: 分类 is one of the recipe's categories, 季节 is one of its
    seasons, 关键词 is part of its name or of its description. *)
Theorem query_matches_exactly (recipes : list Described.t)
    (q : RecipesQuery.t) :
  query_matches recipes q `sublist_of` recipes
  /\ forall d,
       In d (query_matches recipes q)
       <-> In d recipes
           /\ wanted (RecipesQuery.分类 q)
                (fun c => exists categories,
                            Recipe.菜品分类 (Described.recipe d)
                            = Some categories
                            /\ In c categories)
           /\ wanted (RecipesQuery.季节 q)
                (fun s => exists seasons,
                            Recipe.适用季节 (Described.recipe d) = Some seasons
                            /\ In s seasons)
           /\ wanted (RecipesQuery.关键词 q)
                (fun k => occurs k (Recipe.菜品名称 (Described.recipe d))
                          \/ exists text,
                               Described.菜品描述 d = Some text
                               /\ occurs k text).
Proof.
  unfold query_matches. split.
  - etransitivity; [apply filter_if_sublist|].
    etransitivity; [apply filter_if_sublist|]. apply filter_if_sublist.
  - intros d. rewrite !filter_if_In.
    assert (Hc : forall c, in_category c (Described.recipe d) = true
                   <-> exists categories,
                         Recipe.菜品分类 (Described.recipe d) = Some categories
                         /\ In c categories).
    { intros c. unfold in_category.
      destruct (Recipe.菜品分类 (Described.recipe d)) as [l|].
      - rewrite includes_In. split; [by exists l|].
        by intros (l' & [= <-] & ?).
      - split; [done|]. by intros (? & ? & _). }
    assert (Hs : forall s, in_season s (Described.recipe d) = true
                   <-> exists seasons,
                         Recipe.适用季节 (Described.recipe d) = Some seasons
                         /\ In s seasons).
    { intros s. unfold in_season.
      destruct (Recipe.适用季节 (Described.recipe d)) as [l|].
      - rewrite includes_In. split; [by exists l|].
        by intros (l' & [= <-] & ?).
      - split; [done|]. by intros (? & ? & _). }
    assert (Hk : forall k, k <> "" ->
                   mentions k d = true
                   <-> occurs k (Recipe.菜品名称 (Described.recipe d))
                       \/ exists text, Described.菜品描述 d = Some text
                                       /\ occurs k text).
    { intros k Hne.
      assert (Hnon : forall t, negb (String.eqb t "") && str_includes t k = true
                               <-> occurs k t).
      { intros t. destruct (String.eqb_spec t "") as [->|Ht]; cbn [negb andb].
        - split; [done|]. intros (b & a & H).
          destruct b; [|discriminate]. destruct k; [congruence|discriminate].
        - apply str_includes_occurs. }
      unfold mentions. rewrite orb_true_iff, Hnon.
      destruct (Described.菜品描述 d) as [text|].
      - rewrite Hnon. split; intros [?|H]; try tauto.
        + right. by exists text.
        + destruct H as (t & [= <-] & ?). tauto.
      - split; [intros [?|?]; [tauto|done]|].
        intros [?|(? & ? & _)]; [tauto|done]. }
    unfold wanted.
    destruct (RecipesQuery.分类 q) as [c|], (RecipesQuery.季节 q) as [s|],
      (RecipesQuery.关键词 q) as [k|];
      try rewrite Hc; try rewrite Hs;
      try (destruct (String.eqb_spec k "") as [->|Hne];
           [|rewrite (Hk k Hne)]);
      tauto.
Qed.

(** X22.  The season tests of the two handlers differ only for what they
    do without a list: [filterRecipes] lets a recipe pass when the
    request's season is one of the recipe's seasons, as [handleRecipes]
    does, and besides when the season is 不限 or the recipe has no 适用季节,
    which [handleRecipes] drops. *)
Theorem season_filters_compare (params : Params.t) (recipe : Recipe.t) :
  season_rejects params recipe = false
  <-> in_season (Params.季节 params) recipe = true
      \/ Params.季节 params = "不限"
      \/ Recipe.适用季节 recipe = None.
Proof.
  rewrite season_rejects_false. unfold season_passes, in_season.
  destruct (Recipe.适用季节 recipe) as [seasons|].
  - rewrite includes_In. split.
    + intros [?|[?|(l & [= <-] & ?)]]; tauto.
    + intros [?|[?|?]]; [|tauto|done]. right. right. by exists seasons.
  - split; [tauto|]. intros _. tauto.
Qed.

Lemma JS_slice_forward {A} (l : list A) (start finish : Z) :
  (0 <= start <= finish)%Z ->
  JS_slice l start finish
  = take (Z.to_nat (finish - start)) (drop (Z.to_nat start) l).
Proof.
  intros H. unfold JS_slice, slice_index.
  destruct (Z.ltb_spec start 0); [lia|]. destruct (Z.ltb_spec finish 0); [lia|].
  set (len := Z.of_nat (length l)).
  destruct (Z.le_gt_cases start len) as [Hs|Hs].
  - rewrite (Z.min_l start len) by lia.
    destruct (Z.le_gt_cases finish len) as [Hf|Hf].
    + by rewrite (Z.min_l finish len) by lia.
    + rewrite (Z.min_r finish len) by lia.
      rewrite !take_ge; [done| |]; rewrite length_drop; unfold len; lia.
  - rewrite (Z.min_r start len), (Z.min_r finish len) by lia.
    rewrite Z.sub_diag. simpl.
    rewrite (drop_ge l (Z.to_nat start)) by (unfold len in *; lia).
    by rewrite take_nil.
Qed.

Lemma ceil_div_bounds (n p : Z) :
  (0 <= n)%Z -> (1 <= p)%Z ->
  (n <= ceil_div n p * p /\ (ceil_div n p - 1) * p < n /\ 0 <= ceil_div n p)%Z.
Proof.
  intros Hn Hp. unfold ceil_div.
  set (x := (inject_Z n / inject_Z p)%Q).
  pose proof (Qle_ceiling x) as Hle.
  pose proof (Qceiling_lt x) as Hlt.
  assert (Hpq : (0 < inject_Z p)%Q).
  { change 0%Q with (inject_Z 0). rewrite <- Zlt_Qlt. lia. }
  assert (Hx : (x * inject_Z p == inject_Z n)%Q).
  { unfold x. field. lra. }
  set (k := Qceiling x) in *.
  assert (H1 : (inject_Z n <= inject_Z (k * p))%Q).
  { rewrite inject_Z_mult, <- Hx. apply Qmult_le_compat_r; lra. }
  assert (H2 : (inject_Z ((k - 1) * p) < inject_Z n)%Q).
  { rewrite inject_Z_mult, <- Hx. apply Qmult_lt_compat_r; lra. }
  rewrite <- Zle_Qle in H1. rewrite <- Zlt_Qlt in H2. nia.
Qed.


Lemma page_data recipes q (i : Z) :
  (1 <= i)%Z ->
  (1 <= Z_or (RecipesQuery.每页数量 q) 20)%Z ->
  Page.数据 (handleRecipes recipes (RecipesQuery.with_页码 q i))
  = take (Z.to_nat (Z_or (RecipesQuery.每页数量 q) 20))
         (drop (Z.to_nat ((i - 1) * Z_or (RecipesQuery.每页数量 q) 20))
               (query_matches recipes q)).
Proof.
  intros Hi Hp. unfold handleRecipes.
  cbn [Page.数据 RecipesQuery.页码 RecipesQuery.每页数量 RecipesQuery.with_页码].
  change (query_matches recipes (RecipesQuery.with_页码 q i))
    with (query_matches recipes q).
  assert (Z_or (Some i) 1 = i) as ->.
  { unfold Z_or. destruct (Z.eqb_spec i 0); [lia|done]. }
  set (p := Z_or (RecipesQuery.每页数量 q) 20) in *.
  rewrite JS_slice_forward by nia. f_equal. f_equal. lia.
Qed.





(** X25.  For a page number and a page size of at least 1, a page is empty
    exactly when its number is above 总页数. *)
Theorem page_is_empty_iff (recipes : list Described.t) (q : RecipesQuery.t)
    (i : Z) :
  (1 <= i)%Z ->
  (1 <= Page.每页数量 (handleRecipes recipes q))%Z ->
  Page.数据 (handleRecipes recipes (RecipesQuery.with_页码 q i)) = []
  <-> (Page.总页数 (handleRecipes recipes q) < i)%Z.
Proof.
  cbn [handleRecipes Page.每页数量 Page.总页数].
  set (p := Z_or (RecipesQuery.每页数量 q) 20).
  set (L := query_matches recipes q). intros Hi Hp.
  rewrite page_data by (fold p; lia). fold p. fold L.
  destruct (ceil_div_bounds (Z.of_nat (length L)) p) as (Hk1 & Hk2 & Hk0);
    [lia|done|].
  set (k := ceil_div (Z.of_nat (length L)) p) in *.
  rewrite <- length_zero_iff_nil, length_take, length_drop. split; nia.
Qed.

Lemma page_is_empty_iff_witness :
  Page.数据 (handleRecipes sample_catalog
               (RecipesQuery.with_页码 second_page 3)) = []
  <-> (Page.总页数 (handleRecipes sample_catalog second_page) < 3)%Z.
Proof.
  apply (page_is_empty_iff sample_catalog second_page 3); simpl; lia.
Defined.
